(** * Retrieval-confidence and deduplication pipeline of the ApostropheCMS chatbot

A shallow embedding of [llm_query.js], [db_singleton.js] and [app.js]
(start-up, the sockets and their query handler, the conversation log and
its export), with the properties of the specification that concern them
and further properties of the code.

JavaScript numbers are IEEE 754 binary64 values: they are modelled by
Rocq's primitive floats, whose operations are the same correctly rounded
ones.  The arithmetic of [cosineSimilarity] is written once, over an
interface of number operations, and read twice: at binary64 (what the
program computes) and at the real numbers (what the formula means).

The program runs on JavaScript and on libraries that are not part of the
repository.  What decides its control flow is modelled as it is: an
object created by [{}] inherits the properties of [Object.prototype];
[String.prototype.trim] strips the white space of Unicode;
[ChatMessageHistory.getMessages] is an [async] method, whose call returns
a promise; [Promise.all] is rejected with the rejection that comes first in
time; and a rejection of an [async] event handler that nothing handles
ends the process.  The chain combinators that [setupLlmAndDb] imports are
written after the specification, and marked so. *)

From Stdlib Require Import Floats Reals Lra Psatz ZArith List Bool.
From Stdlib Require Ascii String.
From stdpp Require Import gmap strings list.

Set Warnings "-inexact-float".

(** ** Exceptions

A thrown JavaScript [Error], identified by its message. *)

Inductive exn : Type :=
| Error (message : string).

Definition result (A : Type) : Type := (exn + A)%type.

Definition bindR {A B : Type} (r : result A) (k : A -> result B) : result B :=
  match r with
  | inl e => inl e
  | inr a => k a
  end.

(** ** Number operations used by the similarity scorer *)

Class Arith (num : Type) : Type := {
  num_zero : num;
  num_add : num -> num -> num;
  num_mul : num -> num -> num;
  num_div : num -> num -> num;
  num_sqrt : num -> num;
  (** [x === 0] *)
  num_is_zero : num -> bool
}.

(** binary64, the numbers of the program *)
#[export] Instance float_arith : Arith float := {|
  num_zero := 0%float;
  num_add := PrimFloat.add;
  num_mul := PrimFloat.mul;
  num_div := PrimFloat.div;
  num_sqrt := PrimFloat.sqrt;
  num_is_zero := fun x => PrimFloat.eqb x 0%float
|}.

(** exact arithmetic *)
#[export] Instance real_arith : Arith R := {|
  num_zero := 0%R;
  num_add := Rplus;
  num_mul := Rmult;
  num_div := Rdiv;
  num_sqrt := R_sqrt.sqrt;
  num_is_zero := fun x => if Req_EM_T x 0%R then true else false
|}.

(** ** [llm_query.js]: the similarity scorer *)

Module SimilarityScorer.

Section Scorer.
  Context {num : Type} `{Arith num}.

(** The three accumulators of the loop: [dotProduct], [normA], [normB]. *)
Record sums : Type := mkSums { dotProduct : num; normA : num; normB : num }.

(** One iteration of the [for] loop body at index [i], with
    [x = vectorA[i]] and [y = vectorB[i]]. *)
Definition step (s : sums) (xy : num * num) : sums :=
  {| dotProduct := num_add (dotProduct s) (num_mul (fst xy) (snd xy));
     normA := num_add (normA s) (num_mul (fst xy) (fst xy));
     normB := num_add (normB s) (num_mul (snd xy) (snd xy)) |}.

(** The loop, run for [i] from [0] to [vectorA.length - 1]; it is only
    reached when both arrays have the same length. *)
Definition accumulate (vectorA vectorB : list num) : sums :=
  fold_left step (combine vectorA vectorB)
    {| dotProduct := num_zero; normA := num_zero; normB := num_zero |}.

Definition dimension_error : exn := Error "Vectors must have the same dimensions".

Definition cosineSimilarity (vectorA vectorB : list num) : result num :=
  if negb (Nat.eqb (length vectorA) (length vectorB)) then
    inl dimension_error
  else
    let s := accumulate vectorA vectorB in
    if num_is_zero (normA s) || num_is_zero (normB s) then
      inr num_zero
    else
      inr (num_div (dotProduct s) (num_mul (num_sqrt (normA s)) (num_sqrt (normB s)))).

End Scorer.

Arguments sums : clear implicits.

End SimilarityScorer.

(** ** JavaScript string methods used by [fixDocumentMetadata]

A JavaScript string is represented by the bytes of its UTF-8 encoding
(the strings are well formed: no lone surrogate).  UTF-8 is
self-synchronizing, so a search for the encoding of a pattern finds the
occurrences of the pattern.  The methods are those of [String.prototype],
restricted to the arguments the program passes. *)

Module JsString.

Definition LF : Ascii.ascii := Ascii.ascii_of_nat 10.

(** the one-character string [\n] *)
Definition newline : string := String LF EmptyString.

(** [s.includes(pat)] *)
Fixpoint includes (s pat : string) : bool :=
  String.prefix pat s ||
  match s with
  | EmptyString => false
  | String _ s' => includes s' pat
  end.

Fixpoint drop (n : nat) (s : string) : string :=
  match n, s with
  | S n', String _ s' => drop n' s'
  | _, _ => s
  end.

(** [s.replace(pat, rep)] with a string pattern: the first occurrence only.
    ([rep] is the empty string in the program, so the [$] patterns of
    replacement strings do not arise.) *)
Fixpoint replace (s pat rep : string) : string :=
  if String.prefix pat s then rep +:+ drop (String.length pat) s
  else match s with
       | EmptyString => EmptyString
       | String c s' => String c (replace s' pat rep)
       end.

(** [s.split(sep)] for a one-character separator: never the empty array. *)
Fixpoint split (s : string) (sep : Ascii.ascii) : list string :=
  match s with
  | EmptyString => [EmptyString]
  | String c s' =>
      if Ascii.eqb c sep then EmptyString :: split s' sep
      else match split s' sep with
           | line :: lines => String c line :: lines
           | [] => [String c EmptyString]
           end
  end.

(** [lines.join(sep)] *)
Definition join (lines : list string) (sep : string) : string :=
  String.concat sep lines.

(** The string of the bytes of the given values. *)
Definition bytes (values : list nat) : string :=
  fold_right (fun n s => String (Ascii.ascii_of_nat n) s) EmptyString values.

(** The white space and line terminators of ECMAScript, which [trim]
    strips, each by its UTF-8 encoding: TAB, LF, VT, FF, CR, SPACE, U+00A0,
    U+1680, U+2000 to U+200A, U+2028, U+2029, U+202F, U+205F, U+3000 and
    U+FEFF. *)
Definition whiteSpace : list string :=
  map bytes
    ([[9]; [10]; [11]; [12]; [13]; [32]; [194; 160]; [225; 154; 128]]
     ++ map (fun k => [226; 128; 128 + k]) (seq 0 11)
     ++ [[226; 128; 168]; [226; 128; 169]; [226; 128; 175]; [226; 129; 159];
         [227; 128; 128]; [239; 187; 191]]).

(** The string without its first character, when that character is one of
    [chars]. *)
Fixpoint afterOneOf (chars : list string) (s : string) : option string :=
  match chars with
  | [] => None
  | c :: rest =>
      if String.prefix c s then Some (drop (String.length c) s)
      else afterOneOf rest s
  end.

(** Strips the leading characters that are among [chars]; [fuel] bounds
    their number. *)
Fixpoint stripStart (chars : list string) (fuel : nat) (s : string) : string :=
  match fuel with
  | 0 => s
  | S fuel' =>
      match afterOneOf chars s with
      | Some s' => stripStart chars fuel' s'
      | None => s
      end
  end.

Fixpoint reverseOnto (s acc : string) : string :=
  match s with
  | EmptyString => acc
  | String c s' => reverseOnto s' (String c acc)
  end.

(** The bytes of a string, last first. *)
Definition reverse (s : string) : string := reverseOnto s EmptyString.

(** [s.trimStart()] *)
Definition trimStart (s : string) : string :=
  stripStart whiteSpace (String.length s) s.

(** [s.trimEnd()]: a string ends with a character exactly when its reverse
    starts with the reverse of the character's encoding. *)
Definition trimEnd (s : string) : string :=
  reverse (stripStart (map reverse whiteSpace) (String.length s) (reverse s)).

(** [s.trim()] *)
Definition trim (s : string) : string := trimEnd (trimStart s).

(** [!!s]: a string is truthy when it is not empty. *)
Definition truthy (s : string) : bool := negb (String.eqb s EmptyString).

End JsString.

(** ** Objects used as maps

An object created by [{}] (or as a class field initialised with [{}])
inherits the properties of [Object.prototype].  When the object has no
property of its own under a name, a read of that name yields the
inherited function or object, which is truthy, for the twelve names below,
and [undefined] for every other name. *)

Definition inheritedNames : list string :=
  ["constructor"; "__defineGetter__"; "__defineSetter__"; "hasOwnProperty";
   "__lookupGetter__"; "__lookupSetter__"; "isPrototypeOf"; "propertyIsEnumerable";
   "toString"; "valueOf"; "__proto__"; "toLocaleString"].

Definition inherited (name : string) : bool :=
  existsb (String.eqb name) inheritedNames.

(** ** Documents and retrievers *)

(** The value of [doc.metadata]. *)
Inductive Metadata : Type :=
| MetaFalsy                               (** [undefined], [null] or another falsy value *)
| MetaNotObject                           (** a truthy value whose [typeof] is not ['object'] *)
| MetaObject (fields : gmap string string).

Record Document : Type := mkDocument {
  pageContent : string;
  metadata : Metadata
}.

(** [doc.metadata.url], when the metadata is an object that has the field. *)
Definition url (doc : Document) : option string :=
  match metadata doc with
  | MetaObject fields => fields !! "url"
  | _ => None
  end.

(** [!!doc.metadata.url] for an object's fields *)
Definition has_url (fields : gmap string string) : bool :=
  match fields !! "url" with
  | Some u => JsString.truthy u
  | None => false
  end.

(** A retriever object: its [invoke] method, a search of the vector store
    (§6 [search]) that yields documents or throws.  The store does not
    change while questions are answered: a query has one outcome. *)
Record Retriever : Type := mkRetriever {
  invoke : string -> result (list Document)
}.

(** ** State and exceptions: the monad of the effectful code

A computation transforms a state of type [S] and either returns a value
or throws; what it wrote to the state before throwing stays written. *)

Definition M (S A : Type) : Type := S -> result A * S.

Definition ret {S A : Type} (a : A) : M S A := fun s => (inr a, s).

Definition throw {S A : Type} (e : exn) : M S A := fun s => (inl e, s).

Definition bind {S A B : Type} (m : M S A) (k : A -> M S B) : M S B :=
  fun s =>
    match m s with
    | (inl e, s') => (inl e, s')
    | (inr a, s') => k a s'
    end.

Definition gets {S A : Type} (f : S -> A) : M S A := fun s => (inr (f s), s).

Definition modify {S : Type} (f : S -> S) : M S unit := fun s => (inr tt, f s).

(** a pure computation that may throw *)
Definition liftR {S A : Type} (r : result A) : M S A := fun s => (r, s).

(** Runs [m] and hands its outcome, returned or thrown, to the code that
    follows: the [try] block of a [try]/[catch] whose two continuations
    differ. *)
Definition attempt {S A : Type} (m : M S A) : M S (result A) :=
  fun s => let '(r, s') := m s in (inr r, s').

(** [try { m } catch (e) { handler e }] *)
Definition try_catch {S A : Type} (m : M S A) (handler : exn -> M S A) : M S A :=
  fun s =>
    match m s with
    | (inl e, s') => handler e s'
    | (inr a, s') => (inr a, s')
    end.

Notation "'let*' x ':=' m 'in' k" := (bind m (fun x => k))
  (at level 10, x pattern, m at level 100, k at level 200).

(** What is thrown among a list of outcomes, and what is returned, each in
    the order of the list. *)
Definition rejections {B : Type} (outcomes : list (result B)) : list exn :=
  flat_map (fun r => match r with inl e => [e] | inr _ => [] end) outcomes.

Definition fulfilled {B : Type} (outcomes : list (result B)) : list B :=
  flat_map (fun r => match r with inl _ => [] | inr b => [b] end) outcomes.

(** [await Promise.all(promises)], the promises given by their outcomes: the
    values in the order of the array when every promise is fulfilled; when
    some are rejected, the rejection that comes first in time.  [earliest]
    tells which one that is: given the rejections in the order of the array,
    it returns the index of the first in time (an index past the end stands
    for the first of the list). *)
Definition promiseAll {B : Type} (earliest : list exn -> nat)
    (outcomes : list (result B)) : result (list B) :=
  match rejections outcomes with
  | [] => inr (fulfilled outcomes)
  | e :: es => inl (nth (earliest (e :: es)) (e :: es) e)
  end.

(** [f] applied to the elements of [xs] one after the other, up to the first
    that throws. *)
Fixpoint mapR {A B : Type} (f : A -> result B) (xs : list A) : result (list B) :=
  match xs with
  | [] => inr []
  | x :: xs' =>
      bindR (f x) (fun y => bindR (mapR f xs') (fun ys => inr (y :: ys)))
  end.

(** ** [db_singleton.js]: the vector-store adapter *)

Module DbSingleton.

(** *** [fixDocumentMetadata] *)

Definition marker : string := "Reference URL:".

Definition default_url : string := "https://docs.apostrophecms.org/".

(** [lines.map((line, index) => ({ line, index }))] *)
Definition indexed (lines : list string) : list (string * nat) :=
  combine lines (seq 0 (length lines)).

(** The indices of the lines that contain the marker. *)
Definition urlLineIndices (contentLines : list string) : list nat :=
  map snd (List.filter (fun item => JsString.includes (fst item) marker)
             (indexed contentLines)).

(** [contentLines.filter((_, i) => i !== urlLineIndex)] *)
Definition withoutLine (contentLines : list string) (urlLineIndex : nat) : list string :=
  map fst (List.filter (fun item => negb (Nat.eqb (snd item) urlLineIndex))
             (indexed contentLines)).

(** The body of the [for] loop, for one document.  Nothing in the [try]
    block throws on strings, so its [catch] is not modelled. *)
Definition fixDocument (doc : Document) : Document :=
  (* if (!doc.metadata) ...; if (typeof doc.metadata !== 'object') ... *)
  let fields : gmap string string :=
    match metadata doc with
    | MetaObject fields => fields
    | MetaFalsy | MetaNotObject => ∅
    end in
  let '(fields, content) :=
    if negb (has_url fields) && JsString.truthy (pageContent doc)
       && JsString.includes (pageContent doc) marker
    then
      let contentLines := JsString.split (pageContent doc) JsString.LF in
      match urlLineIndices contentLines with
      | urlLineIndex :: _ =>
          let url :=
            JsString.trim
              (JsString.replace (nth urlLineIndex contentLines EmptyString) marker EmptyString) in
          let newContentLines := withoutLine contentLines urlLineIndex in
          (<["url" := url]> fields, JsString.join newContentLines JsString.newline)
      | [] => (fields, pageContent doc)
      end
    else (fields, pageContent doc) in
  (* If still no URL, add a default one *)
  let fields := if negb (has_url fields) then <["url" := default_url]> fields else fields in
  {| pageContent := content; metadata := MetaObject fields |}.

Definition fixDocumentMetadata (documents : list Document) : list Document :=
  map fixDocument documents.

(** *** Initialization with retries *)

(** The vector store handle [this.db]: its similarity search (§4.5). *)
Record VectorStore : Type := mkVectorStore {
  search : string -> nat -> result (list Document)
}.

(** [db.asRetriever({ searchType: "similarity", k })] *)
Definition asRetriever (db : VectorStore) (k : nat) : Retriever :=
  {| invoke := fun query => search db query k |}.

(** The fields of a [ChromaDB] object. *)
Record ChromaDB : Type := mkChromaDB {
  db : option VectorStore;
  retriever : option Retriever
}.

Inductive Event : Type :=
| Attempt (n : nat)          (** the [try] block is entered for the [n]-th time *)
| Wait (milliseconds : nat). (** [setTimeout(resolve, milliseconds)] *)

Record State : Type := mkState {
  _instance : option ChromaDB;  (** [ChromaDB._instance] *)
  attempts : nat;               (** how many times the [try] block has run *)
  events : list Event
}.

Definition initial : State := {| _instance := None; attempts := 0; events := [] |}.

Section Initialize.
  (** What the [try] block yields the [n]-th time it runs, up to its
      [return]: the store that [Chroma.fromExistingCollection] resolves
      to, or what was thrown (by it, by the embeddings constructor or by
      the directory check).  The statistics that follow are printed under
      a [try]/[catch] of their own and cannot fail the block. *)
  Variable fromExistingCollection : nat -> result VectorStore.

Definition maxRetries : nat := 3.

Definition log (ev : Event) : M State unit :=
  modify (fun s => {| _instance := _instance s; attempts := attempts s; events := events s ++ [ev] |}).

(** Runs the [try] block once. *)
Definition connect : M State VectorStore :=
  fun s =>
    let n := attempts s in
    (fromExistingCollection n,
     {| _instance := _instance s; attempts := S n; events := events s ++ [Attempt n] |}).

(** [this.db = ...; this.retriever = this.db.asRetriever(...)]: [this] is
    the object [ChromaDB._instance] refers to, the only one on which
    [_initialize] is ever called. *)
Definition setFields (store : VectorStore) : M State unit :=
  modify (fun s =>
    {| _instance := Some {| db := Some store; retriever := Some (asRetriever store 6) |};
       attempts := attempts s; events := events s |}).

(** The [while (retryCount < maxRetries)] loop.  [remaining] is
    [maxRetries - retryCount], which every iteration that does not
    leave the function decreases by one; at [0] the loop condition is
    false and the function returns. *)
Fixpoint retryLoop (remaining : nat) : M State unit :=
  match remaining with
  | 0 => ret tt
  | S remaining' =>
      let retryCount := maxRetries - remaining in
      let* outcome := attempt connect in
      match outcome with
      | inr store =>
          let* _ := setFields store in
          ret tt                                   (* return *)
      | inl e =>                                   (* catch (e) *)
          let retryCount := retryCount + 1 in
          if Nat.leb maxRetries retryCount then throw e
          else
            let* _ := log (Wait 2000) in
            retryLoop remaining'
      end
  end.

Definition _initialize : M State unit := retryLoop (maxRetries - 0).

(** [static async getInstance()] *)
Definition getInstance : M State ChromaDB :=
  let* inst := gets _instance in
  match inst with
  | Some chroma => ret chroma
  | None =>
      let* _ := modify (fun s =>
        {| _instance := Some {| db := None; retriever := None |};
           attempts := attempts s; events := events s |}) in
      let* _ := _initialize in
      let* inst := gets _instance in
      match inst with
      | Some chroma => ret chroma
      | None => ret {| db := None; retriever := None |}
      end
  end.

End Initialize.

End DbSingleton.

(** ** [llm_query.js]: the pipeline *)

Module LlmQuery.

Import SimilarityScorer.

(** A message of a session's history, by the two properties the loop of
    [getResponse] reads: [message.role] and [message.content]. *)
Record Message : Type := mkMessage {
  role : string;
  content : string
}.

(** The two prompts sent to the chat model, by the values that fill their
    placeholders.  The fixed instructions of each template are text the
    model reads and play no part in the control flow. *)
Inductive Prompt : Type :=
| contextualizeQPrompt (chat_history : list Message) (input : string)
| qaPrompt (context : string) (chat_history : list Message) (input : string).

(** The calls that leave the process, in the order they are made, and the
    documents the answering stage is handed. *)
Inductive Event : Type :=
| Retrieve (query : string)                        (** [retriever.invoke(query)] *)
| AnswerFrom (documents : list Document)           (** the documents bound to [{context}] *)
| ModelCall (modelName : string) (prompt : Prompt). (** an invocation of the chat model *)

(** The module's two globals, and the log of events. *)
Record World : Type := mkWorld {
  chatHistoriesStore : gmap string (list Message);
  currentModel : option string;
  trace : list Event
}.

Definition initial : World :=
  {| chatHistoriesStore := ∅; currentModel := None; trace := [] |}.

(** The services the module calls (§6) and the environment it reads.  Each
    service is a function of its argument: a text has one embedding, a
    prompt one completion, and a service that fails on an input fails on it
    every time. *)
Record Services : Type := mkServices {
  (** [new OpenAIEmbeddings().embedQuery(text)] *)
  embedQuery : string -> result (list float);
  (** the timing of the embeddings service: of calls in flight together that
      fail, given by their errors in the order the calls were made, the
      index of the one that fails first *)
  failsFirst : list exn -> nat;
  (** the chat model of the given name, invoked on a prompt *)
  chatModel : string -> Prompt -> result string;
  (** [process.env.CHAT_MODEL] *)
  CHAT_MODEL : option string
}.

Definition duplicate_message : string :=
  "It looks like you're asking a similar question to one you've already asked. This can lead to increased hallucination. Please refer to the ApostropheCMS documentation links given in the original answer or rephrase your question to be more specific. If you have additional questions, consider joining our Discord community from the link below for further assistance.".

Definition empty_message : string :=
  "I'm sorry, the knowledge base appears to be empty. Please contact the administrator.".

Definition low_confidence_message : string :=
  "I'm sorry, I cannot provide a confident answer based on the available information in our current RAG database. The specific terms you are using may not exist or not be documented. Please consider rephrasing your question or joining our Discord for additional assistance.".

(** [Math.max(...xs)]: [-Infinity] for no argument, [NaN] as soon as one
    argument is [NaN], and [+0] above [-0]. *)
Definition max2 (x y : float) : float :=
  if PrimFloat.is_nan x || PrimFloat.is_nan y then PrimFloat.nan
  else if PrimFloat.ltb x y then y
  else if PrimFloat.ltb y x then x
  else if PrimFloat.get_sign x then y else x.

Definition Math_max (xs : list float) : float :=
  fold_left max2 xs PrimFloat.neg_infinity.

Section Pipeline.
  Variable svc : Services.

Definition log (ev : Event) : M World unit :=
  modify (fun w =>
    {| chatHistoriesStore := chatHistoriesStore w;
       currentModel := currentModel w;
       trace := trace w ++ [ev] |}).

(** The cosine similarity of the embeddings of two texts. *)
Definition similarity (text1 text2 : string) : result float :=
  bindR (embedQuery svc text1) (fun embedding1 =>
  bindR (embedQuery svc text2) (fun embedding2 =>
  cosineSimilarity embedding1 embedding2)).

Definition areQuestionsSimilar (question1 question2 : string) (threshold : float)
  : result bool :=
  bindR (similarity question1 question2) (fun similarity =>
  inr (PrimFloat.leb threshold similarity)).

(** the default value of [threshold] *)
Definition duplicate_threshold : float := 0.85%float.

(** *** The session history store

[chatHistoriesStore] is an object used as a map from session ids to
[ChatMessageHistory] objects.  A history lives in the store under its
session id and nowhere else, so the id stands for the object; the store
keeps, for each history, the messages it holds. *)

(** What [chatHistoriesStore[sessionId]] evaluates to when it is truthy. *)
Inductive SessionHistory : Type :=
| History (sessionId : string)
    (** the [ChatMessageHistory] stored under the id *)
| InheritedProperty (name : string).
    (** the property of that name which the store inherits from [Object.prototype] *)

(** A history is an object, which is truthy: the test
    [!chatHistoriesStore[sessionId]] is true exactly of an id that has no
    entry and is not the name of an inherited property. *)
Definition getSessionHistory (sessionId : string) : M World SessionHistory :=
  let* store := gets chatHistoriesStore in
  match store !! sessionId with
  | Some _ => ret (History sessionId)
  | None =>
      if inherited sessionId then ret (InheritedProperty sessionId)
      else
        let* _ := modify (fun w =>
          {| chatHistoriesStore := <[sessionId := []]> (chatHistoriesStore w);
             currentModel := currentModel w;
             trace := trace w |}) in
        ret (History sessionId)
  end.

(** the messages of a session in a world: none when it has no history yet *)
Definition messagesOf (sessionId : string) (w : World) : list Message :=
  default [] (chatHistoriesStore w !! sessionId).

(** What the head of a [for ... of] loop is given: an array, which the loop
    runs through, or a promise of an array, which has no iterator. *)
Inductive Iterated : Type :=
| ArrayOf (messages : list Message)
| PromiseOf (messages : list Message).

(** What the head of the loop of [getResponse] throws when the method it
    calls is not a function, and when the value the method returns is not
    iterable: the engine has one message for the two. *)
Definition not_iterable : exn :=
  Error "TypeError: sessionHistory.getMessages is not a function or its return value is not iterable".

(** [sessionHistory.getMessages()], as [getResponse] calls it, without
    [await].  [getMessages] is an [async] method of the imported class
    [ChatMessageHistory]: the call returns a promise of the array of the
    messages.  The properties inherited from [Object.prototype] have no
    such method. *)
Definition getMessages (sessionHistory : SessionHistory) : M World Iterated :=
  match sessionHistory with
  | History sessionId =>
      let* messages := gets (messagesOf sessionId) in
      ret (PromiseOf messages)
  | InheritedProperty _ => throw not_iterable
  end.

(** Modelled from the spec: the history interface of §6 that the chain
    library uses is missing from the sources.  [getMessages(sessionId)]
    yields the ordered sequence of the session's messages. *)
Definition sessionMessages (sessionId : string) : M World (list Message) :=
  gets (messagesOf sessionId).

(** Modelled from the spec: the history interface of §6 that the chain
    library uses is missing from the sources.  [appendMessage], for each of
    the messages in turn. *)
Definition addMessages (sessionId : string) (messages : list Message) : M World unit :=
  modify (fun w =>
    {| chatHistoriesStore :=
         <[sessionId := messagesOf sessionId w ++ messages]> (chatHistoriesStore w);
       currentModel := currentModel w;
       trace := trace w |}).

(** *** Calls to the retriever and to the chat model *)

Definition undefined_retriever : exn :=
  Error "TypeError: Cannot read properties of undefined (reading 'invoke')".

(** [retriever.invoke(query)]; [None] is the value [undefined]. *)
Definition retrieve (retriever : option Retriever) (query : string)
  : result (list Document) :=
  match retriever with
  | Some r => invoke r query
  | None => inl undefined_retriever
  end.

Definition retrieverInvoke (retriever : option Retriever) (query : string)
  : M World (list Document) :=
  match retriever with
  | Some r =>
      let* _ := log (Retrieve query) in
      liftR (invoke r query)
  | None => throw undefined_retriever
  end.

Definition callModel (modelName : string) (prompt : Prompt) : M World string :=
  let* _ := log (ModelCall modelName prompt) in
  liftR (chatModel svc modelName prompt).

(** *** The chain library

The combinators that [setupLlmAndDb] imports are not part of the
repository; they are written here after §4.4 and §6. *)

(** The value the conversational chain resolves to. *)
Record Response : Type := mkResponse {
  input : string;
  chat_history : list Message;
  context : list Document;
  answer : string
}.

(** Modelled from the spec: [createHistoryAwareRetriever] is missing from
    the sources.  §4.4 stage 1: the question is rewritten by the model
    into a standalone query when it depends on prior turns, and that
    query drives retrieval; with no prior turn the question is the
    query. *)
Definition createHistoryAwareRetriever
    (llm : string) (retriever : option Retriever)
    (input : string) (chat_history : list Message) : M World (list Document) :=
  match chat_history with
  | [] => retrieverInvoke retriever input
  | _ :: _ =>
      let* query := callModel llm (contextualizeQPrompt chat_history input) in
      retrieverInvoke retriever query
  end.

Definition missing_url : exn :=
  Error "Document prompt requires documents to have metadata variables: url".

(** Modelled from the spec: the filling in of a prompt template is missing
    from the sources.  §4.4 stage 2: a document is formatted as
    ['{pageContent}\nURL: {url}'], the template [setupLlmAndDb] passes; §3:
    a document handed to the answerer must have a [url], and one that has
    none cannot be formatted. *)
Definition documentPrompt (doc : Document) : result string :=
  match url doc with
  | Some u => inr (pageContent doc +:+ JsString.newline +:+ "URL: " +:+ u)
  | None => inl missing_url
  end.

(** Modelled from the spec: [createStuffDocuments] is missing from the
    sources.  §4.4 stage 2: each document is formatted with the
    document prompt, the results are concatenated into the context
    block, and the model is invoked with the system instruction, the
    history and the raw question; its text is the answer. *)
Definition createStuffDocuments
    (llm : string) (context : list Document)
    (input : string) (chat_history : list Message) : M World string :=
  let* _ := log (AnswerFrom context) in
  let* formatted := liftR (mapR documentPrompt context) in
  callModel llm
    (qaPrompt (JsString.join formatted (JsString.newline +:+ JsString.newline))
       chat_history input).

(** Modelled from the spec: [createRetrieval] is missing from the
    sources.  §4.4: retrieve with the history-aware retriever, then
    answer from what was retrieved. *)
Definition createRetrieval
    (retrieveDocuments : string -> list Message -> M World (list Document))
    (combineDocuments : list Document -> string -> list Message -> M World string)
    (input : string) (chat_history : list Message) : M World Response :=
  let* context := retrieveDocuments input chat_history in
  let* answer := combineDocuments context input chat_history in
  ret {| input := input; chat_history := chat_history;
         context := context; answer := answer |}.

(** Modelled from the spec: the class of the messages is missing from the
    sources.  §3: a message has a role, and the role of a question is that
    of a human-authored message, the one the loop of [getResponse] looks
    for. *)
Definition human (text : string) : Message := {| role := "human"; content := text |}.

(** Modelled from the spec: the class of the messages is missing from the
    sources.  §3: the role of an answer is that of a system-authored
    message. *)
Definition ai (text : string) : Message := {| role := "ai"; content := text |}.

(** a value that is not a history is used as one *)
Definition not_a_history : exn :=
  Error "TypeError: history.getMessages is not a function".

(** Modelled from the spec: [RunnableWithMessageHistory] is missing from
    the sources.  §4.4: the wrapped chain runs on the session's
    messages; when it has completed, the question and the answer are
    appended to the session, in that order; nothing is appended when it
    fails.  A value that is not a history has none of the methods of §6. *)
Definition RunnableWithMessageHistory
    (runnable : string -> list Message -> M World Response)
    (getMessageHistory : string -> M World SessionHistory)
    (input : string) (sessionId : string) : M World Response :=
  let* history := getMessageHistory sessionId in
  match history with
  | History id =>
      let* chat_history := sessionMessages id in
      let* response := runnable input chat_history in
      let* _ := addMessages id [human input; ai (answer response)] in
      ret response
  | InheritedProperty _ => throw not_a_history
  end.

(** *** [setupLlmAndDb] *)

(** [process.env.CHAT_MODEL || 'ChatOpenAI'] *)
Definition modelChoice : string :=
  match CHAT_MODEL svc with
  | Some choice => if JsString.truthy choice then choice else "ChatOpenAI"
  | None => "ChatOpenAI"
  end.

(** the model name that goes with the choice *)
Definition modelName : string :=
  if String.eqb modelChoice "ChatOpenAI" then "gpt-4o" else "claude-3-5-sonnet-20240620".

(** The conversational chain: [invoke({ input }, { configurable: { sessionId } })]. *)
Definition Chain : Type := string -> string -> M World Response.

(** The chat client is known by the name of its model.  Constructing it
    only reads the configuration, which is outside this model, and is taken
    not to throw. *)
Definition setupLlmAndDb (retriever : option Retriever) : M World Chain :=
  let chat := modelName in
  let* _ := modify (fun w =>
    {| chatHistoriesStore := chatHistoriesStore w;
       currentModel := Some modelName;
       trace := trace w |}) in
  let historyAwareRetriever := createHistoryAwareRetriever chat retriever in
  let questionAnswerChain := createStuffDocuments chat in
  let ragChain := createRetrieval historyAwareRetriever questionAnswerChain in
  let conversationalRagChain := RunnableWithMessageHistory ragChain getSessionHistory in
  ret conversationalRagChain.

(** *** [getResponse] *)

Definition getConfidenceScore (query document : string) : result float :=
  similarity query document.

(** The [for ... of] loop over the session's messages: [Some text] when
    the loop body returns [text], [None] when the loop runs to its end. *)
Fixpoint checkSimilarQuestions (userQuestion : string) (messages : list Message)
  : result (option string) :=
  match messages with
  | [] => inr None
  | message :: rest =>
      if String.eqb (role message) "human" then
        bindR (areQuestionsSimilar userQuestion (content message) duplicate_threshold)
          (fun similar =>
             if similar then inr (Some duplicate_message)
             else checkSimilarQuestions userQuestion rest)
      else checkSimilarQuestions userQuestion rest
  end.

Definition confidenceThreshold : float := 0.7%float.

(** The statements of [getResponse] from [setupLlmAndDb] on. *)
Definition answerQuestion (userQuestion : string) (retriever : option Retriever)
    (sessionId : string) : M World string :=
  let* conversationalRagChain := setupLlmAndDb retriever in
  let* response := conversationalRagChain userQuestion sessionId in
  ret (answer response).

(** The statements of [getResponse] after the loop.  The calls of
    [getConfidenceScore] are started one after the other, in the order of
    the documents, and are in flight together. *)
Definition retrieveAndAnswer (userQuestion : string) (retriever : option Retriever)
    (sessionId : string) : M World string :=
  let* retrievedDocs := retrieverInvoke retriever userQuestion in
  let* confidenceScores :=
    liftR (promiseAll (failsFirst svc)
             (map (fun doc => getConfidenceScore userQuestion (pageContent doc))
                  retrievedDocs)) in
  if Nat.eqb (length confidenceScores) 0 then ret empty_message
  else if PrimFloat.ltb (Math_max confidenceScores) confidenceThreshold
  then ret low_confidence_message
  else answerQuestion userQuestion retriever sessionId.

(** [sessionId] is [None] when the caller passes no third argument.  The
    loop runs through an array; given a promise, it throws before its first
    iteration. *)
Definition getResponse (userQuestion : string) (retriever : option Retriever)
    (sessionId : option string) : M World string :=
  let sessionId := default "default_session" sessionId in
  let* sessionHistory := getSessionHistory sessionId in
  let* iterated := getMessages sessionHistory in
  match iterated with
  | PromiseOf _ => throw not_iterable
  | ArrayOf messages =>
      let* found := liftR (checkSimilarQuestions userQuestion messages) in
      match found with
      | Some text => ret text
      | None => retrieveAndAnswer userQuestion retriever sessionId
      end
  end.

Definition getCurrentModel : M World (option string) := gets currentModel.

End Pipeline.

End LlmQuery.

(** ** [app.js]: start-up and the query handler *)

Module App.

(** What a socket is sent, and what is handed to the loggers. *)
Inductive Output : Type :=
| EmitAnswer (text : string)                       (** [socket.emit('answer', { text, index })] *)
| EmitError (message : string)                     (** [socket.emit('error', { message })] *)
| Logged (sessionId query answer : string) (modelName : option string).
    (** the arguments of [logToSlack] and [logToMongo] *)

Record State : Type := mkState {
  chroma : DbSingleton.State;                      (** the state of [db_singleton.js] *)
  llm : LlmQuery.World;                            (** the state of [llm_query.js] *)
  chromaInstance : option DbSingleton.ChromaDB;
  retriever : option Retriever;                    (** [undefined] until [initChroma] assigns it *)
  listening : bool;                                (** [server.listen] has been called *)
  outputs : list Output
}.

Definition initial : State :=
  {| chroma := DbSingleton.initial; llm := LlmQuery.initial;
     chromaInstance := None; retriever := None; listening := false; outputs := [] |}.

(** A computation of [db_singleton.js] run from [app.js]. *)
Definition inChroma {A : Type} (m : M DbSingleton.State A) : M State A :=
  fun s =>
    let '(r, c) := m (chroma s) in
    (r, {| chroma := c; llm := llm s; chromaInstance := chromaInstance s;
           retriever := retriever s; listening := listening s; outputs := outputs s |}).

(** A computation of [llm_query.js] run from [app.js]. *)
Definition inLlm {A : Type} (m : M LlmQuery.World A) : M State A :=
  fun s =>
    let '(r, w) := m (llm s) in
    (r, {| chroma := chroma s; llm := w; chromaInstance := chromaInstance s;
           retriever := retriever s; listening := listening s; outputs := outputs s |}).

Definition output (o : Output) : M State unit :=
  modify (fun s =>
    {| chroma := chroma s; llm := llm s; chromaInstance := chromaInstance s;
       retriever := retriever s; listening := listening s; outputs := outputs s ++ [o] |}).

Section Server.
  Variable fromExistingCollection : nat -> result DbSingleton.VectorStore.
  Variable svc : LlmQuery.Services.

(** [initChroma]: whatever [getInstance] throws is caught and printed. *)
Definition initChroma : M State unit :=
  try_catch
    (let* instance := inChroma (DbSingleton.getInstance fromExistingCollection) in
     modify (fun s =>
       {| chroma := chroma s; llm := llm s;
          chromaInstance := Some instance;
          retriever := DbSingleton.retriever instance;
          listening := listening s; outputs := outputs s |}))
    (fun error => ret tt).

(** [server.listen(PORT, '0.0.0.0', ...)] *)
Definition listen : M State unit :=
  modify (fun s =>
    {| chroma := chroma s; llm := llm s; chromaInstance := chromaInstance s;
       retriever := retriever s; listening := true; outputs := outputs s |}).

(** [startServer].  [connectToMongo] catches its own errors and touches
    only the conversation log's collection, which is not part of this
    state. *)
Definition startServer : M State unit :=
  let* _ := initChroma in
  listen.

(** The body of the ['query'] handler for a socket whose session id is
    [sessionId], once the request is accepted and [query] sanitized. *)
Definition onQuery (sessionId query : string) : M State unit :=
  try_catch
    (let* retriever := gets retriever in
     let* response := inLlm (LlmQuery.getResponse svc query retriever (Some sessionId)) in
     let* modelName := inLlm LlmQuery.getCurrentModel in
     let* _ := output (EmitAnswer response) in
     output (Logged sessionId query response modelName))
    (fun error => output (EmitError "An error occurred while processing your query.")).

End Server.

End App.

(** ** [db_singleton.js]: the connection check and the embedding cache *)

Module DbMaintenance.

Section Refresh.
  Variable fromExistingCollection : nat -> result DbSingleton.VectorStore.

(** [refreshConnection], called on the object [ChromaDB._instance] refers
    to.  [count] is what its [try] block yields: the number of documents
    [collection.count()] resolves to, or what [client.getCollection] or
    [collection.count] threw. *)
Definition refreshConnection (count : result nat) : M DbSingleton.State unit :=
  try_catch
    (let* _ := liftR count in ret tt)
    (fun e => DbSingleton._initialize fromExistingCollection).

End Refresh.

(** *** The embedding cache

The object [_embeddingCache] is used as a map from texts to embeddings.
A call runs to its end before the next one starts. *)

(** An embeddings client, by its [embedQuery] method. *)
Record EmbeddingModel : Type := mkEmbeddingModel {
  embedQuery : string -> result (list float)
}.

Inductive Event : Type :=
| Embedded (text : string)     (** [embeddingModel.embedQuery(text)] is called *)
| Cleared (cacheSize : nat).   (** the line [clearEmbeddingCache] prints *)

Record Cache : Type := mkCache {
  _embeddingCache : gmap string (list float);
  events : list Event
}.

Definition empty : Cache := {| _embeddingCache := ∅; events := [] |}.

Definition log (ev : Event) : M Cache unit :=
  modify (fun s => {| _embeddingCache := _embeddingCache s; events := events s ++ [ev] |}).

(** What [this._embeddingCache[text]] evaluates to when it is truthy. *)
Inductive Entry : Type :=
| Embedding (embedding : list float)
    (** the embedding stored under the text *)
| Inherited (name : string).
    (** the property of that name which the cache inherits from [Object.prototype] *)

Section Cached.
  (** [new OpenAIEmbeddings({ model: "text-embedding-3-small", ... })] *)
  Variable defaultModel : EmbeddingModel.

(** [embeddingModel] is [None] when the caller passes no second argument,
    or [null].  An embedding is an array, which is truthy: the test
    [!this._embeddingCache[text]] is true exactly of a text that has no
    entry and is not the name of an inherited property. *)
Definition getCachedEmbedding (text : string) (embeddingModel : option EmbeddingModel)
  : M Cache Entry :=
  let* cache := gets _embeddingCache in
  match cache !! text with
  | Some embedding => ret (Embedding embedding)
  | None =>
      if inherited text then ret (Inherited text)
      else
        let embeddingModel := default defaultModel embeddingModel in
        let* _ := log (Embedded text) in
        let* embedding := liftR (embedQuery embeddingModel text) in
        let* _ := modify (fun s =>
          {| _embeddingCache := <[text := embedding]> (_embeddingCache s);
             events := events s |}) in
        ret (Embedding embedding)
  end.

Definition clearEmbeddingCache : M Cache unit :=
  let* cacheSize := gets (fun s => size (_embeddingCache s)) in
  let* _ := modify (fun s => {| _embeddingCache := ∅; events := events s |}) in
  log (Cleared cacheSize).

End Cached.

End DbMaintenance.

(** ** [app.js]: the conversation log and its export *)

Module Conversations.

(** A document of the collection [conversations].  A field is [None] when
    the document has no such field, or has [null] there; a date is known
    by its time value, in milliseconds. *)
Record Conversation : Type := mkConversation {
  session_id : option string;
  query : option string;
  answer : option string;
  model : option string;
  timestamp : option Z
}.

Record State : Type := mkState {
  (** whether the variable [conversationCollection] has been assigned *)
  conversationCollection : bool;
  (** the documents of the collection in the database, oldest first *)
  conversations : list Conversation
}.

(** What a request is answered with. *)
Inductive Reply : Type :=
| Send (status : nat) (body : string)
    (** [res.status(status).send(body)] *)
| Csv (columns : list string) (records : list (list string)).
    (** the header and the records written to the CSV stream *)

(** [value || fallback] for a string that may be missing *)
Definition orElse (value : option string) (fallback : string) : string :=
  match value with
  | Some s => if JsString.truthy s then s else fallback
  | None => fallback
  end.

Definition columns : list string :=
  ["session_id"; "query"; "answer"; "model"; "timestamp"].

Section Log.
  (** [Date.prototype.toISOString], on time values *)
  Variable toISOString : Z -> string.
  (** [process.env.FILE_PASSWORD]; [None] when the variable is not set *)
  Variable FILE_PASSWORD : option string.

(** [connectToMongo].  [connected] is what [mongoClient.connect()] yields. *)
Definition connectToMongo (connected : result unit) : M State unit :=
  try_catch
    (let* _ := liftR connected in
     modify (fun s =>
       {| conversationCollection := true; conversations := conversations s |}))
    (fun error => ret tt).

(** [conversationCollection.insertOne(document)]: the document is added
    when the database acknowledges the write, [acknowledged] being what
    the database answers. *)
Definition insertOne (document : Conversation) (acknowledged : result unit)
  : M State unit :=
  let* _ := liftR acknowledged in
  modify (fun s =>
    {| conversationCollection := conversationCollection s;
       conversations := conversations s ++ [document] |}).

(** [conversationCollection.find({}).toArray()], [found] being what the
    database answers. *)
Definition find (found : result unit) : M State (list Conversation) :=
  let* _ := liftR found in
  gets conversations.

(** [logToMongo]; [now] is the time value of [new Date()]. *)
Definition logToMongo (sessionId question answer : string) (modelName : option string)
    (now : Z) (acknowledged : result unit) : M State unit :=
  let* collection := gets conversationCollection in
  if negb collection then ret tt
  else
    let conversationData :=
      {| session_id := Some sessionId;
         query := Some question;
         answer := Some answer;
         model := modelName;
         timestamp := Some now |} in
    try_catch (insertOne conversationData acknowledged) (fun error => ret tt).

(** The array written to the CSV stream for one conversation. *)
Definition record (conversation : Conversation) : list string :=
  [ orElse (session_id conversation) EmptyString;
    orElse (query conversation) EmptyString;
    orElse (answer conversation) EmptyString;
    orElse (model conversation) "gpt-4o";
    match timestamp conversation with
    | Some date => toISOString date
    | None => EmptyString
    end ].

(** The handler of [GET /export_conversations]; [password] is
    [req.query.password], [None] when the request has no such parameter. *)
Definition exportConversations (password : option string) (found : result unit)
  : M State Reply :=
  if negb (bool_decide (password = FILE_PASSWORD)) then ret (Send 403 "Forbidden")
  else
    let* collection := gets conversationCollection in
    if negb collection then ret (Send 500 "MongoDB not connected")
    else
      try_catch
        (let* conversations := find found in
         ret (Csv columns (map record conversations)))
        (fun error => ret (Send 500 "Error exporting conversations")).

End Log.

End Conversations.

(** ** [app.js]: the sockets

A handler runs until it returns or reaches an [await]; the handlers of
other events run in between.  The ['query'] handler is therefore in two
parts: [onQueryStart], up to the call of [getResponse], and
[onQueryFinish], from that call on, which runs once the answer is there.
The id of a socket is generated by the server, at random; socket ids are
taken to differ from the property names every object inherits.  Requests
that are in progress at the same time are taken to be answered one after
the other. *)

Module Sockets.

(** An entry of [sessions]. *)
Record Session : Type := mkSession {
  userSessionId : string;
  requestInProgress : bool
}.

(** What a socket is sent outside the [try] block of the ['query'] handler. *)
Inductive Emitted : Type :=
| SessionIdSent (user_session_id : string)  (** [socket.emit('session_id', { user_session_id })] *)
| ErrorSent (message : string)              (** [socket.emit('error', { message })] *)
| Disconnected.                             (** [socket.disconnect(true)] *)

Record State : Type := mkState {
  sessions : gmap string Session;          (** [sessions], by [socket.id] *)
  emitted : list (string * Emitted);       (** by [socket.id], in the order of the calls *)
  app : App.State
}.

Definition initial (app : App.State) : State :=
  {| sessions := ∅; emitted := []; app := app |}.

Definition please_wait : string := "Please wait for the current response.".

(** [sessions[socket.id]] is [undefined] and a property of it is read *)
Definition undefined_session : exn :=
  Error "TypeError: Cannot read properties of undefined (reading 'requestInProgress')".

(** [sessions[socket.id]] is [undefined] and a property of it is written *)
Definition undefined_session_write : exn :=
  Error "TypeError: Cannot set properties of undefined (setting 'requestInProgress')".

(** the event has no payload and [data.query] is read *)
Definition undefined_data : exn :=
  Error "TypeError: Cannot read properties of undefined (reading 'query')".

Definition emit (socketId : string) (message : Emitted) : M State unit :=
  modify (fun s =>
    {| sessions := sessions s; emitted := emitted s ++ [(socketId, message)]; app := app s |}).

(** A computation on the state of the rest of [app.js]. *)
Definition inApp {A : Type} (m : M App.State A) : M State A :=
  fun s =>
    let '(r, a) := m (app s) in
    (r, {| sessions := sessions s; emitted := emitted s; app := a |}).

(** [sessions[socket.id].requestInProgress = value], on an entry that exists *)
Definition setRequestInProgress (socketId : string) (session : Session) (value : bool)
  : M State unit :=
  modify (fun s =>
    {| sessions :=
         <[socketId := {| userSessionId := userSessionId session;
                          requestInProgress := value |}]> (sessions s);
       emitted := emitted s; app := app s |}).

(** [delete sessions[socket.id]] *)
Definition deleteSession (socketId : string) : M State unit :=
  modify (fun s =>
    {| sessions := delete socketId (sessions s); emitted := emitted s; app := app s |}).

Section Handlers.
  Variable svc : LlmQuery.Services.
  (** the sanitizer of the package [sanitize-html] *)
  Variable sanitizeHtml : string -> string.

(** The handler of ['connection'] up to the registration of the socket's
    own handlers.  [user_session_id] is the parameter of the handshake,
    [None] when it has none; [uuid] is what [uuidv4()] returns when it is
    called. *)
Definition onConnection (socketId : string) (user_session_id : option string)
    (uuid : string) : M State unit :=
  let userSessionId :=
    match user_session_id with
    | Some id => if JsString.truthy id then id else uuid
    | None => uuid
    end in
  let* _ := modify (fun s =>
    {| sessions :=
         <[socketId := {| userSessionId := userSessionId;
                          requestInProgress := false |}]> (sessions s);
       emitted := emitted s; app := app s |}) in
  emit socketId (SessionIdSent userSessionId).

(** The ['query'] handler up to its [try] block.  [data] is the payload of
    the event, by its [query] field, taken to be a string; [None] when
    the event has no payload.
    Returns the session id and the sanitized query when the request is
    accepted, [None] when it is refused. *)
Definition onQueryStart (socketId : string) (data : option string)
  : M State (option (string * string)) :=
  let* entry := gets (fun s => sessions s !! socketId) in
  match entry with
  | None => throw undefined_session
  | Some session =>
      if requestInProgress session then
        let* _ := emit socketId (ErrorSent please_wait) in
        ret None
      else
        let* _ := setRequestInProgress socketId session true in
        let sessionId := userSessionId session in
        match data with
        | None => throw undefined_data
        | Some query => ret (Some (sessionId, sanitizeHtml query))
        end
  end.

(** The ['query'] handler from its [try] block on: the [try] and the
    [catch] are [App.onQuery], then comes the [finally]. *)
Definition onQueryFinish (socketId : string) (request : string * string)
  : M State unit :=
  let* _ := inApp (App.onQuery svc (fst request) (snd request)) in
  let* entry := gets (fun s => sessions s !! socketId) in
  match entry with
  | None => throw undefined_session_write
  | Some session => setRequestInProgress socketId session false
  end.

(** The handler of ['disconnect']. *)
Definition onDisconnect (socketId : string) : M State unit :=
  deleteSession socketId.

(** The handler of ['clear_session']: [socket.disconnect(true)] closes the
    socket, which runs the handler of ['disconnect']. *)
Definition onClearSession (socketId : string) : M State unit :=
  let* _ := deleteSession socketId in
  let* _ := emit socketId Disconnected in
  onDisconnect socketId.

End Handlers.

End Sockets.

(** ** A small knowledge base

Concrete services on which the definitions above can be run: three
topics with orthogonal embeddings, one document per topic, and a chat
model that answers by quoting its context. *)

Module Scenario.

Import LlmQuery.

Definition widget_question : string := "How do I add a widget?".
Definition widget_question_again : string := "How can I add a widget?".
Definition follow_up_question : string := "How do I add one?".
Definition weather_question : string := "What is the weather?".

Definition widgets_text : string := "Widgets are added to an area.".
Definition pieces_text : string := "Piece types are added as modules.".

(** the page content of §8: a reference line between two lines of text *)
Definition reference_text : string :=
  "Some text" +:+ JsString.newline +:+
  "Reference URL: https://example.com/x" +:+ JsString.newline +:+
  "More text".

Definition widgets_doc : Document :=
  {| pageContent := widgets_text;
     metadata := MetaObject {[ "url" := "https://docs.apostrophecms.org/widgets" ]} |}.

Definition pieces_doc : Document :=
  {| pageContent := pieces_text;
     metadata := MetaObject {[ "url" := "https://docs.apostrophecms.org/pieces" ]} |}.

(** a document as the vector store holds it when its URL is in the text *)
Definition reference_doc : Document :=
  {| pageContent := reference_text; metadata := MetaObject ∅ |}.

Definition embed (text : string) : result (list float) :=
  if String.eqb text widget_question then inr [1; 0; 0]%float
  else if String.eqb text widget_question_again then inr [0.9; 0.1; 0]%float
  else if String.eqb text follow_up_question then inr [0; 1; 0]%float
  else if String.eqb text weather_question then inr [0; 0; 1]%float
  else if String.eqb text widgets_text then inr [1; 0.1; 0]%float
  else if String.eqb text pieces_text then inr [0.1; 1; 0]%float
  else if String.eqb text reference_text then inr [1; 0; 0.1]%float
  else inr [0; 0; 0]%float.

(** The rewriting resolves "one" to the widget of the previous turn. *)
Definition chat (modelName : string) (prompt : Prompt) : result string :=
  match prompt with
  | contextualizeQPrompt _ _ => inr widget_question
  | qaPrompt context _ _ => inr ("According to the documentation: " +:+ context)
  end.

(** a chat model that is down *)
Definition chat_down (modelName : string) (prompt : Prompt) : result string :=
  inl (Error "429 rate limit exceeded").

(** of the calls that fail together, the last one made fails first *)
Definition last_first (errors : list exn) : nat := length errors - 1.

Definition svc : Services :=
  {| embedQuery := embed; failsFirst := last_first; chatModel := chat; CHAT_MODEL := None |}.

Definition svc_down : Services :=
  {| embedQuery := embed; failsFirst := last_first; chatModel := chat_down;
     CHAT_MODEL := None |}.

(** an embeddings service that is down for the texts of the two documents,
    with an error of its own for each *)
Definition embed_flaky (text : string) : result (list float) :=
  if String.eqb text widgets_text then inl (Error "429 rate limit exceeded")
  else if String.eqb text pieces_text then inl (Error "503 service unavailable")
  else embed text.

Definition svc_flaky : Services :=
  {| embedQuery := embed_flaky; failsFirst := last_first; chatModel := chat;
     CHAT_MODEL := None |}.

(** nearest-neighbour search over the two documents *)
Definition retriever : Retriever :=
  {| invoke := fun query =>
       if String.eqb query widget_question then inr [widgets_doc]
       else if String.eqb query follow_up_question then inr [pieces_doc]
       else inr [widgets_doc; pieces_doc] |}.

(** a store with no document *)
Definition empty_retriever : Retriever := {| invoke := fun _ => inr [] |}.

(** a session in which the widget question has been asked and answered *)
Definition asked : World :=
  {| chatHistoriesStore :=
       {[ "s" := [human widget_question; ai "Use the area field."] ]};
     currentModel := Some "gpt-4o";
     trace := [] |}.

(** the same, asked by a caller that passed no session id *)
Definition asked_by_default : World :=
  {| chatHistoriesStore :=
       {[ "default_session" := [human widget_question; ai "Use the area field."] ]};
     currentModel := None;
     trace := [] |}.

(** a vector store that refuses every connection *)
Definition refused (n : nat) : result DbSingleton.VectorStore :=
  inl (Error "ECONNREFUSED").

(** a vector store that accepts the second connection *)
Definition second_time (n : nat) : result DbSingleton.VectorStore :=
  if Nat.eqb n 1 then inr {| DbSingleton.search := fun query _ => invoke retriever query |}
  else inl (Error "ECONNREFUSED").

End Scenario.

(** ** Further concrete data

Embeddings clients, a server with a connected socket, and a conversation
log, on which the definitions of the cache, of the sockets and of the log
can be run. *)

Module Examples.

(** the embeddings client of the small knowledge base *)
Definition small_model : DbMaintenance.EmbeddingModel :=
  {| DbMaintenance.embedQuery := Scenario.embed |}.

(** another client, whose vectors have two components *)
Definition other_model : DbMaintenance.EmbeddingModel :=
  {| DbMaintenance.embedQuery := fun _ => inr [0.5; 0.5]%float |}.

(** a third client, whose vectors are all the same unit vector *)
Definition unit_model : DbMaintenance.EmbeddingModel :=
  {| DbMaintenance.embedQuery := fun _ => inr [1; 0]%float |}.

(** a client whose service is down *)
Definition model_down : DbMaintenance.EmbeddingModel :=
  {| DbMaintenance.embedQuery := fun _ => inl (Error "503 service unavailable") |}.


(** the sanitizer, on texts that have no markup *)
Definition plain (text : string) : string := text.

(** the rendering of the time value 0 *)
Definition epoch (date : Z) : string := "1970-01-01T00:00:00.000Z".

(** a server that has started, on the vector store that accepts the second
    connection *)
Definition started : App.State :=
  snd (App.startServer Scenario.second_time App.initial).

(** one socket is connected, for the session ["s"] *)
Definition connected : Sockets.State :=
  {| Sockets.sessions :=
       {[ "socket-1" := {| Sockets.userSessionId := "s"; Sockets.requestInProgress := false |} ]};
     Sockets.emitted := [("socket-1", Sockets.SessionIdSent "s")];
     Sockets.app := started |}.

(** a database that holds one conversation, logged before the chat model was recorded *)
Definition logged : Conversations.State :=
  {| Conversations.conversationCollection := true;
     Conversations.conversations :=
       [ {| Conversations.session_id := Some "r"; Conversations.query := Some "Hello";
            Conversations.answer := Some "Hi"; Conversations.model := None;
            Conversations.timestamp := None |} ] |}.

(** the same database, to a server that could not connect to it *)
Definition unreachable : Conversations.State :=
  {| Conversations.conversationCollection := false;
     Conversations.conversations := Conversations.conversations logged |}.

End Examples.

(** * Notions used in the statements *)

Import SimilarityScorer LlmQuery.

(** ** Vectors *)

(** A vector of zero magnitude: every component is zero ([+0] or [-0] at
    binary64). *)
Definition zero_vector {num : Type} `{Arith num} (v : list num) : Prop :=
  Forall (fun x => num_is_zero x = true) v.

(** Exchanging the two vectors exchanges the two norms. *)
Definition swap {num : Type} (s : sums num) : sums num :=
  {| dotProduct := dotProduct s; normA := normB s; normB := normA s |}.

(** The invariant of the loop in exact arithmetic: the norms are sums of
    squares, and the Cauchy-Schwarz inequality holds of the partial sums. *)
Definition bounded (s : sums R) : Prop :=
  (0 <= normA s /\ 0 <= normB s /\ dotProduct s * dotProduct s <= normA s * normB s)%R.

(** ** Lines of text *)

(** A string with no line feed in it. *)
Fixpoint single_line (s : string) : bool :=
  match s with
  | EmptyString => true
  | String c s' => negb (Ascii.eqb c JsString.LF) && single_line s'
  end.

(** Lines paired with their indices, counted from [k]. *)
Definition indexedFrom (k : nat) (lines : list string) : list (string * nat) :=
  combine lines (seq k (length lines)).

(** ** The vector store *)

(** The one [ChromaDB] object once [_initialize] has succeeded on a store. *)
Definition ready (store : DbSingleton.VectorStore) : option DbSingleton.ChromaDB :=
  Some {| DbSingleton.db := Some store;
          DbSingleton.retriever := Some (DbSingleton.asRetriever store 6) |}.

(** ** Worlds *)

(** The world once the history of a session has been looked up: the session
    has an entry, empty if it had none, unless its id is the name of a
    property every object inherits. *)
Definition opened (sessionId : string) (w : World) : World :=
  snd (getSessionHistory sessionId w).

(** The world once an event has been recorded. *)
Definition after (ev : Event) (w : World) : World := snd (log ev w).

(** ** The duplicate guard *)

(** A prior human-authored message whose similarity to the question reaches
    the threshold. *)
Definition duplicates (svc : Services) (q : string) (m : Message) : Prop :=
  role m = "human" /\
  exists s, similarity svc q (content m) = inr s /\
            PrimFloat.leb duplicate_threshold s = true.

(** A message that does not stop the loop: it is not human-authored, or its
    similarity to the question is below the threshold. *)
Definition distinct (svc : Services) (q : string) (m : Message) : Prop :=
  role m = "human" ->
  exists s, similarity svc q (content m) = inr s /\
            PrimFloat.leb duplicate_threshold s = false.

(** ** The confidence gate and the answering stage *)

(** The confidence scores of retrieved documents, as [Promise.all] yields
    them. *)
Definition scoresOf (svc : Services) (q : string) (docs : list Document)
  : result (list float) :=
  promiseAll (failsFirst svc)
    (map (fun doc => getConfidenceScore svc q (pageContent doc)) docs).

(** The question is one that the duplicate guard and the confidence gate
    let through: the loop of the guard, run over the messages of the
    session, returns nothing, documents are retrieved for the question and
    scored, and the largest score is not below the threshold. *)
Definition reachesAnswering (svc : Services) (q : string) (r : option Retriever)
    (sid : string) (w : World) : Prop :=
  checkSimilarQuestions svc q (messagesOf sid w) = inr None /\
  exists docs scores,
    retrieve r q = inr docs /\ docs <> [] /\
    scoresOf svc q docs = inr scores /\
    PrimFloat.ltb (Math_max scores) confidenceThreshold = false.


(** ** Runs of requests *)

(** A call of [getResponse]: the question, the retriever, the session id. *)
Definition Request : Type := (string * option Retriever * option string)%type.

(** The world after a run of requests, served one after the other. *)
Fixpoint serve (svc : Services) (requests : list Request) (w : World) : World :=
  match requests with
  | [] => w
  | (q, r, sessionId) :: rest => serve svc rest (snd (getResponse svc q r sessionId w))
  end.

(** ** The vector-store adapter, continued *)

(** The one [ChromaDB] object before [_initialize] has succeeded. *)
Definition uninitialized : option DbSingleton.ChromaDB :=
  Some {| DbSingleton.db := None; DbSingleton.retriever := None |}.

(** ** The embedding cache *)

(** A call of [getCachedEmbedding]: the text, and the client if one is passed. *)
Definition Lookup : Type := (string * option DbMaintenance.EmbeddingModel)%type.

(** The cache after a run of calls, whatever each of them returned or threw. *)
Fixpoint lookups (defaultModel : DbMaintenance.EmbeddingModel) (requests : list Lookup)
    (s : DbMaintenance.Cache) : DbMaintenance.Cache :=
  match requests with
  | [] => s
  | (text, model) :: rest =>
      lookups defaultModel rest
        (snd (DbMaintenance.getCachedEmbedding defaultModel text model s))
  end.

(** The texts whose embedding was asked of a client, in the order of the calls. *)
Fixpoint embeddedTexts (evs : list DbMaintenance.Event) : list string :=
  match evs with
  | [] => []
  | DbMaintenance.Embedded text :: rest => text :: embeddedTexts rest
  | DbMaintenance.Cleared _ :: rest => embeddedTexts rest
  end.

(** A client that answers every text. *)
Definition reliable (model : DbMaintenance.EmbeddingModel) : Prop :=
  forall text, exists embedding, DbMaintenance.embedQuery model text = inr embedding.

(** The cache holds the texts that were embedded, each embedded once, and
    none of them is the name of a property every object inherits. *)
Definition embeddedOnce (s : DbMaintenance.Cache) : Prop :=
  NoDup (embeddedTexts (DbMaintenance.events s)) /\
  (forall text, text ∈ embeddedTexts (DbMaintenance.events s) <->
                is_Some (DbMaintenance._embeddingCache s !! text)) /\
  forall text, is_Some (DbMaintenance._embeddingCache s !! text) -> inherited text = false.

(** ** The conversation log *)

(** A call of [logToMongo]: its four arguments, the time of the call and
    what the database answers. *)
Definition LogCall : Type :=
  (string * string * string * option string * Z * result unit)%type.

(** The state after a run of calls of [logToMongo]. *)
Fixpoint logAll (calls : list LogCall) (s : Conversations.State) : Conversations.State :=
  match calls with
  | [] => s
  | (sessionId, question, answer, modelName, now, acknowledged) :: rest =>
      logAll rest
        (snd (Conversations.logToMongo sessionId question answer modelName now acknowledged s))
  end.

(** ** The sockets *)

(** A socket whose request is in progress. *)
Definition busy (session : Sockets.Session) : Sockets.Session :=
  {| Sockets.userSessionId := Sockets.userSessionId session;
     Sockets.requestInProgress := true |}.

(** The state once messages have been sent to a socket. *)
Definition sent (socketId : string) (messages : list Sockets.Emitted) (s : Sockets.State)
  : Sockets.State :=
  {| Sockets.sessions := Sockets.sessions s;
     Sockets.emitted := Sockets.emitted s ++ map (fun message => (socketId, message)) messages;
     Sockets.app := Sockets.app s |}.

(** A run of ['query'] events on a socket: what the first part of the
    handler returns or throws for each event that is handled, and the state
    after the last of them.  The handler is an [async] function, and
    nothing handles the rejection of the promise it returns: when it throws
    outside its [try] block the process ends, and the events that follow
    are not handled. *)
Fixpoint queryEvents (sanitizeHtml : string -> string) (socketId : string)
    (payloads : list (option string)) (s : Sockets.State)
  : list (result (option (string * string))) * Sockets.State :=
  match payloads with
  | [] => ([], s)
  | data :: rest =>
      match Sockets.onQueryStart sanitizeHtml socketId data s with
      | (inl e, s1) => ([inl e], s1)
      | (inr r, s1) =>
          let '(rs, s2) := queryEvents sanitizeHtml socketId rest s1 in
          (inr r :: rs, s2)
      end
  end.

(** ** Runs of queries *)

(** The state after a run of accepted queries, each given by its session id
    and its sanitized text, handled one after the other. *)
Fixpoint handleAll (svc : Services) (queries : list (string * string)) (s : App.State)
  : App.State :=
  match queries with
  | [] => s
  | (sessionId, query) :: rest => handleAll svc rest (snd (App.onQuery svc sessionId query s))
  end.

(** A server with no retriever on which no question has been answered. *)
Definition unanswering (s : App.State) : Prop :=
  App.retriever s = None /\
  (forall sessionId, messagesOf sessionId (App.llm s) = []) /\
  trace (App.llm s) = [] /\
  currentModel (App.llm s) = None.

(** * The similarity scorer *)

Section ScorerFacts.
  Context {num : Type} `{Arith num}.

Lemma cosineSimilarity_throws (a b : list num) (e : exn) :
  cosineSimilarity a b = inl e -> e = dimension_error /\ length a <> length b.
Proof.
  unfold cosineSimilarity.
  destruct (Nat.eqb (length a) (length b)) eqn:Hlen; simpl.
  - destruct (_ || _); discriminate.
  - intros [= <-]. split; [reflexivity|]. now apply Nat.eqb_neq.
Qed.

Lemma cosineSimilarity_mismatch (a b : list num) :
  length a <> length b -> cosineSimilarity a b = inl dimension_error.
Proof.
  intros Hne. unfold cosineSimilarity.
  apply Nat.eqb_neq in Hne. now rewrite Hne.
Qed.

Lemma cosineSimilarity_same_length (a b : list num) :
  length a = length b ->
  cosineSimilarity a b =
    let s := accumulate a b in
    if num_is_zero (normA s) || num_is_zero (normB s) then inr num_zero
    else inr (num_div (dotProduct s) (num_mul (num_sqrt (normA s)) (num_sqrt (normB s)))).
Proof.
  intros Hlen. unfold cosineSimilarity. rewrite Hlen, Nat.eqb_refl. reflexivity.
Qed.

  Hypothesis mul_comm : forall x y : num, num_mul x y = num_mul y x.

Lemma fold_step_swap (a b : list num) (s : sums num) :
  fold_left step (combine b a) (swap s) = swap (fold_left step (combine a b) s).
Proof.
  revert b s. induction a as [|x a IH]; intros [|y b] s; simpl; try reflexivity.
  rewrite <- IH. f_equal. unfold step, swap; simpl. now rewrite (mul_comm y x).
Qed.

Lemma accumulate_swap (a b : list num) : accumulate b a = swap (accumulate a b).
Proof. unfold accumulate. now rewrite <- fold_step_swap. Qed.

Lemma cosineSimilarity_sym_of_mul_comm (a b : list num) :
  cosineSimilarity a b = cosineSimilarity b a.
Proof.
  unfold cosineSimilarity. rewrite (Nat.eqb_sym (length b)).
  destruct (Nat.eqb (length a) (length b)); simpl; [|reflexivity].
  rewrite (accumulate_swap a b); simpl.
  rewrite (orb_comm (num_is_zero (normB _))).
  now rewrite (mul_comm (num_sqrt (normB _))).
Qed.

End ScorerFacts.

(** ** binary64 *)

Lemma SFmul_comm (prec emax : Z) (x y : spec_float) :
  SFmul prec emax x y = SFmul prec emax y x.
Proof.
  destruct x as [sx|sx| |sx mx ex], y as [sy|sy| |sy my ey]; simpl;
    rewrite ?(xorb_comm sx sy); try reflexivity.
  rewrite (Pos.mul_comm mx my), (Z.add_comm ex ey). reflexivity.
Qed.

Lemma float_mul_comm (x y : float) : PrimFloat.mul x y = PrimFloat.mul y x.
Proof.
  apply Prim2SF_inj. rewrite !mul_spec. apply SFmul_comm.
Qed.

Lemma float_is_zero_cases (x : float) :
  PrimFloat.eqb x 0%float = true -> x = PrimFloat.zero \/ x = PrimFloat.neg_zero.
Proof.
  intros Hx. rewrite FloatAxioms.eqb_spec in Hx.
  rewrite <- (SF2Prim_Prim2SF x).
  change (Prim2SF 0%float) with (S754_zero false) in Hx.
  destruct (Prim2SF x) as [[|]|[|]| |[|] m e]; cbn in Hx; try discriminate; auto.
Qed.

Lemma float_zero_square (x : float) :
  PrimFloat.eqb x 0%float = true -> PrimFloat.add 0%float (PrimFloat.mul x x) = 0%float.
Proof.
  intros Hx. destruct (float_is_zero_cases x Hx) as [-> | ->]; reflexivity.
Qed.

Lemma float_normA_zero (a b : list float) (s : sums float) :
  zero_vector a -> normA s = 0%float ->
  normA (fold_left step (combine a b) s) = 0%float.
Proof.
  intros Ha. revert b s. induction Ha as [|x a Hx Ha IH]; intros [|y b] s Hs; simpl; auto.
  apply IH. simpl. rewrite Hs. now apply float_zero_square.
Qed.

Lemma float_normB_zero (a b : list float) (s : sums float) :
  zero_vector b -> normB s = 0%float ->
  normB (fold_left step (combine a b) s) = 0%float.
Proof.
  intros Hb. revert a s. induction Hb as [|y b Hy Hb IH]; intros [|x a] s Hs; simpl; auto.
  apply IH. simpl. rewrite Hs. now apply float_zero_square.
Qed.

Lemma float_zero_vector (a b : list float) :
  length a = length b -> zero_vector a \/ zero_vector b ->
  cosineSimilarity a b = inr 0%float.
Proof.
  intros Hlen Hz. unfold cosineSimilarity. rewrite Hlen, Nat.eqb_refl. simpl.
  destruct Hz as [Ha | Hb].
  - unfold accumulate. rewrite float_normA_zero; [reflexivity | exact Ha | reflexivity].
  - unfold accumulate. rewrite (float_normB_zero a b); [|exact Hb | reflexivity].
    now rewrite orb_true_r.
Qed.

(** ** Exact arithmetic *)

Section RealFacts.
  #[local] Open Scope R_scope.

Lemma square_nonneg (x : R) : 0 <= x * x.
Proof. exact (Rle_0_sqr x). Qed.

(** [2dxy <= py^2 + qx^2] when [d^2 <= pq]: the step of the Cauchy-Schwarz
    inequality. *)
Lemma cross_term (d p q x y : R) :
  0 <= p -> 0 <= q -> d * d <= p * q ->
  2 * d * x * y <= p * (y * y) + q * (x * x).
Proof.
  intros Hp Hq Hd.
  destruct (Req_dec p 0) as [-> | Hp0].
  - assert (Hd0 : d = 0).
    { apply Rsqr_0_uniq. pose proof (square_nonneg d). unfold Rsqr. lra. }
    subst d. pose proof (square_nonneg x).
    assert (0 <= q * (x * x)) by now apply Rmult_le_pos.
    lra.
  - assert (Hpos : 0 < p) by lra.
    pose proof (square_nonneg (p * y - d * x)) as Hsq.
    assert (Hrest : 0 <= (p * q - d * d) * (x * x)).
    { apply Rmult_le_pos; [lra | apply square_nonneg]. }
    apply Rmult_le_reg_l with p; [exact Hpos|].
    replace (p * (p * (y * y) + q * (x * x)))
      with ((p * y - d * x) * (p * y - d * x) + (p * q - d * d) * (x * x)
            + p * (2 * d * x * y)) by ring.
    lra.
Qed.

Lemma step_bounded (s : sums R) (xy : R * R) : bounded s -> bounded (step s xy).
Proof.
  destruct s as [d p q], xy as [x y]. unfold bounded, step; simpl.
  intros (Hp & Hq & Hd).
  pose proof (square_nonneg x). pose proof (square_nonneg y).
  pose proof (cross_term d p q x y Hp Hq Hd).
  repeat split; lra.
Qed.

Lemma fold_bounded (l : list (R * R)) (s : sums R) :
  bounded s -> bounded (fold_left step l s).
Proof.
  revert s. induction l as [|xy l IH]; intros s Hs; simpl; auto using step_bounded.
Qed.

Lemma accumulate_bounded (a b : list R) : bounded (accumulate a b).
Proof. apply fold_bounded. unfold bounded; simpl. lra. Qed.

Lemma quotient_bounded (d p q : R) :
  0 < p -> 0 < q -> d * d <= p * q -> -1 <= d / (sqrt p * sqrt q) <= 1.
Proof.
  intros Hp Hq Hd.
  assert (Hsp : 0 < sqrt p) by now apply sqrt_lt_R0.
  assert (Hsq : 0 < sqrt q) by now apply sqrt_lt_R0.
  set (D := sqrt p * sqrt q).
  assert (HD : 0 < D) by now apply Rmult_lt_0_compat.
  assert (HDD : D * D = p * q).
  { unfold D. replace (sqrt p * sqrt q * (sqrt p * sqrt q))
      with ((sqrt p * sqrt p) * (sqrt q * sqrt q)) by ring.
    rewrite !sqrt_sqrt by lra. reflexivity. }
  assert (Habs : Rabs d <= D).
  { rewrite <- (Rabs_pos_eq D) by lra. apply Rsqr_le_abs_0. unfold Rsqr. lra. }
  pose proof (Rle_abs d) as Hup.
  pose proof (Rle_abs (- d)) as Hlow. rewrite Rabs_Ropp in Hlow.
  unfold Rdiv. split.
  - apply Rmult_le_reg_r with D; [exact HD|].
    rewrite Rmult_assoc, Rinv_l by lra. lra.
  - apply Rmult_le_reg_r with D; [exact HD|].
    rewrite Rmult_assoc, Rinv_l by lra. lra.
Qed.

Lemma real_is_zero (x : R) : num_is_zero x = true <-> x = 0.
Proof. simpl. destruct (Req_EM_T x 0); split; intros; auto; discriminate. Qed.

Lemma real_normA_zero (a b : list R) (s : sums R) :
  zero_vector a -> normA s = 0 -> normA (fold_left step (combine a b) s) = 0.
Proof.
  intros Ha. revert b s. induction Ha as [|x a Hx Ha IH]; intros [|y b] s Hs; simpl; auto.
  apply IH. simpl. apply real_is_zero in Hx. rewrite Hs, Hx. ring.
Qed.

Lemma real_normB_zero (a b : list R) (s : sums R) :
  zero_vector b -> normB s = 0 -> normB (fold_left step (combine a b) s) = 0.
Proof.
  intros Hb. revert a s. induction Hb as [|y b Hy Hb IH]; intros [|x a] s Hs; simpl; auto.
  apply IH. simpl. apply real_is_zero in Hy. rewrite Hs, Hy. ring.
Qed.

Lemma real_cosine (a b : list R) :
  length a = length b ->
  exists r, cosineSimilarity a b = inr r /\ -1 <= r <= 1 /\
            (zero_vector a \/ zero_vector b -> r = 0).
Proof.
  intros Hlen. rewrite cosineSimilarity_same_length by exact Hlen. cbv zeta.
  destruct (accumulate_bounded a b) as (Hp & Hq & Hd).
  destruct (num_is_zero (normA (accumulate a b))) eqn:HzA,
           (num_is_zero (normB (accumulate a b))) eqn:HzB; cbn [orb];
    try (exists 0; split; [reflexivity|]; split; [lra | reflexivity]).
  eexists. split; [reflexivity|].
  assert (HA : normA (accumulate a b) <> 0).
  { intros Hz. apply real_is_zero in Hz. congruence. }
  assert (HB : normB (accumulate a b) <> 0).
  { intros Hz. apply real_is_zero in Hz. congruence. }
  split.
  - apply quotient_bounded; lra.
  - intros [Ha | Hb]; exfalso.
    + apply HA. now apply real_normA_zero.
    + apply HB. now apply real_normB_zero.
Qed.

End RealFacts.

(** * Promises *)

Lemma rejections_values {B : Type} (values : list B) :
  rejections (map (@inr exn B) values) = [] /\
  fulfilled (map (@inr exn B) values) = values.
Proof.
  induction values as [|b values [IHr IHf]]; simpl; [auto|].
  split; [exact IHr | now f_equal].
Qed.

Lemma rejections_none {B : Type} (outcomes : list (result B)) :
  rejections outcomes = [] -> outcomes = map inr (fulfilled outcomes).
Proof.
  induction outcomes as [|[e|b] outcomes IH]; simpl; [reflexivity | discriminate |].
  intros Hnone. f_equal. now apply IH.
Qed.

(** [Promise.all] is fulfilled exactly when every promise is, with their
    values in the order of the promises. *)
Lemma promiseAll_fulfilled {B : Type} (earliest : list exn -> nat)
    (outcomes : list (result B)) (values : list B) :
  promiseAll earliest outcomes = inr values <-> outcomes = map inr values.
Proof.
  unfold promiseAll. split.
  - destruct (rejections outcomes) as [|e es] eqn:Hrej; [|discriminate].
    intros [= <-]. now apply rejections_none.
  - intros ->. destruct (rejections_values values) as [-> ->]. reflexivity.
Qed.

Lemma promiseAll_length {B : Type} (earliest : list exn -> nat)
    (outcomes : list (result B)) (values : list B) :
  promiseAll earliest outcomes = inr values -> length values = length outcomes.
Proof. intros Hall. apply promiseAll_fulfilled in Hall as ->. now rewrite length_map. Qed.

Lemma rejections_elem {B : Type} (outcomes : list (result B)) (e : exn) :
  In e (rejections outcomes) <-> In (inl e) outcomes.
Proof.
  unfold rejections. rewrite in_flat_map. split.
  - intros ([e'|b] & Hin & He); simpl in He; [|contradiction].
    destruct He as [<- | []]. exact Hin.
  - intros Hin. exists (inl e). split; [exact Hin | now left].
Qed.

(** What [Promise.all] is rejected with is the rejection of one of the
    promises. *)
Lemma promiseAll_rejected {B : Type} (earliest : list exn -> nat)
    (outcomes : list (result B)) (e : exn) :
  promiseAll earliest outcomes = inl e -> In (inl e) outcomes.
Proof.
  unfold promiseAll. intros Hall. apply rejections_elem.
  destruct (rejections outcomes) as [|e0 es]; [discriminate|].
  injection Hall as <-. generalize (earliest (e0 :: es)). intros n.
  destruct (Nat.lt_ge_cases n (length (e0 :: es))) as [Hlt | Hge].
  - exact (nth_In (e0 :: es) e0 Hlt).
  - change (In (nth n (e0 :: es) e0) (e0 :: es)).
    rewrite nth_overflow by exact Hge. now left.
Qed.

(** * The session store *)

Lemma getSessionHistory_history (sessionId : string) (w : World) :
  inherited sessionId = false \/ is_Some (chatHistoriesStore w !! sessionId) ->
  getSessionHistory sessionId w = (inr (History sessionId), opened sessionId w).
Proof.
  intros Hid. unfold opened, getSessionHistory, bind, gets, modify, ret.
  destruct (chatHistoriesStore w !! sessionId) eqn:Hs; [reflexivity|].
  destruct Hid as [-> | [? [=]]]. reflexivity.
Qed.

Lemma getSessionHistory_inherited (sessionId : string) (w : World) :
  inherited sessionId = true -> chatHistoriesStore w !! sessionId = None ->
  getSessionHistory sessionId w = (inr (InheritedProperty sessionId), w).
Proof.
  intros Hid Hs. unfold getSessionHistory, bind, gets, ret. now rewrite Hs, Hid.
Qed.

Lemma opened_messages (sessionId other : string) (w : World) :
  messagesOf other (opened sessionId w) = messagesOf other w.
Proof.
  unfold opened, getSessionHistory, bind, gets, modify, ret, messagesOf.
  destruct (chatHistoriesStore w !! sessionId) eqn:Hs; simpl; [reflexivity|].
  destruct (inherited sessionId); simpl; [reflexivity|].
  destruct (decide (sessionId = other)) as [<- | Hne].
  - now rewrite lookup_insert_eq, Hs.
  - now rewrite lookup_insert_ne.
Qed.

Lemma opened_trace (sessionId : string) (w : World) :
  trace (opened sessionId w) = trace w.
Proof.
  unfold opened, getSessionHistory, bind, gets, modify, ret.
  destruct (chatHistoriesStore w !! sessionId); [reflexivity|].
  destruct (inherited sessionId); reflexivity.
Qed.

Lemma opened_model (sessionId : string) (w : World) :
  currentModel (opened sessionId w) = currentModel w.
Proof.
  unfold opened, getSessionHistory, bind, gets, modify, ret.
  destruct (chatHistoriesStore w !! sessionId); [reflexivity|].
  destruct (inherited sessionId); reflexivity.
Qed.

(** Once a session has been looked up, looking it up again changes nothing. *)
Lemma opened_twice (sessionId : string) (w : World) :
  opened sessionId (opened sessionId w) = opened sessionId w.
Proof.
  unfold opened, getSessionHistory, bind, gets, modify, ret.
  destruct (chatHistoriesStore w !! sessionId) eqn:Hs; simpl.
  - now rewrite Hs.
  - destruct (inherited sessionId) eqn:Hid; simpl.
    + rewrite Hs. reflexivity.
    + now rewrite lookup_insert_eq.
Qed.

(** A session that has a history is as it was once it has been looked
    up. *)
Lemma opened_history (sessionId : string) (w : World) :
  is_Some (chatHistoriesStore w !! sessionId) -> opened sessionId w = w.
Proof.
  intros [messages Hs]. unfold opened, getSessionHistory, bind, gets, ret. now rewrite Hs.
Qed.

Lemma opened_inherited (sessionId : string) (w : World) :
  inherited sessionId = true -> chatHistoriesStore w !! sessionId = None ->
  opened sessionId w = w.
Proof.
  intros Hid Hs. unfold opened, getSessionHistory, bind, gets, ret. now rewrite Hs, Hid.
Qed.

(** * The duplicate guard and the confidence gate *)

Section PipelineFacts.
  Variable svc : Services.

Lemma areQuestionsSimilar_similarity (q text : string) (threshold : float) :
  areQuestionsSimilar svc q text threshold =
    bindR (similarity svc q text) (fun s => inr (PrimFloat.leb threshold s)).
Proof. reflexivity. Qed.

Lemma check_none (q : string) (messages : list Message) :
  checkSimilarQuestions svc q messages = inr None <-> Forall (distinct svc q) messages.
Proof.
  induction messages as [|m rest IH]; simpl.
  - split; [constructor | reflexivity].
  - destruct (String.eqb (role m) "human") eqn:Hrole.
    + apply String.eqb_eq in Hrole. rewrite areQuestionsSimilar_similarity.
      destruct (similarity svc q (content m)) as [e|s] eqn:Hs; simpl.
      * split; [discriminate|]. intros Hall. inversion Hall as [|? ? Hd _]; subst.
        destruct (Hd Hrole) as (s & Hs' & _). congruence.
      * destruct (PrimFloat.leb duplicate_threshold s) eqn:Hle.
        -- split; [discriminate|]. intros Hall. inversion Hall as [|? ? Hd _]; subst.
           destruct (Hd Hrole) as (s' & Hs' & Hle'). congruence.
        -- rewrite IH. split.
           ++ intros Hall. constructor; [|exact Hall]. intros _. eauto.
           ++ intros Hall. now inversion Hall.
    + apply String.eqb_neq in Hrole. rewrite IH. split.
      * intros Hall. constructor; [|exact Hall]. intros Hr. contradiction.
      * intros Hall. now inversion Hall.
Qed.

(** [getResponse] gets no further than the head of its loop: the session is
    looked up, and the loop throws. *)
Lemma getResponse_run (q : string) (r : option Retriever) (sessionId : option string)
    (w : World) :
  let sid := default "default_session" sessionId in
  getResponse svc q r sessionId w = (inl not_iterable, opened sid w).
Proof.
  intros sid. unfold getResponse. fold sid.
  unfold opened, getSessionHistory, getMessages, bind, gets, modify, ret, throw.
  destruct (chatHistoriesStore w !! sid) eqn:Hs; [reflexivity|].
  destruct (inherited sid); reflexivity.
Qed.

(** The statements of [getResponse] after the loop, one by one. *)
Lemma retrieveAndAnswer_run (q : string) (rt : Retriever) (sid : string) (w : World) :
  retrieveAndAnswer svc q (Some rt) sid w =
    let w' := after (Retrieve q) w in
    match invoke rt q with
    | inl e => (inl e, w')
    | inr docs =>
        match scoresOf svc q docs with
        | inl e => (inl e, w')
        | inr scores =>
            if Nat.eqb (length scores) 0 then (inr empty_message, w')
            else if PrimFloat.ltb (Math_max scores) confidenceThreshold
                 then (inr low_confidence_message, w')
                 else answerQuestion svc q (Some rt) sid w'
        end
    end.
Proof.
  unfold retrieveAndAnswer, retrieverInvoke, bind, liftR, after, log, modify, scoresOf; simpl.
  destruct (invoke rt q) as [e|docs]; [reflexivity|].
  destruct (promiseAll _ _) as [e|scores]; [reflexivity|].
  destruct (Nat.eqb (length scores) 0); [reflexivity|].
  destruct (PrimFloat.ltb _ _); reflexivity.
Qed.

Lemma retrieveAndAnswer_undefined (q : string) (sid : string) (w : World) :
  retrieveAndAnswer svc q None sid w = (inl undefined_retriever, w).
Proof. reflexivity. Qed.

Lemma scores_length (q : string) (docs : list Document) (scores : list float) :
  scoresOf svc q docs = inr scores -> length scores = length docs.
Proof.
  intros Hscores. unfold scoresOf in Hscores.
  apply promiseAll_length in Hscores. now rewrite length_map in Hscores.
Qed.

Lemma scores_nonempty (q : string) (docs : list Document) (scores : list float) :
  docs <> [] -> scoresOf svc q docs = inr scores -> Nat.eqb (length scores) 0 = false.
Proof.
  intros Hne Hscores. apply Nat.eqb_neq. rewrite (scores_length _ _ _ Hscores).
  destruct docs; [contradiction | discriminate].
Qed.

(** A call of [getResponse] leaves the messages of every session, the
    current model and the trace as they are. *)
Lemma getResponse_keeps (q : string) (r : option Retriever) (sessionId : option string)
    (w : World) :
  let w' := snd (getResponse svc q r sessionId w) in
  (forall s, messagesOf s w' = messagesOf s w) /\
  currentModel w' = currentModel w /\ trace w' = trace w.
Proof.
  cbv zeta. rewrite getResponse_run. cbn [snd]. split; [|split].
  - intros s. apply opened_messages.
  - apply opened_model.
  - apply opened_trace.
Qed.

Lemma serve_keeps (requests : list Request) (w : World) :
  (forall s, messagesOf s (serve svc requests w) = messagesOf s w) /\
  currentModel (serve svc requests w) = currentModel w /\
  trace (serve svc requests w) = trace w.
Proof.
  revert w. induction requests as [|[[q r] sessionId] rest IH]; intros w; simpl.
  - auto.
  - destruct (IH (snd (getResponse svc q r sessionId w))) as (Hm & Hc & Ht).
    destruct (getResponse_keeps q r sessionId w) as (Hm' & Hc' & Ht').
    split; [|split]; [intros s; rewrite Hm; apply Hm' | congruence | congruence].
Qed.

End PipelineFacts.

(** * The vector-store adapter *)

(** ** Initialization *)

Section InitFacts.
  Variable connectN : nat -> result DbSingleton.VectorStore.

(** [_initialize], by the outcomes of the attempts it makes. *)
Lemma initialize_run (s : DbSingleton.State) :
  let n := DbSingleton.attempts s in
  DbSingleton._initialize connectN s =
    match connectN n with
    | inr store =>
        (inr tt,
         {| DbSingleton._instance := ready store;
            DbSingleton.attempts := n + 1;
            DbSingleton.events := DbSingleton.events s ++ [DbSingleton.Attempt n] |})
    | inl _ =>
        match connectN (n + 1) with
        | inr store =>
            (inr tt,
             {| DbSingleton._instance := ready store;
                DbSingleton.attempts := n + 2;
                DbSingleton.events :=
                  DbSingleton.events s ++
                    [DbSingleton.Attempt n; DbSingleton.Wait 2000;
                     DbSingleton.Attempt (n + 1)] |})
        | inl _ =>
            match connectN (n + 2) with
            | inr store =>
                (inr tt,
                 {| DbSingleton._instance := ready store;
                    DbSingleton.attempts := n + 3;
                    DbSingleton.events :=
                      DbSingleton.events s ++
                        [DbSingleton.Attempt n; DbSingleton.Wait 2000;
                         DbSingleton.Attempt (n + 1); DbSingleton.Wait 2000;
                         DbSingleton.Attempt (n + 2)] |})
            | inl e =>
                (inl e,
                 {| DbSingleton._instance := DbSingleton._instance s;
                    DbSingleton.attempts := n + 3;
                    DbSingleton.events :=
                      DbSingleton.events s ++
                        [DbSingleton.Attempt n; DbSingleton.Wait 2000;
                         DbSingleton.Attempt (n + 1); DbSingleton.Wait 2000;
                         DbSingleton.Attempt (n + 2)] |})
            end
        end
    end.
Proof.
  destruct s as [inst n evs]. simpl.
  unfold DbSingleton._initialize. simpl.
  unfold bind, attempt, DbSingleton.connect, DbSingleton.setFields, modify, ret,
    DbSingleton.log, throw, ready; simpl.
  replace (n + 1) with (S n) by lia. replace (n + 2) with (S (S n)) by lia.
  replace (n + 3) with (S (S (S n))) by lia.
  destruct (connectN n) as [e0|st0]; simpl; [|reflexivity].
  destruct (connectN (S n)) as [e1|st1]; simpl; [|now rewrite <- !app_assoc].
  destruct (connectN (S (S n))) as [e2|st2]; simpl; now rewrite <- !app_assoc.
Qed.

(** The server starts although no attempt succeeded. *)
Lemma startServer_all_fail :
  (forall n, n < 3 -> exists e, connectN n = inl e) ->
  exists s',
    App.startServer connectN App.initial = (inr tt, s') /\
    App.listening s' = true /\
    App.retriever s' = None /\
    App.chromaInstance s' = None /\
    DbSingleton.events (App.chroma s') =
      [DbSingleton.Attempt 0; DbSingleton.Wait 2000; DbSingleton.Attempt 1;
       DbSingleton.Wait 2000; DbSingleton.Attempt 2].
Proof.
  intros Hfail.
  destruct (Hfail 0) as [e0 H0]; [lia|].
  destruct (Hfail 1) as [e1 H1]; [lia|].
  destruct (Hfail 2) as [e2 H2]; [lia|].
  eexists. unfold App.startServer, App.initChroma, App.listen, try_catch, bind, modify,
    App.inChroma, DbSingleton.getInstance, bind, gets, modify, ret; simpl.
  rewrite initialize_run; simpl. rewrite H0, H1, H2; simpl.
  repeat split.
Qed.

End InitFacts.

(** ** The query handler *)

Section AppFacts.
  Variable svc : Services.

(** The handler of an accepted query: [getResponse] throws, and the [catch]
    block sends the error notification. *)
Lemma onQuery_run (sid q : string) (s : App.State) :
  App.onQuery svc sid q s =
    (inr tt,
     {| App.chroma := App.chroma s;
        App.llm := opened sid (App.llm s);
        App.chromaInstance := App.chromaInstance s;
        App.retriever := App.retriever s;
        App.listening := App.listening s;
        App.outputs :=
          App.outputs s ++ [App.EmitError "An error occurred while processing your query."] |}).
Proof.
  unfold App.onQuery, try_catch, bind, gets, App.inLlm, App.output, modify.
  rewrite getResponse_run. reflexivity.
Qed.

End AppFacts.

(** ** [fixDocumentMetadata] *)

Lemma truthy_nonempty (s : string) : JsString.truthy s = true <-> s <> EmptyString.
Proof.
  unfold JsString.truthy. rewrite negb_true_iff. split.
  - intros H ->. discriminate.
  - intros H. now apply String.eqb_neq.
Qed.

Lemma has_url_spec (fields : gmap string string) :
  has_url fields = true <-> exists u, fields !! "url" = Some u /\ u <> EmptyString.
Proof.
  unfold has_url. destruct (fields !! "url") as [u|].
  - rewrite truthy_nonempty. split; [eauto|]. now intros (u' & [= <-] & Hu).
  - split; [discriminate|]. now intros (u & [=] & _).
Qed.

Lemma fixDocument_url (doc : Document) :
  exists u, url (DbSingleton.fixDocument doc) = Some u /\ u <> EmptyString.
Proof.
  unfold DbSingleton.fixDocument.
  match goal with |- context [let '(f, c) := ?p in _] => destruct p as [fields content] end.
  unfold url; simpl.
  destruct (has_url fields) eqn:Hurl; simpl.
  - now apply has_url_spec.
  - exists DbSingleton.default_url. split; [apply lookup_insert_eq | discriminate].
Qed.

(** A document that already has a non-empty [url] keeps its content and its
    fields. *)
Lemma fixDocument_keeps (content : string) (fields : gmap string string) :
  has_url fields = true ->
  DbSingleton.fixDocument {| pageContent := content; metadata := MetaObject fields |}
    = {| pageContent := content; metadata := MetaObject fields |}.
Proof.
  intros Hurl. unfold DbSingleton.fixDocument. cbn [pageContent metadata].
  rewrite Hurl. cbn [negb andb]. rewrite Hurl. reflexivity.
Qed.

(** ** Strings *)

Lemma prefix_append (p s : string) : String.prefix p (p +:+ s) = true.
Proof.
  induction p as [|c p IH]; simpl.
  - now destruct s.
  - destruct (Ascii.ascii_dec c c); [exact IH | contradiction].
Qed.

Lemma prefix_weaken (p s t : string) :
  String.prefix p s = true -> String.prefix p (s +:+ t) = true.
Proof.
  revert s. induction p as [|c p IH]; intros s; simpl.
  - intros _. now destruct (s +:+ t).
  - destruct s as [|d s]; simpl; [discriminate|].
    destruct (Ascii.ascii_dec c d); [apply IH | discriminate].
Qed.

Lemma drop_append (p s : string) : JsString.drop (String.length p) (p +:+ s) = s.
Proof. induction p as [|c p IH]; simpl; [now destruct s | exact IH]. Qed.

Lemma replace_at_start (s p rep : string) :
  String.prefix p s = true ->
  JsString.replace s p rep = rep +:+ JsString.drop (String.length p) s.
Proof. intros Hp. destruct s; cbn [JsString.replace]; now rewrite Hp. Qed.

Lemma replace_prefix (p s : string) : JsString.replace (p +:+ s) p EmptyString = s.
Proof. rewrite replace_at_start by apply prefix_append. apply drop_append. Qed.

Lemma includes_prefix (s p : string) : String.prefix p s = true -> JsString.includes s p = true.
Proof. intros Hp. destruct s; cbn [JsString.includes]; rewrite Hp; reflexivity. Qed.

Lemma includes_append_l (s t p : string) :
  JsString.includes s p = true -> JsString.includes (s +:+ t) p = true.
Proof.
  induction s as [|c s IH]; simpl.
  - rewrite orb_false_r. intros Hp. apply includes_prefix.
    now apply (prefix_weaken p EmptyString t).
  - intros H. apply orb_true_iff in H as [Hp | Hin].
    + apply (prefix_weaken p (String c s) t) in Hp. simpl in Hp. now rewrite Hp.
    + rewrite (IH Hin). apply orb_true_r.
Qed.

Lemma includes_append_r (s t p : string) :
  JsString.includes t p = true -> JsString.includes (s +:+ t) p = true.
Proof.
  intros Ht. induction s as [|c s IH]; simpl; [exact Ht|].
  rewrite IH. apply orb_true_r.
Qed.

Lemma split_single_line (l : string) :
  single_line l = true -> JsString.split l JsString.LF = [l].
Proof.
  induction l as [|c l IH]; simpl; [reflexivity|].
  intros H. apply andb_true_iff in H as [Hc Hl]. apply negb_true_iff in Hc.
  now rewrite Hc, (IH Hl).
Qed.

Lemma split_line_feed (l s : string) :
  single_line l = true ->
  JsString.split (l +:+ JsString.newline +:+ s) JsString.LF = l :: JsString.split s JsString.LF.
Proof.
  induction l as [|c l IH]; simpl.
  - intros _. reflexivity.
  - intros H. apply andb_true_iff in H as [Hc Hl]. apply negb_true_iff in Hc.
    rewrite Hc. simpl in IH. now rewrite (IH Hl).
Qed.

Lemma split_join (lines : list string) :
  lines <> [] -> Forall (fun l => single_line l = true) lines ->
  JsString.split (JsString.join lines JsString.newline) JsString.LF = lines.
Proof.
  intros Hne Hall. induction Hall as [|l lines Hl Hall IH]; [contradiction|].
  unfold JsString.join in *. destruct lines as [|l' lines]; simpl.
  - now apply split_single_line.
  - rewrite split_line_feed by exact Hl. f_equal. apply IH. discriminate.
Qed.

Lemma includes_join (lines : list string) (l p : string) :
  l ∈ lines -> JsString.includes l p = true ->
  JsString.includes (JsString.join lines JsString.newline) p = true.
Proof.
  intros Hin Hl. unfold JsString.join.
  induction lines as [|l' lines IH]; [inversion Hin|].
  destruct lines as [|l'' lines]; simpl.
  - apply list_elem_of_singleton in Hin as ->. exact Hl.
  - apply elem_of_cons in Hin as [-> | Hin].
    + now apply includes_append_l.
    + apply includes_append_r, includes_append_r. now apply IH.
Qed.

(** ** Lines and their indices *)

Lemma indexedFrom_cons (k : nat) (l : string) (lines : list string) :
  indexedFrom k (l :: lines) = (l, k) :: indexedFrom (S k) lines.
Proof. reflexivity. Qed.

Lemma first_marked_from (k : nat) (before after : list string) (line : string) :
  Forall (fun l => JsString.includes l DbSingleton.marker = false) before ->
  JsString.includes line DbSingleton.marker = true ->
  exists others,
    map snd (List.filter (fun item => JsString.includes (fst item) DbSingleton.marker)
               (indexedFrom k (before ++ line :: after)))
    = (k + length before) :: others.
Proof.
  intros Hbefore Hline. revert k.
  induction Hbefore as [|l before Hl Hbefore IH]; intros k; simpl app.
  - rewrite indexedFrom_cons. simpl. rewrite Hline. simpl.
    rewrite Nat.add_0_r. eauto.
  - rewrite indexedFrom_cons. simpl. rewrite Hl.
    destruct (IH (S k)) as [others Hothers]. exists others.
    rewrite Hothers. f_equal. lia.
Qed.

Lemma keep_later (k target : nat) (lines : list string) :
  target < k ->
  map fst (List.filter (fun item => negb (Nat.eqb (snd item) target)) (indexedFrom k lines))
  = lines.
Proof.
  revert k. induction lines as [|l lines IH]; intros k Hlt; [reflexivity|].
  rewrite indexedFrom_cons. simpl.
  destruct (Nat.eqb k target) eqn:Heq; [apply Nat.eqb_eq in Heq; lia|].
  simpl. f_equal. apply IH. lia.
Qed.

Lemma without_from (k : nat) (before after : list string) (line : string) :
  map fst (List.filter (fun item => negb (Nat.eqb (snd item) (k + length before)))
             (indexedFrom k (before ++ line :: after)))
  = before ++ after.
Proof.
  revert k. induction before as [|l before IH]; intros k; simpl app.
  - rewrite indexedFrom_cons. simpl. rewrite Nat.add_0_r, Nat.eqb_refl. simpl.
    apply keep_later. lia.
  - rewrite indexedFrom_cons. simpl.
    destruct (Nat.eqb k (k + S (length before))) eqn:Heq; [apply Nat.eqb_eq in Heq; lia|].
    simpl. f_equal. replace (k + S (length before)) with (S k + length before) by lia.
    apply IH.
Qed.

(** ** The extraction of the reference line *)

Lemma fixDocument_extracts (before after : list string) (rest : string)
    (fields : gmap string string) :
  has_url fields = false ->
  Forall (fun l => JsString.includes l DbSingleton.marker = false) before ->
  Forall (fun l => single_line l = true) (before ++ (DbSingleton.marker +:+ rest) :: after) ->
  DbSingleton.fixDocument
    {| pageContent := JsString.join (before ++ (DbSingleton.marker +:+ rest) :: after) JsString.newline;
       metadata := MetaObject fields |}
  = {| pageContent := JsString.join (before ++ after) JsString.newline;
       metadata :=
         MetaObject
           (<["url" := if JsString.truthy (JsString.trim rest)
                       then JsString.trim rest else DbSingleton.default_url]> fields) |}.
Proof.
  intros Hurl Hbefore Hlines.
  set (line := DbSingleton.marker +:+ rest). fold line in Hlines.
  set (lines := before ++ line :: after) in *.
  assert (Hline : JsString.includes line DbSingleton.marker = true).
  { apply includes_prefix, prefix_append. }
  assert (Hcontent : JsString.includes (JsString.join lines JsString.newline) DbSingleton.marker = true).
  { apply (includes_join lines line); [|exact Hline].
    apply elem_of_app. right. constructor. }
  assert (Htruthy : JsString.truthy (JsString.join lines JsString.newline) = true).
  { unfold JsString.truthy. destruct (JsString.join lines JsString.newline); [discriminate|].
    reflexivity. }
  unfold DbSingleton.fixDocument. cbn [pageContent metadata].
  rewrite Hurl, Htruthy, Hcontent. cbn [negb andb].
  rewrite split_join by (try exact Hlines; subst lines; now destruct before).
  destruct (first_marked_from 0 before after line Hbefore Hline) as [others Hindices].
  unfold DbSingleton.urlLineIndices, DbSingleton.withoutLine, DbSingleton.indexed. subst lines.
  change (combine (before ++ line :: after) (seq 0 (length (before ++ line :: after))))
    with (indexedFrom 0 (before ++ line :: after)).
  rewrite Hindices. cbn [Nat.add].
  pose proof (without_from 0 before after line) as Hwithout.
  cbn [Nat.add] in Hwithout. rewrite Hwithout.
  rewrite app_nth2 by lia. rewrite Nat.sub_diag. cbn [nth].
  subst line. rewrite !replace_prefix.
  unfold has_url. rewrite lookup_insert_eq.
  destruct (JsString.truthy (JsString.trim rest)) eqn:Hrest; cbn [negb].
  - reflexivity.
  - now rewrite insert_insert_eq.
Qed.

(** * The small knowledge base *)

(** Closes a goal that the definitions decide by evaluation. *)
Ltac evaluated := vm_compute; reflexivity.

(** Shows that a question is one the guard and the gate let through, from
    the documents retrieved for it and their scores. *)
Ltac reaches_answering docs scores :=
  split; [reflexivity|]; exists docs, scores; repeat split; try discriminate; evaluated.

(** * The properties of the specification *)

(** C1. [getResponse] does not compare the question with the prior messages
    of the session: [getMessages()] is called without [await], the loop is
    given a promise and throws before its first iteration.  In a session
    whose history holds a human-authored message whose similarity to the
    question is at least 0.85, the call does not return the
    duplicate-advisory message but throws, and the world is as it was.  So
    does a call that follows an earlier call for the same session,
    whatever was asked then: the earlier call has left no message in the
    history. *)
Theorem duplicate_guard_never_runs
    (svc : Services) (userQuestion : string) (retriever : option Retriever)
    (sessionId : option string) (w : World) :
  let sid := default "default_session" sessionId in
  (Exists (duplicates svc userQuestion) (messagesOf sid w) ->
   getResponse svc userQuestion retriever sessionId w = (inl not_iterable, w)) /\
  (forall earlier,
     let w1 := snd (getResponse svc earlier retriever sessionId w) in
     messagesOf sid w1 = messagesOf sid w /\
     getResponse svc userQuestion retriever sessionId w1 = (inl not_iterable, w1)).
Proof.
  intros sid. split.
  - intros Hdup. rewrite getResponse_run. fold sid.
    rewrite opened_history; [reflexivity|].
    unfold messagesOf in Hdup.
    destruct (chatHistoriesStore w !! sid); [eauto | inversion Hdup].
  - intros earlier w1. subst w1. rewrite !getResponse_run. fold sid. cbn [snd].
    split; [apply opened_messages|]. now rewrite opened_twice.
Qed.

(** C1 at the failing inputs: the widget question asked again in other
    words, in a session where it has been asked, and in a new session after
    a call that asked it. *)
Lemma duplicate_guard_never_runs_witness :
  getResponse Scenario.svc Scenario.widget_question_again (Some Scenario.retriever)
    (Some "s") Scenario.asked = (inl not_iterable, Scenario.asked) /\
  (let w1 := snd (getResponse Scenario.svc Scenario.widget_question
                    (Some Scenario.retriever) (Some "s") initial) in
   messagesOf "s" w1 = [] /\
   getResponse Scenario.svc Scenario.widget_question_again (Some Scenario.retriever)
     (Some "s") w1 = (inl not_iterable, w1)).
Proof.
  split.
  - apply (duplicate_guard_never_runs Scenario.svc Scenario.widget_question_again
             (Some Scenario.retriever) (Some "s") Scenario.asked).
    apply Exists_cons_hd. split; [reflexivity|].
    eexists. split; vm_compute; reflexivity.
  - apply (duplicate_guard_never_runs Scenario.svc Scenario.widget_question_again
             (Some Scenario.retriever) (Some "s") initial).
Defined.

(** C2. [getResponse] returns neither the empty-knowledge-base message nor
    the low-confidence message.  For a question that passes the comparison
    with the prior messages, and for which the store returns no document, or
    documents whose scores are all below 0.7, the call throws at the head
    of its loop, before it retrieves anything: the trace is as it was. *)
Theorem confidence_gate_never_runs
    (svc : Services) (userQuestion : string) (retriever : Retriever)
    (sessionId : option string) (w : World) (docs : list Document) (scores : list float) :
  let sid := default "default_session" sessionId in
  checkSimilarQuestions svc userQuestion (messagesOf sid w) = inr None ->
  invoke retriever userQuestion = inr docs ->
  scoresOf svc userQuestion docs = inr scores ->
  Forall (fun score => PrimFloat.ltb score 0.7%float = true) scores ->
  let run := getResponse svc userQuestion (Some retriever) sessionId w in
  fst run = inl not_iterable /\
  fst run <> inr empty_message /\ fst run <> inr low_confidence_message /\
  trace (snd run) = trace w.
Proof.
  intros sid _ _ _ _ run. subst run. rewrite getResponse_run. fold sid. cbn [fst snd].
  split; [reflexivity|]. split; [discriminate|]. split; [discriminate|].
  apply opened_trace.
Qed.

(** C2 at the failing inputs: a question to a store with no document, and a
    question off the topics of the store, each in a new session. *)
Lemma confidence_gate_never_runs_witness :
  (let run := getResponse Scenario.svc Scenario.weather_question
                (Some Scenario.empty_retriever) (Some "s") initial in
   fst run = inl not_iterable /\
   fst run <> inr empty_message /\ fst run <> inr low_confidence_message /\
   trace (snd run) = []) /\
  (let run := getResponse Scenario.svc Scenario.weather_question
                (Some Scenario.retriever) (Some "s") initial in
   fst run = inl not_iterable /\
   fst run <> inr empty_message /\ fst run <> inr low_confidence_message /\
   trace (snd run) = []).
Proof.
  split.
  - apply (confidence_gate_never_runs Scenario.svc Scenario.weather_question
             Scenario.empty_retriever (Some "s") initial [] []).
    + reflexivity.
    + reflexivity.
    + reflexivity.
    + constructor.
  - apply (confidence_gate_never_runs Scenario.svc Scenario.weather_question
             Scenario.retriever (Some "s") initial
             [Scenario.widgets_doc; Scenario.pieces_doc] [0; 0]%float).
    + reflexivity.
    + reflexivity.
    + vm_compute. reflexivity.
    + repeat constructor.
Defined.



(** C4. [getResponse] appends no message to any session.  For a question
    that would reach the answering stage, whether the chat model fails or
    not, the call throws the error of the head of its loop, not an error of
    the model, and the messages of every session are as before; so they are
    after any run of calls. *)
Theorem history_never_appended
    (svc : Services) (userQuestion : string) (retriever : option Retriever)
    (sessionId : option string) (w : World) :
  let sid := default "default_session" sessionId in
  reachesAnswering svc userQuestion retriever sid w ->
  let run := getResponse svc userQuestion retriever sessionId w in
  fst run = inl not_iterable /\
  (forall s, messagesOf s (snd run) = messagesOf s w) /\
  forall requests s, messagesOf s (serve svc requests w) = messagesOf s w.
Proof.
  intros sid _ run. subst run. split; [|split].
  - rewrite getResponse_run. reflexivity.
  - apply getResponse_keeps.
  - intros requests s. apply serve_keeps.
Qed.

(** C4 at the failing inputs: the widget question in a new session, with a
    chat model that answers and with one that is down. *)
Lemma history_never_appended_witness :
  (let run := getResponse Scenario.svc Scenario.widget_question (Some Scenario.retriever)
                (Some "s") initial in
   fst run = inl not_iterable /\
   (forall s, messagesOf s (snd run) = messagesOf s initial) /\
   forall requests s,
     messagesOf s (serve Scenario.svc requests initial) = messagesOf s initial) /\
  (let run := getResponse Scenario.svc_down Scenario.widget_question (Some Scenario.retriever)
                (Some "s") initial in
   fst run = inl not_iterable /\
   (forall s, messagesOf s (snd run) = messagesOf s initial) /\
   forall requests s,
     messagesOf s (serve Scenario.svc_down requests initial) = messagesOf s initial).
Proof.
  split.
  - apply (history_never_appended Scenario.svc Scenario.widget_question
             (Some Scenario.retriever) (Some "s") initial).
    reaches_answering [Scenario.widgets_doc] [0.99503719020998926]%float.
  - apply (history_never_appended Scenario.svc_down Scenario.widget_question
             (Some Scenario.retriever) (Some "s") initial).
    reaches_answering [Scenario.widgets_doc] [0.99503719020998926]%float.
Defined.


(** C6, amended. For every pair of binary64 vectors, [cosineSimilarity]
    throws, and then the dimension error, if and only if their lengths
    differ.  For vectors of equal length it returns exactly [0] when either
    is a zero vector, and more generally when either sum of squares is zero;
    otherwise it returns the dot product divided by the product of the
    square roots of the sums of squares, each operation rounded to binary64.
    In exact arithmetic the same function returns a value in [[-1, 1]], and
    [0] for a zero vector; in binary64 the value is not always in
    [[-1, 1]]: for the vector (2, 3) and itself it is above 1, and for the
    vector (1e200) and itself it is not a number. *)
Theorem cosineSimilarity_contract :
  (forall a b : list float,
     (forall e, cosineSimilarity a b = inl e -> e = dimension_error) /\
     ((exists e, cosineSimilarity a b = inl e) <-> length a <> length b)) /\
  (forall a b : list float,
     length a = length b -> zero_vector a \/ zero_vector b ->
     cosineSimilarity a b = inr 0%float) /\
  (forall a b : list float,
     length a = length b ->
     let s := accumulate a b in
     cosineSimilarity a b =
       if PrimFloat.eqb (normA s) 0%float || PrimFloat.eqb (normB s) 0%float
       then inr 0%float
       else inr (dotProduct s / (PrimFloat.sqrt (normA s) * PrimFloat.sqrt (normB s)))%float) /\
  (forall a b : list R,
     length a = length b ->
     exists r, cosineSimilarity a b = inr r /\ (-1 <= r <= 1)%R /\
               (zero_vector a \/ zero_vector b -> r = 0%R)) /\
  (exists x, cosineSimilarity [2; 3]%float [2; 3]%float = inr x /\
             PrimFloat.ltb 1%float x = true) /\
  cosineSimilarity [1e200]%float [1e200]%float = inr PrimFloat.nan.
Proof.
  split; [|split; [|split; [|split; [|split]]]].
  - intros a b. split.
    + intros e He. now apply cosineSimilarity_throws in He.
    + split.
      * intros [e He]. now apply cosineSimilarity_throws in He.
      * intros Hne. eexists. now apply cosineSimilarity_mismatch.
  - apply float_zero_vector.
  - intros a b Hlen s. now rewrite cosineSimilarity_same_length by exact Hlen.
  - apply real_cosine.
  - eexists. split; vm_compute; reflexivity.
  - vm_compute. reflexivity.
Qed.

(** C6, amended, at work. *)
Lemma cosineSimilarity_witness :
  cosineSimilarity [0; -0]%float [3; 4]%float = inr 0%float /\
  cosineSimilarity [1; 0]%float [1; 1]%float = inr 0.70710678118654746%float /\
  exists r, cosineSimilarity [3; 4]%R [4; 3]%R = inr r /\ (-1 <= r <= 1)%R.
Proof.
  destruct cosineSimilarity_contract as (_ & Hzero & Hquotient & Hreal & _).
  split; [|split].
  - apply Hzero; [reflexivity|]. left. repeat constructor.
  - rewrite Hquotient; reflexivity.
  - destruct (Hreal [3; 4]%R [4; 3]%R) as (r & Hr & Hbound & _); [reflexivity|].
    exists r. split; [exact Hr | exact Hbound].
Defined.

(** C6 does not hold as the specification states it.  The similarity of the vector (2, 3) with itself is
    the binary64 number next above 1: the sum of squares is 13, and the
    square of the rounded square root of 13 rounds below 13.  The similarity
    of the vector (1e200) with itself is not a number: its square
    overflows. *)
Lemma cosineSimilarity_outside_unit_interval :
  cosineSimilarity [2; 3]%float [2; 3]%float = inr 1.0000000000000002%float /\
  PrimFloat.leb 1.0000000000000002%float 1%float = false /\
  cosineSimilarity [1e200]%float [1e200]%float = inr PrimFloat.nan /\
  PrimFloat.leb PrimFloat.nan 1%float = false.
Proof. vm_compute. repeat split. Qed.

(** C7. The similarity of two binary64 vectors does not depend on their
    order: both calls return the same number, or both throw the dimension
    error. *)
Theorem cosineSimilarity_symmetric (a b : list float) :
  cosineSimilarity a b = cosineSimilarity b a.
Proof. apply cosineSimilarity_sym_of_mul_comm. exact float_mul_comm. Qed.

(** C8, amended. [_initialize] runs its [try] block at most three times and
    waits 2000 milliseconds between one attempt and the next, not after the
    last; when the three attempts fail it throws what the third one threw
    and leaves the object as it was.  The application catches that error in
    [initChroma]: when every attempt fails, [startServer] still returns
    normally, with the server listening and no retriever. *)
Theorem initialization_retries (fromExistingCollection : nat -> result DbSingleton.VectorStore) :
  (forall s : DbSingleton.State,
     let n := DbSingleton.attempts s in
     DbSingleton._initialize fromExistingCollection s =
       match fromExistingCollection n with
       | inr store =>
           (inr tt,
            {| DbSingleton._instance := ready store;
               DbSingleton.attempts := n + 1;
               DbSingleton.events := DbSingleton.events s ++ [DbSingleton.Attempt n] |})
       | inl _ =>
           match fromExistingCollection (n + 1) with
           | inr store =>
               (inr tt,
                {| DbSingleton._instance := ready store;
                   DbSingleton.attempts := n + 2;
                   DbSingleton.events :=
                     DbSingleton.events s ++
                       [DbSingleton.Attempt n; DbSingleton.Wait 2000;
                        DbSingleton.Attempt (n + 1)] |})
           | inl _ =>
               match fromExistingCollection (n + 2) with
               | inr store =>
                   (inr tt,
                    {| DbSingleton._instance := ready store;
                       DbSingleton.attempts := n + 3;
                       DbSingleton.events :=
                         DbSingleton.events s ++
                           [DbSingleton.Attempt n; DbSingleton.Wait 2000;
                            DbSingleton.Attempt (n + 1); DbSingleton.Wait 2000;
                            DbSingleton.Attempt (n + 2)] |})
               | inl e =>
                   (inl e,
                    {| DbSingleton._instance := DbSingleton._instance s;
                       DbSingleton.attempts := n + 3;
                       DbSingleton.events :=
                         DbSingleton.events s ++
                           [DbSingleton.Attempt n; DbSingleton.Wait 2000;
                            DbSingleton.Attempt (n + 1); DbSingleton.Wait 2000;
                            DbSingleton.Attempt (n + 2)] |})
               end
           end
       end) /\
  ((forall n, n < 3 -> exists e, fromExistingCollection n = inl e) ->
   exists s',
     App.startServer fromExistingCollection App.initial = (inr tt, s') /\
     App.listening s' = true /\
     App.retriever s' = None /\
     App.chromaInstance s' = None /\
     DbSingleton.events (App.chroma s') =
       [DbSingleton.Attempt 0; DbSingleton.Wait 2000; DbSingleton.Attempt 1;
        DbSingleton.Wait 2000; DbSingleton.Attempt 2]).
Proof.
  split.
  - intros s. apply initialize_run.
  - apply startServer_all_fail.
Qed.

(** C8, amended, at work: a vector store that refuses every connection. *)
Lemma initialization_witness :
  exists s',
    App.startServer Scenario.refused App.initial = (inr tt, s') /\
    App.listening s' = true /\
    App.retriever s' = None /\
    App.chromaInstance s' = None /\
    DbSingleton.events (App.chroma s') =
      [DbSingleton.Attempt 0; DbSingleton.Wait 2000; DbSingleton.Attempt 1;
       DbSingleton.Wait 2000; DbSingleton.Attempt 2].
Proof.
  destruct (initialization_retries Scenario.refused) as [_ Hstart].
  apply Hstart. intros n _. eexists. reflexivity.
Defined.

(** C8 does not hold as the specification states it.  With a vector store that refuses every connection,
    [_initialize] throws, yet [startServer] returns normally and the server
    listens with no retriever; the first query is then answered with the
    error notification. *)
Lemma startup_survives_failed_initialization :
  let started := App.startServer Scenario.refused App.initial in
  fst (DbSingleton._initialize Scenario.refused DbSingleton.initial)
    = inl (Error "ECONNREFUSED") /\
  fst started = inr tt /\
  App.listening (snd started) = true /\
  App.retriever (snd started) = None /\
  App.outputs (snd (App.onQuery Scenario.svc "s" Scenario.widget_question (snd started)))
    = [App.EmitError "An error occurred while processing your query."].
Proof. vm_compute. repeat split. Qed.

(** C9. A call of [getResponse] without a session id is the call with the
    session id ['default_session'], so the callers that pass none share
    one history.  The question is not compared with the prior questions of
    those callers: when the history of ['default_session'] holds a
    human-authored message whose similarity to the question is at least
    0.85, the call does not return the duplicate-advisory message but
    throws at the head of its loop; so does a call that follows the call of
    another such caller, whatever was asked then. *)
Theorem default_session_guard_never_runs
    (svc : Services) (userQuestion : string) (retriever : option Retriever) (w : World) :
  getResponse svc userQuestion retriever None w
    = getResponse svc userQuestion retriever (Some "default_session") w /\
  (Exists (duplicates svc userQuestion) (messagesOf "default_session" w) ->
   getResponse svc userQuestion retriever None w = (inl not_iterable, w)) /\
  (forall earlier other,
     let w1 := snd (getResponse svc earlier other None w) in
     is_Some (chatHistoriesStore w1 !! "default_session") /\
     messagesOf "default_session" w1 = messagesOf "default_session" w /\
     getResponse svc userQuestion retriever None w1 = (inl not_iterable, w1)).
Proof.
  split; [reflexivity|]. split.
  - intros Hdup. rewrite getResponse_run. cbn [default].
    rewrite opened_history; [reflexivity|].
    unfold messagesOf in Hdup.
    destruct (chatHistoriesStore w !! "default_session"); [eauto | inversion Hdup].
  - intros earlier other w1. subst w1. rewrite !getResponse_run. cbn [default snd].
    split; [|split; [apply opened_messages | now rewrite opened_twice]].
    unfold opened, getSessionHistory, bind, gets, modify, ret.
    destruct (chatHistoriesStore w !! "default_session") eqn:Hs; simpl.
    + rewrite Hs. eauto.
    + rewrite lookup_insert_eq. eauto.
Qed.

(** C9 at the failing inputs: the widget question has been asked by a caller
    that passed no session id, and another such caller asks it in other
    words. *)
Lemma default_session_guard_never_runs_witness :
  getResponse Scenario.svc Scenario.widget_question_again (Some Scenario.retriever) None
    Scenario.asked_by_default = (inl not_iterable, Scenario.asked_by_default) /\
  (let w1 := snd (getResponse Scenario.svc Scenario.widget_question
                    (Some Scenario.retriever) None initial) in
   is_Some (chatHistoriesStore w1 !! "default_session") /\
   messagesOf "default_session" w1 = [] /\
   getResponse Scenario.svc Scenario.widget_question_again (Some Scenario.retriever) None w1
     = (inl not_iterable, w1)).
Proof.
  pose proof (default_session_guard_never_runs Scenario.svc Scenario.widget_question_again
                (Some Scenario.retriever) Scenario.asked_by_default) as (_ & Hasked & _).
  pose proof (default_session_guard_never_runs Scenario.svc Scenario.widget_question_again
                (Some Scenario.retriever) initial) as (_ & _ & Hlater).
  split.
  - apply Hasked. apply Exists_cons_hd. split; [reflexivity|].
    eexists. split; vm_compute; reflexivity.
  - apply (Hlater Scenario.widget_question (Some Scenario.retriever)).
Defined.


(** * Further properties of [fixDocumentMetadata] *)

(** X1. [fixDocumentMetadata] returns as many documents as it is given, and
    each of them has a non-empty [url] in its metadata. *)
Theorem fixDocumentMetadata_urls (documents : list Document) :
  length (DbSingleton.fixDocumentMetadata documents) = length documents /\
  Forall (fun doc => exists u, url doc = Some u /\ u <> EmptyString)
    (DbSingleton.fixDocumentMetadata documents).
Proof.
  unfold DbSingleton.fixDocumentMetadata. split; [apply length_map|].
  apply Forall_map, Forall_forall. intros doc _. apply fixDocument_url.
Qed.

(** X2. For a document with no [url] whose text is made of lines, the first
    of which to contain [Reference URL:] begins with it:
    [fixDocumentMetadata] removes that line from the text and sets [url] to
    the rest of the line, trimmed, or to the default URL when nothing is
    left of it. *)
Theorem reference_line_extracted (before after : list string) (rest : string)
    (fields : gmap string string) :
  has_url fields = false ->
  Forall (fun l => JsString.includes l DbSingleton.marker = false) before ->
  Forall (fun l => single_line l = true) (before ++ (DbSingleton.marker +:+ rest) :: after) ->
  DbSingleton.fixDocumentMetadata
    [{| pageContent :=
          JsString.join (before ++ (DbSingleton.marker +:+ rest) :: after) JsString.newline;
        metadata := MetaObject fields |}]
  = [{| pageContent := JsString.join (before ++ after) JsString.newline;
        metadata :=
          MetaObject
            (<["url" := if JsString.truthy (JsString.trim rest)
                        then JsString.trim rest else DbSingleton.default_url]> fields) |}].
Proof.
  intros Hurl Hbefore Hlines. unfold DbSingleton.fixDocumentMetadata. simpl map.
  now rewrite fixDocument_extracts.
Qed.

(** X2 at work: the page content of §8. *)
Lemma reference_line_witness :
  DbSingleton.fixDocumentMetadata [Scenario.reference_doc]
  = [{| pageContent := "Some text" +:+ JsString.newline +:+ "More text";
        metadata := MetaObject {[ "url" := "https://example.com/x" ]} |}].
Proof.
  apply (reference_line_extracted ["Some text"] ["More text"] " https://example.com/x" ∅).
  - reflexivity.
  - repeat constructor.
  - repeat constructor.
Defined.

(** * A further property of the duplicate guard *)

(** X3. The loop over the history runs to its end without returning exactly
    when the similarity of the question with every prior human-authored
    message can be computed and none is at least 0.85 (a similarity that is
    not a number is not). *)
Theorem duplicate_guard_passes (svc : Services) (userQuestion : string)
    (history : list Message) :
  checkSimilarQuestions svc userQuestion history = inr None <->
  forall m, m ∈ history -> role m = "human" ->
    exists s, similarity svc userQuestion (content m) = inr s /\
              PrimFloat.leb 0.85%float s = false.
Proof.
  rewrite check_none, Forall_forall. unfold distinct, duplicate_threshold. reflexivity.
Qed.

(** * Further properties of the similarity scorer *)

Section SelfSimilarity.
  #[local] Open Scope R_scope.

(** The three sums stay equal when a vector is paired with itself. *)
Lemma fold_step_diagonal (a : list R) (s : sums R) :
  dotProduct s = normA s -> normB s = normA s ->
  let s' := fold_left step (combine a a) s in
  dotProduct s' = normA s' /\ normB s' = normA s'.
Proof.
  revert s. induction a as [|x a IH]; intros s Hd Hb; simpl; [now split|].
  apply IH; simpl; congruence.
Qed.

(** A sum of squares is zero only if every term is. *)
Lemma fold_step_zero (a b : list R) (s : sums R) :
  length a = length b -> 0 <= normA s ->
  normA (fold_left step (combine a b) s) = 0 -> normA s = 0 /\ zero_vector a.
Proof.
  revert b s. induction a as [|x a IH]; intros [|y b] s Hlen Hs; simpl in *;
    try discriminate.
  - intros Hz. split; [exact Hz | constructor].
  - intros Hz. pose proof (square_nonneg x) as Hx.
    destruct (IH b (step s (x, y))) as [Hstep Ha]; [congruence | simpl; lra | exact Hz |].
    simpl in Hstep. assert (x * x = 0) as Hxx by lra.
    split; [lra|]. constructor; [|exact Ha].
    apply real_is_zero. apply Rsqr_0_uniq. exact Hxx.
Qed.

End SelfSimilarity.

(** X4. In exact arithmetic, the similarity of a vector of non-zero
    magnitude with itself is exactly 1. *)
Theorem self_similarity_exact (a : list R) :
  ~ zero_vector a -> cosineSimilarity a a = inr 1%R.
Proof.
  intros Hnz. rewrite cosineSimilarity_same_length by reflexivity. cbv zeta.
  destruct (accumulate_bounded a a) as (Hp & _ & _).
  destruct (fold_step_diagonal a
              {| dotProduct := num_zero; normA := num_zero; normB := num_zero |}
              eq_refl eq_refl) as [Hd Hb].
  fold (accumulate a a) in Hd, Hb. rewrite Hd, Hb.
  assert (normA (accumulate a a) <> 0%R) as Hne.
  { intros Hz. apply Hnz.
    refine (proj2 (fold_step_zero a a _ eq_refl _ Hz)). simpl. lra. }
  assert (num_is_zero (normA (accumulate a a)) = false) as ->.
  { destruct (num_is_zero (normA (accumulate a a))) eqn:Hz; [|reflexivity].
    apply real_is_zero in Hz. contradiction. }
  cbn [orb]. f_equal. change (@num_div R real_arith) with Rdiv.
  change (@num_mul R real_arith) with Rmult. change (@num_sqrt R real_arith) with R_sqrt.sqrt.
  rewrite sqrt_sqrt by exact Hp. now apply Rdiv_diag.
Qed.

(** X4 at work: the vector (2, 3), whose similarity with itself is not 1
    at binary64. *)
Lemma self_similarity_witness : cosineSimilarity [2; 3]%R [2; 3]%R = inr 1%R.
Proof.
  apply self_similarity_exact. intros Hz. inversion Hz as [|x l Hx _]; subst.
  apply real_is_zero in Hx. lra.
Defined.

(** X5. Whether two questions are similar does not depend on the order in
    which they are given, as long as one of them at least has an
    embedding: both calls return the same answer or throw the same error.
    (When neither has, each call throws the error of its first question.) *)
Theorem areQuestionsSimilar_symmetric (svc : Services) (question1 question2 : string)
    (threshold : float) :
  (exists embedding, embedQuery svc question1 = inr embedding) \/
  (exists embedding, embedQuery svc question2 = inr embedding) ->
  areQuestionsSimilar svc question1 question2 threshold
    = areQuestionsSimilar svc question2 question1 threshold.
Proof.
  intros Hsome. unfold areQuestionsSimilar, similarity, bindR.
  destruct (embedQuery svc question1) as [e1|v1], (embedQuery svc question2) as [e2|v2];
    try reflexivity.
  - destruct Hsome as [[v Hv] | [v Hv]]; discriminate.
  - assert (cosineSimilarity v1 v2 = cosineSimilarity v2 v1) as ->; [|reflexivity].
    apply cosineSimilarity_sym_of_mul_comm. exact float_mul_comm.
Qed.

(** X5 at work: the widget question and its rewording. *)
Lemma areQuestionsSimilar_symmetric_witness :
  areQuestionsSimilar Scenario.svc Scenario.widget_question Scenario.widget_question_again
    duplicate_threshold
  = areQuestionsSimilar Scenario.svc Scenario.widget_question_again Scenario.widget_question
      duplicate_threshold.
Proof.
  apply areQuestionsSimilar_symmetric. left. eexists. reflexivity.
Defined.

(** * Further properties of the session store and of the pipeline *)

(** X6. For a session id that is not the name of a property every object
    inherits, [getSessionHistory] returns the history of the session, which
    it creates, empty, when the session has none, and a second call changes
    nothing.  For the name of an inherited property, under which the store
    has no entry, it returns that property and creates nothing.  In both
    cases it changes the messages of no session, touches no other entry of
    the store, neither the current model nor the trace. *)
Theorem getSessionHistory_creates_once (sessionId : string) (w : World) :
  let w1 := snd (getSessionHistory sessionId w) in
  (inherited sessionId = false ->
     fst (getSessionHistory sessionId w) = inr (History sessionId) /\
     chatHistoriesStore w1 !! sessionId = Some (messagesOf sessionId w) /\
     getSessionHistory sessionId w1 = (inr (History sessionId), w1)) /\
  (inherited sessionId = true -> chatHistoriesStore w !! sessionId = None ->
     getSessionHistory sessionId w = (inr (InheritedProperty sessionId), w)) /\
  (forall other, other <> sessionId ->
     chatHistoriesStore w1 !! other = chatHistoriesStore w !! other) /\
  (forall s, messagesOf s w1 = messagesOf s w) /\
  currentModel w1 = currentModel w /\
  trace w1 = trace w.
Proof.
  intros w1. subst w1. fold (opened sessionId w).
  split; [|split; [|split; [|split; [|split]]]].
  - intros Hid. rewrite getSessionHistory_history by now left. cbn [fst].
    split; [reflexivity|].
    assert (chatHistoriesStore (opened sessionId w) !! sessionId
            = Some (messagesOf sessionId w)) as Hentry.
    { unfold opened, getSessionHistory, bind, gets, modify, ret, messagesOf.
      destruct (chatHistoriesStore w !! sessionId) eqn:Hs; simpl.
      - exact Hs.
      - rewrite Hid. simpl. apply lookup_insert_eq. }
    split; [exact Hentry|].
    rewrite getSessionHistory_history by now left. now rewrite opened_twice.
  - apply getSessionHistory_inherited.
  - intros other Hne. unfold opened, getSessionHistory, bind, gets, modify, ret.
    destruct (chatHistoriesStore w !! sessionId); simpl; [reflexivity|].
    destruct (inherited sessionId); simpl; [reflexivity|].
    now apply lookup_insert_ne.
  - intros s. apply opened_messages.
  - apply opened_model.
  - apply opened_trace.
Qed.

(** X6 at work: a new session, and the name of a property every object
    inherits. *)
Lemma getSessionHistory_witness :
  fst (getSessionHistory "s" initial) = inr (History "s") /\
  chatHistoriesStore (snd (getSessionHistory "s" initial)) !! "s" = Some [] /\
  getSessionHistory "constructor" initial = (inr (InheritedProperty "constructor"), initial).
Proof.
  pose proof (getSessionHistory_creates_once "s" initial) as (Hnew & _).
  pose proof (getSessionHistory_creates_once "constructor" initial) as (_ & Hinherited & _).
  destruct (Hnew eq_refl) as (Hfirst & Hentry & _).
  split; [exact Hfirst|]. split; [exact Hentry|]. apply Hinherited; reflexivity.
Defined.

(** X7. [getResponse] throws on every call, at the head of its loop: for a
    session id under which the store has a history, or can create one, the
    call of [getMessages] yields a promise, which the loop cannot run
    through; for the name of a property every object inherits, the value the
    store yields has no method [getMessages].  Nothing is retrieved and no
    model is invoked (the trace is as before); no message is added to any
    session, the current model is as before, and the only change is the
    empty history of a session that had none and whose id is not such a
    name. *)
Theorem getResponse_throws (svc : Services) (q : string) (r : option Retriever)
    (sessionId : option string) (w : World) :
  let sid := default "default_session" sessionId in
  let run := getResponse svc q r sessionId w in
  fst run = inl not_iterable /\
  snd run = snd (getSessionHistory sid w) /\
  (is_Some (chatHistoriesStore w !! sid) -> snd run = w) /\
  (inherited sid = true -> chatHistoriesStore w !! sid = None -> snd run = w) /\
  (inherited sid = false -> chatHistoriesStore (snd run) !! sid = Some (messagesOf sid w)) /\
  (forall s, messagesOf s (snd run) = messagesOf s w) /\
  currentModel (snd run) = currentModel w /\
  trace (snd run) = trace w.
Proof.
  intros sid run. subst run. rewrite getResponse_run. fold sid. cbn [fst snd].
  split; [reflexivity|]. split; [reflexivity|].
  split; [apply opened_history|]. split; [apply opened_inherited|].
  split.
  { intros Hid. unfold opened, getSessionHistory, bind, gets, modify, ret, messagesOf.
    destruct (chatHistoriesStore w !! sid) eqn:Hs; simpl.
    - exact Hs.
    - rewrite Hid. simpl. apply lookup_insert_eq. }
  split; [intros s; apply opened_messages|].
  split; [apply opened_model | apply opened_trace].
Qed.

(** X7 at work: the widget question in a new session, and in the session
    ['constructor']. *)
Lemma getResponse_throws_witness :
  getResponse Scenario.svc Scenario.widget_question (Some Scenario.retriever) (Some "s") initial
    = (inl not_iterable,
       {| chatHistoriesStore := {[ "s" := [] ]}; currentModel := None; trace := [] |}) /\
  getResponse Scenario.svc Scenario.widget_question (Some Scenario.retriever)
    (Some "constructor") initial = (inl not_iterable, initial).
Proof.
  pose proof (getResponse_throws Scenario.svc Scenario.widget_question
                (Some Scenario.retriever) (Some "s") initial) as (Hthrown & Hstate & _).
  pose proof (getResponse_throws Scenario.svc Scenario.widget_question
                (Some Scenario.retriever) (Some "constructor") initial)
    as (Hthrown' & _ & _ & Hinherited & _).
  split.
  - apply injective_projections; [exact Hthrown | exact Hstate].
  - apply injective_projections; [exact Hthrown' | apply Hinherited; reflexivity].
Defined.

(** ** The order of binary64 *)

Lemma SFcompare_lt_trans (x y z : spec_float) :
  SFcompare x y = Some Lt -> SFcompare y z = Some Lt -> SFcompare x z = Some Lt.
Proof.
  destruct x as [[|]|[|]| |[|] mx ex], y as [[|]|[|]| |[|] my ey],
    z as [[|]|[|]| |[|] mz ez]; simpl; try congruence; intros Hxy Hyz.
  - change (Pos.compare_cont Eq mx my) with (Pos.compare mx my) in Hxy.
    change (Pos.compare_cont Eq my mz) with (Pos.compare my mz) in Hyz.
    change (Pos.compare_cont Eq mx mz) with (Pos.compare mx mz).
    destruct (Z.compare_spec ex ey), (Z.compare_spec ey ez), (Z.compare_spec ex ez);
      try lia; try congruence; subst.
    destruct (Pos.compare_spec mx my), (Pos.compare_spec my mz), (Pos.compare_spec mx mz);
      simpl in *; try lia; congruence.
  - change (Pos.compare_cont Eq mx my) with (Pos.compare mx my) in Hxy.
    change (Pos.compare_cont Eq my mz) with (Pos.compare my mz) in Hyz.
    change (Pos.compare_cont Eq mx mz) with (Pos.compare mx mz).
    destruct (Z.compare_spec ex ey), (Z.compare_spec ey ez), (Z.compare_spec ex ez);
      try lia; try congruence; subst.
    destruct (Pos.compare_spec mx my), (Pos.compare_spec my mz), (Pos.compare_spec mx mz);
      simpl in *; try lia; congruence.
Qed.

(** Two numbers neither of which is below the other, and neither of which
    is [NaN], compare alike with any third. *)
Lemma SFcompare_eq_compat (x y z : spec_float) :
  x <> S754_nan -> y <> S754_nan ->
  SFltb x y = false -> SFltb y x = false -> SFltb x z = SFltb y z.
Proof.
  unfold SFltb.
  destruct x as [[|]|[|]| |[|] mx ex], y as [[|]|[|]| |[|] my ey]; simpl;
    try congruence; intros _ _ Hxy Hyx; try discriminate; try reflexivity.
  - change (Pos.compare_cont Eq mx my) with (Pos.compare mx my) in Hxy.
    change (Pos.compare_cont Eq my mx) with (Pos.compare my mx) in Hyx.
    destruct (Z.compare_spec ex ey), (Z.compare_spec ey ex); try lia; try discriminate.
    subst. destruct (Pos.compare_spec mx my), (Pos.compare_spec my mx);
      simpl in *; try lia; try discriminate. now subst.
  - change (Pos.compare_cont Eq mx my) with (Pos.compare mx my) in Hxy.
    change (Pos.compare_cont Eq my mx) with (Pos.compare my mx) in Hyx.
    destruct (Z.compare_spec ex ey), (Z.compare_spec ey ex); try lia; try discriminate.
    subst. destruct (Pos.compare_spec mx my), (Pos.compare_spec my mx);
      simpl in *; try lia; try discriminate. now subst.
Qed.

Lemma float_not_nan (x : float) : PrimFloat.is_nan x = false -> Prim2SF x <> S754_nan.
Proof.
  unfold PrimFloat.is_nan. rewrite FloatAxioms.eqb_spec. intros Hx Hnan.
  rewrite Hnan in Hx. discriminate.
Qed.

Lemma float_nan_not_below (x t : float) :
  PrimFloat.is_nan x = true -> PrimFloat.ltb x t = false.
Proof.
  unfold PrimFloat.is_nan. rewrite FloatAxioms.eqb_spec, ltb_spec.
  destruct (Prim2SF x) as [[|]|[|]| |[|] mx ex]; simpl; try discriminate; try reflexivity.
  - unfold SFeqb. simpl. now rewrite Z.compare_refl, Pos.compare_cont_refl.
  - unfold SFeqb. simpl. now rewrite Z.compare_refl, Pos.compare_cont_refl.
Qed.

Lemma float_lt_trans (x y t : float) :
  PrimFloat.ltb x y = true -> PrimFloat.ltb y t = true -> PrimFloat.ltb x t = true.
Proof.
  rewrite !ltb_spec. unfold SFltb.
  destruct (SFcompare (Prim2SF x) (Prim2SF y)) as [[| |]|] eqn:Hxy; try discriminate.
  destruct (SFcompare (Prim2SF y) (Prim2SF t)) as [[| |]|] eqn:Hyt; try discriminate.
  now rewrite (SFcompare_lt_trans _ _ _ Hxy Hyt).
Qed.

(** The larger of two numbers is below a bound exactly when both are. *)
Lemma max2_below (x y t : float) :
  PrimFloat.ltb (max2 x y) t = PrimFloat.ltb x t && PrimFloat.ltb y t.
Proof.
  unfold max2.
  destruct (PrimFloat.is_nan x) eqn:Hx.
  { cbn [orb]. rewrite (float_nan_not_below x t Hx).
    now rewrite (float_nan_not_below PrimFloat.nan t eq_refl). }
  destruct (PrimFloat.is_nan y) eqn:Hy.
  { cbn [orb]. rewrite (float_nan_not_below y t Hy), andb_false_r.
    now rewrite (float_nan_not_below PrimFloat.nan t eq_refl). }
  cbn [orb].
  destruct (PrimFloat.ltb x y) eqn:Hxy.
  { destruct (PrimFloat.ltb y t) eqn:Hyt; [|now rewrite andb_false_r].
    now rewrite (float_lt_trans x y t Hxy Hyt). }
  destruct (PrimFloat.ltb y x) eqn:Hyx.
  { destruct (PrimFloat.ltb x t) eqn:Hxt; [|reflexivity].
    now rewrite (float_lt_trans y x t Hyx Hxt). }
  assert (PrimFloat.ltb x t = PrimFloat.ltb y t) as Heq.
  { rewrite !ltb_spec. rewrite !ltb_spec in Hxy, Hyx.
    apply SFcompare_eq_compat; auto using float_not_nan. }
  destruct (PrimFloat.get_sign x); rewrite Heq; now destruct (PrimFloat.ltb y t).
Qed.

Lemma fold_max2_below (scores : list float) (acc t : float) :
  PrimFloat.ltb (fold_left max2 scores acc) t
    = PrimFloat.ltb acc t && forallb (fun s => PrimFloat.ltb s t) scores.
Proof.
  revert acc. induction scores as [|s scores IH]; intros acc; simpl.
  - now rewrite andb_true_r.
  - now rewrite IH, max2_below, andb_assoc.
Qed.

(** [Math.max] of the scores is below the threshold exactly when every
    score is. *)
Lemma Math_max_below (scores : list float) :
  PrimFloat.ltb (Math_max scores) confidenceThreshold = true <->
  Forall (fun s => PrimFloat.ltb s confidenceThreshold = true) scores.
Proof.
  unfold Math_max. rewrite fold_max2_below.
  change (PrimFloat.ltb PrimFloat.neg_infinity confidenceThreshold) with true.
  cbn [andb]. rewrite forallb_forall, List.Forall_forall. reflexivity.
Qed.

(** X8. The confidence gate decides on the scores one by one.  In the
    statements of [getResponse] after the loop, once documents have been
    retrieved and scored, each score is the confidence score of the
    document at its place; the low-confidence message is returned, with no
    model call, if every score is below 0.7, and the answering stage is
    entered, with the retriever, if one score is not, be it a single one
    among many or [NaN]. *)
Theorem gate_rejects_iff_every_score_low (svc : Services) (q : string) (rt : Retriever)
    (sid : string) (w : World) (docs : list Document) (scores : list float) :
  let w' := after (Retrieve q) w in
  invoke rt q = inr docs -> docs <> [] -> scoresOf svc q docs = inr scores ->
  Forall2 (fun doc score => getConfidenceScore svc q (pageContent doc) = inr score)
    docs scores /\
  (Forall (fun s => PrimFloat.ltb s confidenceThreshold = true) scores ->
     retrieveAndAnswer svc q (Some rt) sid w = (inr low_confidence_message, w')) /\
  (Exists (fun s => PrimFloat.ltb s confidenceThreshold = false) scores ->
     retrieveAndAnswer svc q (Some rt) sid w = answerQuestion svc q (Some rt) sid w').
Proof.
  intros w' Hdocs Hne Hscores. split; [|split].
  - unfold scoresOf in Hscores. apply promiseAll_fulfilled in Hscores.
    clear Hdocs Hne. revert scores Hscores.
    induction docs as [|doc docs IH]; intros [|score scores]; simpl;
      try discriminate; [constructor|].
    intros [= Hdoc Hrest]. constructor; [exact Hdoc | now apply IH].
  - intros Hlow. apply Math_max_below in Hlow.
    rewrite retrieveAndAnswer_run, Hdocs. cbv zeta. rewrite Hscores.
    now rewrite (scores_nonempty svc q docs scores Hne Hscores), Hlow.
  - intros Hone.
    rewrite retrieveAndAnswer_run, Hdocs. cbv zeta. rewrite Hscores.
    rewrite (scores_nonempty svc q docs scores Hne Hscores).
    destruct (PrimFloat.ltb (Math_max scores) confidenceThreshold) eqn:Hmax; [|reflexivity].
    apply Math_max_below in Hmax. apply List.Exists_exists in Hone as (s & Hin & Hs).
    rewrite List.Forall_forall in Hmax. rewrite (Hmax s Hin) in Hs. discriminate.
Qed.

(** X8 at work: for the reworded widget question the store returns two
    documents, of which one scores above the threshold; for the weather
    question, both score 0. *)
Lemma gate_witness :
  retrieveAndAnswer Scenario.svc Scenario.widget_question_again (Some Scenario.retriever)
    "s" initial
  = answerQuestion Scenario.svc Scenario.widget_question_again (Some Scenario.retriever) "s"
      (after (Retrieve Scenario.widget_question_again) initial) /\
  retrieveAndAnswer Scenario.svc Scenario.weather_question (Some Scenario.retriever)
    "s" initial
  = (inr low_confidence_message, after (Retrieve Scenario.weather_question) initial).
Proof.
  split.
  - apply (gate_rejects_iff_every_score_low Scenario.svc Scenario.widget_question_again
             Scenario.retriever "s" initial
             [Scenario.widgets_doc; Scenario.pieces_doc]
             [0.99993962628665978; 0.20877860329062128]%float);
      [reflexivity | discriminate | evaluated |].
    left. reflexivity.
  - apply (gate_rejects_iff_every_score_low Scenario.svc Scenario.weather_question
             Scenario.retriever "s" initial
             [Scenario.widgets_doc; Scenario.pieces_doc] [0; 0]%float);
      [reflexivity | discriminate | evaluated |].
    repeat constructor.
Defined.

(** X29. The errors of the statements of [getResponse] after the loop, up
    to the answering stage.  What they throw is the [TypeError] of an
    undefined retriever, with nothing retrieved; or the error of the
    retrieval; or the error of the confidence score of one of the retrieved
    documents, not necessarily the first of them that fails; or else the
    gate has passed and the error is that of the answering stage.  Up to the
    answering stage only the retrieval is recorded. *)
Theorem errors_after_the_loop (svc : Services) (q : string) (r : option Retriever)
    (sid : string) (w : World) (e : exn) :
  let run := retrieveAndAnswer svc q r sid w in
  fst run = inl e ->
  (r = None /\ e = undefined_retriever /\ snd run = w) \/
  (exists rt, r = Some rt /\
     ((invoke rt q = inl e /\ snd run = after (Retrieve q) w) \/
      (exists docs, invoke rt q = inr docs /\
         ((exists doc, doc ∈ docs /\ getConfidenceScore svc q (pageContent doc) = inl e) /\
          scoresOf svc q docs = inl e /\ snd run = after (Retrieve q) w \/
          exists scores, scoresOf svc q docs = inr scores /\ docs <> [] /\
            PrimFloat.ltb (Math_max scores) confidenceThreshold = false /\
            run = answerQuestion svc q r sid (after (Retrieve q) w))))).
Proof.
  intros run Hthrown. subst run. destruct r as [rt|].
  2:{ left. rewrite retrieveAndAnswer_undefined in *. cbn [fst snd] in *.
      injection Hthrown as <-. auto. }
  right. exists rt. split; [reflexivity|]. revert Hthrown.
  rewrite retrieveAndAnswer_run. cbv zeta.
  destruct (invoke rt q) as [e'|docs] eqn:Hdocs.
  { cbn [fst snd]. intros [= ->]. left. auto. }
  destruct (scoresOf svc q docs) as [e'|scores] eqn:Hscores.
  { cbn [fst snd]. intros [= ->]. right. exists docs. split; [reflexivity|].
    left. split; [|split; [exact Hscores | reflexivity]].
    unfold scoresOf in Hscores. apply promiseAll_rejected in Hscores.
    apply in_map_iff in Hscores as (doc & Hdoc & Hin).
    exists doc. split; [now apply list_elem_of_In | exact Hdoc]. }
  destruct (Nat.eqb (length scores) 0) eqn:Hlen; [discriminate|].
  destruct (PrimFloat.ltb (Math_max scores) confidenceThreshold) eqn:Hmax; [discriminate|].
  intros _. right. exists docs. split; [reflexivity|].
  right. exists scores. split; [exact Hscores|]. split; [|auto].
  intros ->. apply scores_length in Hscores. rewrite Hscores in Hlen. discriminate.
Qed.

(** X29 at work: the embeddings service is down for both documents the
    store returns, and the second call fails first: the error is that of
    the second document. *)
Lemma errors_after_the_loop_witness :
  let run := retrieveAndAnswer Scenario.svc_flaky Scenario.weather_question
               (Some Scenario.retriever) "s" initial in
  fst run = inl (Error "503 service unavailable") /\
  getConfidenceScore Scenario.svc_flaky Scenario.weather_question
    (pageContent Scenario.widgets_doc) = inl (Error "429 rate limit exceeded") /\
  ((@Some Retriever Scenario.retriever = None /\
    Error "503 service unavailable" = undefined_retriever /\ snd run = initial) \/
   (exists rt, Some Scenario.retriever = Some rt /\
     ((invoke rt Scenario.weather_question = inl (Error "503 service unavailable") /\
       snd run = after (Retrieve Scenario.weather_question) initial) \/
      (exists docs, invoke rt Scenario.weather_question = inr docs /\
         ((exists doc, doc ∈ docs /\
             getConfidenceScore Scenario.svc_flaky Scenario.weather_question
               (pageContent doc) = inl (Error "503 service unavailable")) /\
          scoresOf Scenario.svc_flaky Scenario.weather_question docs
            = inl (Error "503 service unavailable") /\
          snd run = after (Retrieve Scenario.weather_question) initial \/
          exists scores,
            scoresOf Scenario.svc_flaky Scenario.weather_question docs = inr scores /\
            docs <> [] /\
            PrimFloat.ltb (Math_max scores) confidenceThreshold = false /\
            run = answerQuestion Scenario.svc_flaky Scenario.weather_question
                    (Some Scenario.retriever) "s"
                    (after (Retrieve Scenario.weather_question) initial)))))).
Proof.
  split; [reflexivity|]. split; [reflexivity|].
  apply (errors_after_the_loop Scenario.svc_flaky Scenario.weather_question
           (Some Scenario.retriever) "s" initial (Error "503 service unavailable")).
  reflexivity.
Defined.



(** * Further properties of the vector-store adapter *)

Section InstanceFacts.
  Variable connectN : nat -> result DbSingleton.VectorStore.

Lemma getInstance_set (s : DbSingleton.State) (chroma : DbSingleton.ChromaDB) :
  DbSingleton._instance s = Some chroma ->
  DbSingleton.getInstance connectN s = (inr chroma, s).
Proof.
  intros Hinst. unfold DbSingleton.getInstance, bind, gets. now rewrite Hinst.
Qed.

(** The first call: the instance is created, then initialized. *)
Lemma getInstance_new (s : DbSingleton.State) :
  DbSingleton._instance s = None ->
  DbSingleton.getInstance connectN s =
    match DbSingleton._initialize connectN
            {| DbSingleton._instance := uninitialized;
               DbSingleton.attempts := DbSingleton.attempts s;
               DbSingleton.events := DbSingleton.events s |} with
    | (inl e, s') => (inl e, s')
    | (inr _, s') =>
        (inr (default {| DbSingleton.db := None; DbSingleton.retriever := None |}
                (DbSingleton._instance s')), s')
    end.
Proof.
  intros Hinst. unfold DbSingleton.getInstance, bind, gets, modify, ret, uninitialized.
  rewrite Hinst.
  destruct (DbSingleton._initialize connectN _) as [[e|[]] s']; [reflexivity|].
  now destruct (DbSingleton._instance s').
Qed.

End InstanceFacts.

(** X10. [getInstance] initializes once: the first call creates the instance
    and runs [_initialize]; whether that succeeded or threw, every later
    call returns the instance of the first call without a connection
    attempt, so an initialization that failed is never tried again, and the
    instance then has no retriever. *)
Theorem getInstance_initializes_once (first later : nat -> result DbSingleton.VectorStore) :
  let s1 := snd (DbSingleton.getInstance first DbSingleton.initial) in
  exists chroma,
    DbSingleton._instance s1 = Some chroma /\
    DbSingleton.getInstance later s1 = (inr chroma, s1) /\
    (DbSingleton.retriever chroma = None <->
       exists e, fst (DbSingleton.getInstance first DbSingleton.initial) = inl e).
Proof.
  intros s1. subst s1. rewrite getInstance_new by reflexivity.
  rewrite initialize_run. unfold DbSingleton.initial.
  cbn [DbSingleton.attempts DbSingleton.events DbSingleton._instance Nat.add app].
  destruct (first 0) as [e0|store0].
  2:{ eexists. split; [reflexivity|]. split; [now apply getInstance_set|].
      split; [discriminate | intros [e He]; discriminate]. }
  destruct (first 1) as [e1|store1].
  2:{ eexists. split; [reflexivity|]. split; [now apply getInstance_set|].
      split; [discriminate | intros [e He]; discriminate]. }
  destruct (first 2) as [e2|store2].
  2:{ eexists. split; [reflexivity|]. split; [now apply getInstance_set|].
      split; [discriminate | intros [e He]; discriminate]. }
  eexists. split; [reflexivity|]. split; [now apply getInstance_set|].
  split; [intros _; now exists e2 | reflexivity].
Qed.

(** X11. [refreshConnection] leaves everything as it is when the collection
    can be counted.  When it cannot, it runs [_initialize]: if one of the
    next three connection attempts succeeds, the instance gets the new
    store and a retriever on it; if all three fail, the error of the third
    is thrown and the instance keeps the store and the retriever it had. *)
Theorem refreshConnection_outcomes (connectN : nat -> result DbSingleton.VectorStore)
    (count : result nat) (s : DbSingleton.State) :
  let n := DbSingleton.attempts s in
  let outcome := DbMaintenance.refreshConnection connectN count s in
  (forall documents, count = inr documents -> outcome = (inr tt, s)) /\
  (forall e, count = inl e ->
     (forall k store,
        k < 3 -> (forall j, j < k -> exists e', connectN (n + j) = inl e') ->
        connectN (n + k) = inr store ->
        fst outcome = inr tt /\
        DbSingleton._instance (snd outcome) = ready store /\
        DbSingleton.attempts (snd outcome) = n + k + 1) /\
     ((forall j, j < 3 -> exists e', connectN (n + j) = inl e') ->
      exists e', connectN (n + 2) = inl e' /\
        fst outcome = inl e' /\
        DbSingleton._instance (snd outcome) = DbSingleton._instance s /\
        DbSingleton.attempts (snd outcome) = n + 3)).
Proof.
  intros n outcome. split.
  - intros documents ->. reflexivity.
  - intros e ->. subst outcome.
    unfold DbMaintenance.refreshConnection, try_catch, bind, liftR. cbn [fst snd].
    rewrite initialize_run. fold n. split.
    + intros k store Hk Hbefore Hk_ok.
      assert (k = 0 \/ k = 1 \/ k = 2) as [-> | [-> | ->]] by lia.
      * rewrite Nat.add_0_r in Hk_ok. rewrite Hk_ok. cbn. repeat split; lia.
      * destruct (Hbefore 0) as [e0 H0]; [lia|]. rewrite Nat.add_0_r in H0.
        rewrite H0, Hk_ok. cbn. repeat split; lia.
      * destruct (Hbefore 0) as [e0 H0]; [lia|]. rewrite Nat.add_0_r in H0.
        destruct (Hbefore 1) as [e1 H1]; [lia|].
        rewrite H0, H1, Hk_ok. cbn. repeat split; lia.
    + intros Hfail.
      destruct (Hfail 0) as [e0 H0]; [lia|]. rewrite Nat.add_0_r in H0.
      destruct (Hfail 1) as [e1 H1]; [lia|].
      destruct (Hfail 2) as [e2 H2]; [lia|].
      rewrite H0, H1, H2. exists e2. cbn. repeat split.
Qed.

(** X11 at work: the collection cannot be counted, and the store accepts the
    second of the connections that follow. *)
Lemma refreshConnection_witness :
  let outcome :=
    DbMaintenance.refreshConnection Scenario.second_time (inl (Error "ECONNREFUSED"))
      {| DbSingleton._instance := uninitialized;
         DbSingleton.attempts := 0;
         DbSingleton.events := [] |} in
  fst outcome = inr tt /\
  DbSingleton._instance (snd outcome)
    = ready {| DbSingleton.search := fun query _ => invoke Scenario.retriever query |} /\
  DbSingleton.attempts (snd outcome) = 0 + 1 + 1.
Proof.
  refine (proj1 (proj2 (refreshConnection_outcomes Scenario.second_time
                          (inl (Error "ECONNREFUSED"))
                          {| DbSingleton._instance := uninitialized;
                             DbSingleton.attempts := 0;
                             DbSingleton.events := [] |}) _ eq_refl)
            1 _ _ _ eq_refl).
  - lia.
  - intros j Hj. assert (j = 0) as -> by lia. eexists. reflexivity.
Defined.

(** ** [fixDocumentMetadata], once more *)

(** X12. [fixDocumentMetadata] is idempotent: the documents it returns all
    have a [url], and a second pass returns them as they are, text
    included. *)
Theorem fixDocumentMetadata_idempotent (documents : list Document) :
  DbSingleton.fixDocumentMetadata (DbSingleton.fixDocumentMetadata documents)
    = DbSingleton.fixDocumentMetadata documents.
Proof.
  unfold DbSingleton.fixDocumentMetadata. rewrite List.map_map. apply List.map_ext.
  intros doc. destruct (fixDocument_url doc) as (u & Hurl & Hne).
  destruct (DbSingleton.fixDocument doc) as [content meta]. unfold url in Hurl.
  cbn [metadata] in Hurl. destruct meta as [| |fields]; try discriminate.
  apply fixDocument_keeps. apply has_url_spec. now exists u.
Qed.

(** * The embedding cache *)

Section CacheFacts.
  Variable defaultModel : DbMaintenance.EmbeddingModel.

Lemma getCachedEmbedding_hit (text : string) (model : option DbMaintenance.EmbeddingModel)
    (s : DbMaintenance.Cache) (embedding : list float) :
  DbMaintenance._embeddingCache s !! text = Some embedding ->
  DbMaintenance.getCachedEmbedding defaultModel text model s
    = (inr (DbMaintenance.Embedding embedding), s).
Proof.
  intros Hhit. unfold DbMaintenance.getCachedEmbedding, bind, gets. now rewrite Hhit.
Qed.

Lemma getCachedEmbedding_inherited (text : string)
    (model : option DbMaintenance.EmbeddingModel) (s : DbMaintenance.Cache) :
  DbMaintenance._embeddingCache s !! text = None -> inherited text = true ->
  DbMaintenance.getCachedEmbedding defaultModel text model s
    = (inr (DbMaintenance.Inherited text), s).
Proof.
  intros Hmiss Hname. unfold DbMaintenance.getCachedEmbedding, bind, gets.
  now rewrite Hmiss, Hname.
Qed.

Lemma getCachedEmbedding_miss (text : string) (model : option DbMaintenance.EmbeddingModel)
    (s : DbMaintenance.Cache) :
  DbMaintenance._embeddingCache s !! text = None -> inherited text = false ->
  DbMaintenance.getCachedEmbedding defaultModel text model s =
    match DbMaintenance.embedQuery (default defaultModel model) text with
    | inl e =>
        (inl e,
         {| DbMaintenance._embeddingCache := DbMaintenance._embeddingCache s;
            DbMaintenance.events :=
              DbMaintenance.events s ++ [DbMaintenance.Embedded text] |})
    | inr embedding =>
        (inr (DbMaintenance.Embedding embedding),
         {| DbMaintenance._embeddingCache :=
              <[text := embedding]> (DbMaintenance._embeddingCache s);
            DbMaintenance.events :=
              DbMaintenance.events s ++ [DbMaintenance.Embedded text] |})
    end.
Proof.
  intros Hmiss Hname.
  unfold DbMaintenance.getCachedEmbedding, bind, gets, DbMaintenance.log, modify, liftR, ret.
  rewrite Hmiss, Hname. simpl.
  destruct (DbMaintenance.embedQuery (default defaultModel model) text); reflexivity.
Qed.

(** An entry of the cache is still there, unchanged, after a call. *)
Lemma getCachedEmbedding_keeps (text other : string)
    (model : option DbMaintenance.EmbeddingModel) (s : DbMaintenance.Cache)
    (embedding : list float) :
  DbMaintenance._embeddingCache s !! other = Some embedding ->
  DbMaintenance._embeddingCache
    (snd (DbMaintenance.getCachedEmbedding defaultModel text model s)) !! other
    = Some embedding.
Proof.
  intros Hother.
  destruct (DbMaintenance._embeddingCache s !! text) as [v|] eqn:Htext.
  - now rewrite (getCachedEmbedding_hit text model s v Htext).
  - destruct (inherited text) eqn:Hname.
    + now rewrite (getCachedEmbedding_inherited text model s Htext Hname).
    + rewrite (getCachedEmbedding_miss text model s Htext Hname).
      destruct (DbMaintenance.embedQuery (default defaultModel model) text); simpl;
        [exact Hother|].
      rewrite lookup_insert_ne; [exact Hother|]. intros ->. congruence.
Qed.

Lemma lookups_keep (requests : list Lookup) (other : string) (s : DbMaintenance.Cache)
    (embedding : list float) :
  DbMaintenance._embeddingCache s !! other = Some embedding ->
  DbMaintenance._embeddingCache (lookups defaultModel requests s) !! other = Some embedding.
Proof.
  revert s. induction requests as [|[text model] rest IH]; intros s Hother; simpl.
  - exact Hother.
  - apply IH. now apply getCachedEmbedding_keeps.
Qed.

Lemma embeddedTexts_app (evs evs' : list DbMaintenance.Event) :
  embeddedTexts (evs ++ evs') = embeddedTexts evs ++ embeddedTexts evs'.
Proof.
  induction evs as [|[text|n] evs IH]; simpl; [reflexivity| |exact IH]. now rewrite IH.
Qed.

Lemma getCachedEmbedding_once (text : string) (model : option DbMaintenance.EmbeddingModel)
    (s : DbMaintenance.Cache) :
  reliable (default defaultModel model) -> embeddedOnce s ->
  embeddedOnce (snd (DbMaintenance.getCachedEmbedding defaultModel text model s)).
Proof.
  intros Hrel (Hnodup & Hdom & Hnames).
  destruct (DbMaintenance._embeddingCache s !! text) as [v|] eqn:Htext.
  { rewrite (getCachedEmbedding_hit text model s v Htext).
    split; [exact Hnodup|]. split; [exact Hdom | exact Hnames]. }
  destruct (inherited text) eqn:Hname.
  { rewrite (getCachedEmbedding_inherited text model s Htext Hname).
    split; [exact Hnodup|]. split; [exact Hdom | exact Hnames]. }
  rewrite (getCachedEmbedding_miss text model s Htext Hname).
  destruct (Hrel text) as [v ->]. unfold embeddedOnce.
  cbn [snd DbMaintenance.events DbMaintenance._embeddingCache].
  rewrite embeddedTexts_app. cbn [embeddedTexts]. split; [|split].
  - apply NoDup_app. split; [exact Hnodup|]. split.
    + intros t Ht Heq. apply list_elem_of_singleton in Heq. subst t.
      apply Hdom in Ht. rewrite Htext in Ht. now destruct Ht.
    + apply NoDup_singleton.
  - intros t. rewrite elem_of_app, list_elem_of_singleton.
    destruct (decide (text = t)) as [<- | Hne].
    + rewrite lookup_insert_eq. split; [eauto | auto].
    + rewrite lookup_insert_ne by exact Hne. rewrite <- Hdom.
      split; [intros [Ht | Ht]; [exact Ht | congruence] | auto].
  - intros t. destruct (decide (text = t)) as [<- | Hne].
    + intros _. exact Hname.
    + rewrite lookup_insert_ne by exact Hne. apply Hnames.
Qed.

Lemma lookups_once (requests : list Lookup) (s : DbMaintenance.Cache) :
  Forall (fun request => reliable (default defaultModel (snd request))) requests ->
  embeddedOnce s -> embeddedOnce (lookups defaultModel requests s).
Proof.
  intros Hrel. revert s.
  induction Hrel as [|[text model] rest Hm Hrest IH]; intros s Hinv; simpl.
  - exact Hinv.
  - apply IH. now apply getCachedEmbedding_once.
Qed.

End CacheFacts.

(** X13. Once [getCachedEmbedding] has returned the embedding of a text,
    every later call for that text returns the same embedding and calls no
    embeddings client, whatever other texts were looked up in between and
    whatever client the later call is given: the cache is keyed by the text
    alone. *)
Theorem cached_embedding_reused (defaultModel : DbMaintenance.EmbeddingModel)
    (text : string) (first later : option DbMaintenance.EmbeddingModel)
    (requests : list Lookup) (s s1 : DbMaintenance.Cache) (embedding : list float) :
  DbMaintenance.getCachedEmbedding defaultModel text first s
    = (inr (DbMaintenance.Embedding embedding), s1) ->
  let s2 := lookups defaultModel requests s1 in
  DbMaintenance.getCachedEmbedding defaultModel text later s2
    = (inr (DbMaintenance.Embedding embedding), s2).
Proof.
  intros Hfirst s2. apply getCachedEmbedding_hit. apply lookups_keep.
  destruct (DbMaintenance._embeddingCache s !! text) as [v|] eqn:Htext.
  - rewrite (getCachedEmbedding_hit defaultModel text first s v Htext) in Hfirst.
    now injection Hfirst as <- <-.
  - destruct (inherited text) eqn:Hname.
    { rewrite (getCachedEmbedding_inherited defaultModel text first s Htext Hname) in Hfirst.
      discriminate. }
    rewrite (getCachedEmbedding_miss defaultModel text first s Htext Hname) in Hfirst.
    destruct (DbMaintenance.embedQuery (default defaultModel first) text) as [e|v];
      [discriminate|].
    injection Hfirst as <- <-. simpl. apply lookup_insert_eq.
Qed.

(** X13 at work: the widget question is embedded by the default client; a
    later call with another client gets the vector of the first. *)
Lemma cached_embedding_witness :
  DbMaintenance.getCachedEmbedding Examples.small_model Scenario.widget_question None
    DbMaintenance.empty
    = (inr (DbMaintenance.Embedding [1; 0; 0]%float),
       {| DbMaintenance._embeddingCache := {[ Scenario.widget_question := [1; 0; 0]%float ]};
          DbMaintenance.events := [DbMaintenance.Embedded Scenario.widget_question] |}) /\
  let s2 :=
    lookups Examples.small_model [(Scenario.weather_question, None)]
      {| DbMaintenance._embeddingCache := {[ Scenario.widget_question := [1; 0; 0]%float ]};
         DbMaintenance.events := [DbMaintenance.Embedded Scenario.widget_question] |} in
  DbMaintenance.getCachedEmbedding Examples.small_model Scenario.widget_question
    (Some Examples.other_model) s2 = (inr (DbMaintenance.Embedding [1; 0; 0]%float), s2).
Proof.
  assert (DbMaintenance.getCachedEmbedding Examples.small_model Scenario.widget_question None
            DbMaintenance.empty
          = (inr (DbMaintenance.Embedding [1; 0; 0]%float),
             {| DbMaintenance._embeddingCache :=
                  {[ Scenario.widget_question := [1; 0; 0]%float ]};
                DbMaintenance.events := [DbMaintenance.Embedded Scenario.widget_question] |}))
    as Hfirst by reflexivity.
  split; [exact Hfirst|].
  exact (cached_embedding_reused Examples.small_model Scenario.widget_question None
           (Some Examples.other_model) [(Scenario.weather_question, None)] _ _ _ Hfirst).
Defined.

(** X14. A failure is not cached: when the text has no entry, is not the
    name of a property every object inherits, and the client throws,
    [getCachedEmbedding] throws the client's error and the cache is as
    before; the next call for the text asks its client again, and returns
    and stores what that client answers. *)
Theorem failed_embedding_not_cached (defaultModel : DbMaintenance.EmbeddingModel)
    (text : string) (model again : option DbMaintenance.EmbeddingModel)
    (s : DbMaintenance.Cache) (e : exn) :
  DbMaintenance._embeddingCache s !! text = None ->
  inherited text = false ->
  DbMaintenance.embedQuery (default defaultModel model) text = inl e ->
  let outcome := DbMaintenance.getCachedEmbedding defaultModel text model s in
  fst outcome = inl e /\
  DbMaintenance._embeddingCache (snd outcome) = DbMaintenance._embeddingCache s /\
  DbMaintenance.events (snd outcome) = DbMaintenance.events s ++ [DbMaintenance.Embedded text] /\
  forall embedding,
    DbMaintenance.embedQuery (default defaultModel again) text = inr embedding ->
    let retried := DbMaintenance.getCachedEmbedding defaultModel text again (snd outcome) in
    fst retried = inr (DbMaintenance.Embedding embedding) /\
    DbMaintenance._embeddingCache (snd retried)
      = <[text := embedding]> (DbMaintenance._embeddingCache s) /\
    DbMaintenance.events (snd retried)
      = DbMaintenance.events s ++ [DbMaintenance.Embedded text; DbMaintenance.Embedded text].
Proof.
  intros Hmiss Hname Hfail outcome. subst outcome.
  rewrite (getCachedEmbedding_miss defaultModel text model s Hmiss Hname), Hfail.
  cbn [fst snd].
  split; [reflexivity|]. split; [reflexivity|]. split; [reflexivity|].
  intros embedding Hok.
  rewrite getCachedEmbedding_miss by assumption. rewrite Hok. cbn.
  rewrite <- app_assoc. repeat split.
Qed.

(** X14 at work: the service is down at the first call and up at the second. *)
Lemma failed_embedding_witness :
  let outcome :=
    DbMaintenance.getCachedEmbedding Examples.small_model Scenario.widget_question
      (Some Examples.model_down) DbMaintenance.empty in
  fst outcome = inl (Error "503 service unavailable") /\
  DbMaintenance._embeddingCache (snd outcome) = ∅ /\
  DbMaintenance.events (snd outcome) = [DbMaintenance.Embedded Scenario.widget_question] /\
  forall embedding,
    Scenario.embed Scenario.widget_question = inr embedding ->
    let retried :=
      DbMaintenance.getCachedEmbedding Examples.small_model Scenario.widget_question None
        (snd outcome) in
    fst retried = inr (DbMaintenance.Embedding embedding) /\
    DbMaintenance._embeddingCache (snd retried) = <[Scenario.widget_question := embedding]> ∅ /\
    DbMaintenance.events (snd retried)
      = [DbMaintenance.Embedded Scenario.widget_question;
         DbMaintenance.Embedded Scenario.widget_question].
Proof.
  exact (failed_embedding_not_cached Examples.small_model Scenario.widget_question
           (Some Examples.model_down) None DbMaintenance.empty
           (Error "503 service unavailable") eq_refl eq_refl eq_refl).
Defined.

(** X15. With clients that answer every text, a run of calls of
    [getCachedEmbedding] on a cache that starts empty asks for the
    embedding of each text at most once.  Every text that was looked up has
    been embedded and is cached, unless it is the name of a property every
    object inherits: such a text is never embedded and never cached. *)
Theorem each_text_embedded_once (defaultModel : DbMaintenance.EmbeddingModel)
    (requests : list Lookup) :
  Forall (fun request => reliable (default defaultModel (snd request))) requests ->
  let s := lookups defaultModel requests DbMaintenance.empty in
  NoDup (embeddedTexts (DbMaintenance.events s)) /\
  forall request, request ∈ requests ->
    if inherited (fst request)
    then (fst request ∉ embeddedTexts (DbMaintenance.events s)) /\
         DbMaintenance._embeddingCache s !! fst request = None
    else fst request ∈ embeddedTexts (DbMaintenance.events s) /\
         is_Some (DbMaintenance._embeddingCache s !! fst request).
Proof.
  intros Hrel.
  assert (forall s0, embeddedOnce s0 ->
            forall request, request ∈ requests -> inherited (fst request) = false ->
              is_Some (DbMaintenance._embeddingCache (lookups defaultModel requests s0)
                         !! fst request)) as Hrun.
  { induction Hrel as [|[text model] rest Hm Hrest IH]; intros s0 Hinv.
    - intros request Hin. inversion Hin.
    - cbn [lookups]. cbn [snd] in Hm.
      pose proof (getCachedEmbedding_once defaultModel text model s0 Hm Hinv) as Hinv'.
      intros request Hreq Hname.
      apply elem_of_cons in Hreq as [-> | Hreq]; [|now apply IH].
      cbn [fst] in *.
      assert (is_Some (DbMaintenance._embeddingCache
                (snd (DbMaintenance.getCachedEmbedding defaultModel text model s0)) !! text))
        as [v Hv].
      { destruct (DbMaintenance._embeddingCache s0 !! text) as [v|] eqn:Htext.
        - rewrite (getCachedEmbedding_hit defaultModel text model s0 v Htext). eauto.
        - rewrite (getCachedEmbedding_miss defaultModel text model s0 Htext Hname).
          destruct (Hm text) as [v ->]. simpl. rewrite lookup_insert_eq. eauto. }
      exists v. now apply lookups_keep. }
  intros s.
  assert (embeddedOnce DbMaintenance.empty) as Hempty.
  { split; [constructor|]. split.
    - intros text. cbn. rewrite lookup_empty. split.
      + intros Hin. inversion Hin.
      + intros [v Hv]. discriminate.
    - intros text. cbn. rewrite lookup_empty. intros [v Hv]. discriminate. }
  destruct (lookups_once defaultModel requests DbMaintenance.empty Hrel Hempty)
    as (Hnodup & Hdom & Hnames).
  fold s in Hnodup, Hdom, Hnames.
  split; [exact Hnodup|]. intros request Hreq.
  destruct (inherited (fst request)) eqn:Hname.
  - assert (DbMaintenance._embeddingCache s !! fst request = None) as Hnone.
    { destruct (DbMaintenance._embeddingCache s !! fst request) as [v|] eqn:Hv;
        [|reflexivity].
      rewrite Hnames in Hname by (rewrite Hv; eauto). discriminate. }
    split; [|exact Hnone]. intros Hin. apply Hdom in Hin. rewrite Hnone in Hin.
    now destruct Hin.
  - assert (is_Some (DbMaintenance._embeddingCache s !! fst request)) as Hsome.
    { now apply (Hrun DbMaintenance.empty Hempty). }
    split; [now apply Hdom | exact Hsome].
Qed.

(** X15 at work: the widget question looked up three times, with two
    clients, and the text ['constructor'] looked up once. *)
Lemma each_text_embedded_once_witness :
  let s :=
    lookups Examples.other_model
      [(Scenario.widget_question, None);
       (Scenario.widget_question, Some Examples.unit_model);
       ("constructor", Some Examples.unit_model);
       (Scenario.widget_question, None)]
      DbMaintenance.empty in
  NoDup (embeddedTexts (DbMaintenance.events s)) /\
  forall request,
    request ∈ [(Scenario.widget_question, None);
               (Scenario.widget_question, Some Examples.unit_model);
               ("constructor", Some Examples.unit_model);
               (Scenario.widget_question, None)] ->
    if inherited (fst request)
    then (fst request ∉ embeddedTexts (DbMaintenance.events s)) /\
         DbMaintenance._embeddingCache s !! fst request = None
    else fst request ∈ embeddedTexts (DbMaintenance.events s) /\
         is_Some (DbMaintenance._embeddingCache s !! fst request).
Proof.
  apply (each_text_embedded_once Examples.other_model).
  repeat (constructor; [intros text; eexists; reflexivity|]). constructor.
Defined.

(** X16. [clearEmbeddingCache] empties the cache and prints the number of
    texts it held; the next call of [getCachedEmbedding] asks a client
    again, also for a text that had been cached, and returns what the
    client answers.  For the name of a property every object inherits,
    that call returns the inherited property and asks no client. *)
Theorem clearEmbeddingCache_forgets (defaultModel : DbMaintenance.EmbeddingModel)
    (text : string) (model : option DbMaintenance.EmbeddingModel) (s : DbMaintenance.Cache) :
  let cleared := snd (DbMaintenance.clearEmbeddingCache s) in
  let next := DbMaintenance.getCachedEmbedding defaultModel text model cleared in
  fst (DbMaintenance.clearEmbeddingCache s) = inr tt /\
  DbMaintenance._embeddingCache cleared = ∅ /\
  DbMaintenance.events cleared
    = DbMaintenance.events s ++ [DbMaintenance.Cleared (size (dom (DbMaintenance._embeddingCache s)))] /\
  (inherited text = false ->
     DbMaintenance.events (snd next) = DbMaintenance.events cleared ++ [DbMaintenance.Embedded text] /\
     fst next =
       match DbMaintenance.embedQuery (default defaultModel model) text with
       | inl e => inl e
       | inr embedding => inr (DbMaintenance.Embedding embedding)
       end) /\
  (inherited text = true -> next = (inr (DbMaintenance.Inherited text), cleared)).
Proof.
  intros cleared next. subst next cleared.
  unfold DbMaintenance.clearEmbeddingCache, bind, gets, modify, DbMaintenance.log.
  cbn [fst snd DbMaintenance._embeddingCache DbMaintenance.events].
  rewrite size_dom. split; [reflexivity|]. split; [reflexivity|]. split; [reflexivity|].
  split.
  - intros Hname. rewrite getCachedEmbedding_miss by (try apply lookup_empty; exact Hname).
    now destruct (DbMaintenance.embedQuery (default defaultModel model) text).
  - intros Hname. now apply getCachedEmbedding_inherited; [apply lookup_empty|].
Qed.

(** * Start-up with a reachable store *)

(** X17. When one of the three connection attempts succeeds, [startServer]
    ends with the server listening, after as many attempts as it took, and
    with the retriever of the instance as its retriever: a similarity
    search of the store for 6 documents. *)
Theorem startServer_connected (connectN : nat -> result DbSingleton.VectorStore)
    (k : nat) (store : DbSingleton.VectorStore) :
  k < 3 -> (forall j, j < k -> exists e, connectN j = inl e) -> connectN k = inr store ->
  exists s',
    App.startServer connectN App.initial = (inr tt, s') /\
    App.listening s' = true /\
    App.chromaInstance s' = ready store /\
    DbSingleton.attempts (App.chroma s') = k + 1 /\
    forall query, retrieve (App.retriever s') query = DbSingleton.search store query 6.
Proof.
  intros Hk Hbefore Hok.
  unfold App.startServer, App.initChroma, App.listen, try_catch, bind, modify, App.inChroma.
  cbn [App.chroma App.initial].
  rewrite getInstance_new by reflexivity. rewrite initialize_run.
  unfold DbSingleton.initial.
  cbn [DbSingleton.attempts DbSingleton.events DbSingleton._instance Nat.add app].
  assert (k = 0 \/ k = 1 \/ k = 2) as [-> | [-> | ->]] by lia.
  - rewrite Hok. eexists. repeat split.
  - destruct (Hbefore 0) as [e0 H0]; [lia|]. rewrite H0, Hok. eexists. repeat split.
  - destruct (Hbefore 0) as [e0 H0]; [lia|]. destruct (Hbefore 1) as [e1 H1]; [lia|].
    rewrite H0, H1, Hok. eexists. repeat split.
Qed.

(** X17 at work: a vector store that accepts the second connection. *)
Lemma startServer_connected_witness :
  exists s',
    App.startServer Scenario.second_time App.initial = (inr tt, s') /\
    App.listening s' = true /\
    App.chromaInstance s'
      = ready {| DbSingleton.search := fun query _ => invoke Scenario.retriever query |} /\
    DbSingleton.attempts (App.chroma s') = 1 + 1 /\
    forall query,
      retrieve (App.retriever s') query
      = DbSingleton.search
          {| DbSingleton.search := fun query _ => invoke Scenario.retriever query |} query 6.
Proof.
  apply (startServer_connected Scenario.second_time 1).
  - lia.
  - intros j Hj. assert (j = 0) as -> by lia. eexists. reflexivity.
  - reflexivity.
Defined.

(** * The handler of an accepted query *)

(** X18. The handler of an accepted query sends one message: it does not
    throw, and it emits either the answer of [getResponse], which it then
    hands to the loggers with the current model, or, when [getResponse]
    throws, the error notification, with nothing logged.  It changes
    nothing else outside [llm_query.js]. *)
Theorem query_gets_one_reply (svc : Services) (sessionId query : string) (s : App.State) :
  let response := getResponse svc query (App.retriever s) (Some sessionId) (App.llm s) in
  let outcome := App.onQuery svc sessionId query s in
  fst outcome = inr tt /\
  App.llm (snd outcome) = snd response /\
  App.retriever (snd outcome) = App.retriever s /\
  App.chroma (snd outcome) = App.chroma s /\
  App.outputs (snd outcome) =
    App.outputs s ++
      match fst response with
      | inr text =>
          [App.EmitAnswer text;
           App.Logged sessionId query text (currentModel (snd response))]
      | inl _ => [App.EmitError "An error occurred while processing your query."]
      end.
Proof.
  intros response outcome. subst response outcome.
  unfold App.onQuery, try_catch, bind, gets, App.inLlm, getCurrentModel, App.output, modify.
  cbn [fst snd App.retriever App.llm].
  destruct (getResponse svc query (App.retriever s) (Some sessionId) (App.llm s))
    as [[e|text] w']; cbn; rewrite <- ?app_assoc; repeat split.
Qed.

(** * Queries to a server without vector store *)

Section RepeatFacts.
  Variable svc : Services.

Lemma onQuery_unanswering (sessionId query : string) (s : App.State) :
  unanswering s ->
  unanswering (snd (App.onQuery svc sessionId query s)) /\
  App.outputs (snd (App.onQuery svc sessionId query s)) =
    App.outputs s ++ [App.EmitError "An error occurred while processing your query."].
Proof.
  intros (Hr & Hm & Ht & Hc). rewrite onQuery_run. cbn [snd App.outputs].
  split; [|reflexivity].
  unfold unanswering. cbn [App.retriever App.llm]. split; [exact Hr|]. split.
  - intros sid. now rewrite opened_messages.
  - now rewrite opened_trace, opened_model.
Qed.

Lemma handleAll_unanswering (queries : list (string * string)) (s : App.State) :
  unanswering s ->
  unanswering (handleAll svc queries s) /\
  App.outputs (handleAll svc queries s) =
    App.outputs s ++
      map (fun _ => App.EmitError "An error occurred while processing your query.") queries.
Proof.
  revert s. induction queries as [|[sessionId query] rest IH]; intros s Hs; cbn [handleAll map].
  - now rewrite app_nil_r.
  - destruct (onQuery_unanswering sessionId query s Hs) as [Hs' Hout].
    destruct (IH _ Hs') as [Hfinal Houts]. split; [exact Hfinal|].
    rewrite Houts, Hout. now rewrite <- app_assoc.
Qed.

End RepeatFacts.

(** X19. A server that started without a vector store answers nothing: when
    the three connection attempts of the start-up fail, every query
    handled afterwards, in any session and whatever the services do, is
    answered with the error notification; no document is retrieved, no
    chat model is called and the current model stays [null]. *)
Theorem failed_startup_answers_nothing (svc : Services)
    (connectN : nat -> result DbSingleton.VectorStore) (queries : list (string * string)) :
  (forall n, n < 3 -> exists e, connectN n = inl e) ->
  let s := handleAll svc queries (snd (App.startServer connectN App.initial)) in
  App.outputs s
    = map (fun _ => App.EmitError "An error occurred while processing your query.") queries /\
  trace (App.llm s) = [] /\
  currentModel (App.llm s) = None.
Proof.
  intros Hfail s. subst s.
  destruct (startServer_all_fail connectN Hfail) as (s0 & Hstart & _ & Hr & _ & _).
  rewrite Hstart. cbn [snd].
  assert (App.llm s0 = LlmQuery.initial /\ App.outputs s0 = []) as [Hllm Hout].
  { revert Hstart. unfold App.startServer, App.initChroma, App.listen, try_catch, bind, modify,
      App.inChroma.
    destruct (DbSingleton.getInstance connectN (App.chroma App.initial)) as [[e|inst] c];
      intros [= <-]; now split. }
  destruct (handleAll_unanswering svc queries s0) as [(_ & _ & Ht & Hc) Houts].
  { split; [exact Hr|]. rewrite Hllm. repeat split. }
  rewrite Houts, Hout. repeat split; assumption.
Qed.

(** X19 at work: three questions to a server whose vector store refused
    every connection. *)
Lemma failed_startup_witness :
  let s :=
    handleAll Scenario.svc
      [("s", Scenario.widget_question); ("s", Scenario.widget_question);
       ("t", Scenario.weather_question)]
      (snd (App.startServer Scenario.refused App.initial)) in
  App.outputs s
    = map (fun _ => App.EmitError "An error occurred while processing your query.")
        [("s", Scenario.widget_question); ("s", Scenario.widget_question);
         ("t", Scenario.weather_question)] /\
  trace (App.llm s) = [] /\
  currentModel (App.llm s) = None.
Proof.
  apply (failed_startup_answers_nothing Scenario.svc Scenario.refused).
  intros n _. eexists. reflexivity.
Defined.

(** * The conversation log *)

Lemma orElse_empty (s : string) : Conversations.orElse (Some s) EmptyString = s.
Proof. now destruct s. Qed.

(** X20. The export is refused with status 403 exactly when the password of
    the request differs from [FILE_PASSWORD], whether the database is
    connected or not; when [FILE_PASSWORD] is not set, the request that
    carries no password is therefore let through.  The handler changes
    nothing. *)
Theorem export_requires_password (toISOString : Z -> string)
    (FILE_PASSWORD password : option string) (found : result unit)
    (s : Conversations.State) :
  let outcome := Conversations.exportConversations toISOString FILE_PASSWORD password found s in
  (fst outcome = inr (Conversations.Send 403 "Forbidden") <-> password <> FILE_PASSWORD) /\
  (exists reply, fst outcome = inr reply) /\
  snd outcome = s.
Proof.
  intros outcome. subst outcome. unfold Conversations.exportConversations.
  destruct (bool_decide (password = FILE_PASSWORD)) eqn:Hpw; cbn [negb].
  - apply bool_decide_eq_true in Hpw.
    unfold bind, gets, try_catch, Conversations.find, liftR, ret, bind.
    destruct (Conversations.conversationCollection s); cbn [negb fst snd].
    + destruct found as [e|[]]; cbn [fst snd];
        (split; [split; [discriminate | contradiction] | split; [eauto | reflexivity]]).
    + split; [split; [discriminate | contradiction] | split; [eauto | reflexivity]].
  - apply bool_decide_eq_false in Hpw. unfold ret. cbn [fst snd].
    split; [split; auto | split; [eauto | reflexivity]].
Qed.

(** X21. [logToMongo] never throws.  On a server that is connected to the
    database, a conversation whose write is acknowledged is the last
    record of the next export, with ['gpt-4o'] for its model when it was
    logged with none; a write that fails leaves the collection as it
    was. *)
Theorem logged_conversation_exported (toISOString : Z -> string)
    (FILE_PASSWORD : option string) (sessionId question answer : string)
    (modelName : option string) (now : Z) (acknowledged : result unit)
    (s : Conversations.State) :
  Conversations.conversationCollection s = true ->
  let outcome :=
    Conversations.logToMongo sessionId question answer modelName now acknowledged s in
  fst outcome = inr tt /\
  (acknowledged = inr tt ->
   fst (Conversations.exportConversations toISOString FILE_PASSWORD FILE_PASSWORD (inr tt)
          (snd outcome))
   = inr (Conversations.Csv Conversations.columns
            (map (Conversations.record toISOString) (Conversations.conversations s) ++
             [[sessionId; question; answer; Conversations.orElse modelName "gpt-4o";
               toISOString now]]))) /\
  (forall e, acknowledged = inl e -> snd outcome = s).
Proof.
  intros Hconnected outcome. subst outcome.
  unfold Conversations.logToMongo, bind, gets. rewrite Hconnected. cbn [negb].
  unfold try_catch, Conversations.insertOne, bind, liftR, modify, ret.
  destruct acknowledged as [e|[]]; cbn [fst snd].
  - split; [reflexivity|]. split; [discriminate|]. reflexivity.
  - split; [reflexivity|]. split; [|discriminate]. intros _.
    unfold Conversations.exportConversations.
    rewrite bool_decide_eq_true_2 by reflexivity. cbn [negb].
    unfold bind, gets, try_catch, Conversations.find, liftR, ret, bind.
    cbn [Conversations.conversationCollection Conversations.conversations fst snd].
    rewrite Hconnected. cbn [negb fst]. unfold gets.
    cbn [Conversations.conversations fst]. rewrite map_app. cbn [map].
    unfold Conversations.record at 2.
    cbn [Conversations.session_id Conversations.query Conversations.answer
         Conversations.model Conversations.timestamp].
    now rewrite !orElse_empty.
Qed.

(** X21 at work: a conversation logged with no model name is exported
    after the conversation the database already held. *)
Lemma logged_conversation_witness :
  fst (Conversations.exportConversations Examples.epoch (Some "secret") (Some "secret")
         (inr tt)
         (snd (Conversations.logToMongo "s" Scenario.weather_question low_confidence_message
                 None 0 (inr tt) Examples.logged)))
  = inr (Conversations.Csv Conversations.columns
           [["r"; "Hello"; "Hi"; "gpt-4o"; EmptyString];
            ["s"; Scenario.weather_question; low_confidence_message; "gpt-4o";
             "1970-01-01T00:00:00.000Z"]]).
Proof.
  exact (proj1 (proj2 (logged_conversation_exported Examples.epoch (Some "secret") "s"
                         Scenario.weather_question low_confidence_message None 0 (inr tt)
                         Examples.logged eq_refl)) eq_refl).
Defined.

(** X22. On a server whose connection to the database failed at start-up,
    [logToMongo] drops every conversation without an error, and the
    export, for the right password, answers 500 ['MongoDB not connected']:
    nothing connects again. *)
Theorem unconnected_log_is_dropped (toISOString : Z -> string)
    (FILE_PASSWORD : option string) (e : exn) (calls : list LogCall) (found : result unit)
    (s : Conversations.State) :
  Conversations.conversationCollection s = false ->
  let s1 := logAll calls (snd (Conversations.connectToMongo (inl e) s)) in
  fst (Conversations.connectToMongo (inl e) s) = inr tt /\
  s1 = s /\
  fst (Conversations.exportConversations toISOString FILE_PASSWORD FILE_PASSWORD found s1)
    = inr (Conversations.Send 500 "MongoDB not connected").
Proof.
  intros Hoff s1. subst s1.
  unfold Conversations.connectToMongo, try_catch, bind, liftR, ret. cbn [fst snd].
  assert (logAll calls s = s) as ->.
  { induction calls as [|[[[[[sessionId question] answer] modelName] now] acknowledged] rest IH];
      [reflexivity|].
    cbn [logAll]. unfold Conversations.logToMongo, bind, gets. rewrite Hoff. cbn [negb].
    unfold ret. cbn [snd]. exact IH. }
  split; [reflexivity|]. split; [reflexivity|].
  unfold Conversations.exportConversations.
  rewrite bool_decide_eq_true_2 by reflexivity. cbn [negb].
  unfold bind, gets. now rewrite Hoff.
Qed.

(** X22 at work: two conversations logged while the database is unreachable. *)
Lemma unconnected_log_witness :
  let s1 :=
    logAll [("s", "q1", "a1", None, 0%Z, inr tt); ("s", "q2", "a2", Some "gpt-4o", 1%Z, inr tt)]
      (snd (Conversations.connectToMongo (inl (Error "ECONNREFUSED")) Examples.unreachable)) in
  fst (Conversations.connectToMongo (inl (Error "ECONNREFUSED")) Examples.unreachable)
    = inr tt /\
  s1 = Examples.unreachable /\
  fst (Conversations.exportConversations Examples.epoch (Some "secret") (Some "secret")
         (inr tt) s1)
    = inr (Conversations.Send 500 "MongoDB not connected").
Proof.
  exact (unconnected_log_is_dropped Examples.epoch (Some "secret") (Error "ECONNREFUSED")
           [("s", "q1", "a1", None, 0%Z, inr tt); ("s", "q2", "a2", Some "gpt-4o", 1%Z, inr tt)]
           (inr tt) Examples.unreachable eq_refl).
Defined.

(** * The sockets *)

Section SocketFacts.
  Variable sanitizeHtml : string -> string.

Lemma onQueryStart_idle (socketId query : string) (session : Sockets.Session)
    (s : Sockets.State) :
  Sockets.sessions s !! socketId = Some session ->
  Sockets.requestInProgress session = false ->
  Sockets.onQueryStart sanitizeHtml socketId (Some query) s =
    (inr (Some (Sockets.userSessionId session, sanitizeHtml query)),
     {| Sockets.sessions := <[socketId := busy session]> (Sockets.sessions s);
        Sockets.emitted := Sockets.emitted s;
        Sockets.app := Sockets.app s |}).
Proof.
  intros Hentry Hidle. unfold Sockets.onQueryStart, bind, gets.
  rewrite Hentry, Hidle. reflexivity.
Qed.

Lemma onQueryStart_busy (socketId : string) (data : option string)
    (session : Sockets.Session) (s : Sockets.State) :
  Sockets.sessions s !! socketId = Some session ->
  Sockets.requestInProgress session = true ->
  Sockets.onQueryStart sanitizeHtml socketId data s =
    (inr None, sent socketId [Sockets.ErrorSent Sockets.please_wait] s).
Proof.
  intros Hentry Hbusy. unfold Sockets.onQueryStart, bind, gets.
  rewrite Hentry, Hbusy. reflexivity.
Qed.

Lemma onQueryStart_no_payload (socketId : string) (session : Sockets.Session)
    (s : Sockets.State) :
  Sockets.sessions s !! socketId = Some session ->
  Sockets.requestInProgress session = false ->
  Sockets.onQueryStart sanitizeHtml socketId None s =
    (inl Sockets.undefined_data,
     {| Sockets.sessions := <[socketId := busy session]> (Sockets.sessions s);
        Sockets.emitted := Sockets.emitted s;
        Sockets.app := Sockets.app s |}).
Proof.
  intros Hentry Hidle. unfold Sockets.onQueryStart, bind, gets.
  rewrite Hentry, Hidle. reflexivity.
Qed.

(** An accepted request leaves the socket's entry marked. *)
Lemma onQueryStart_accepted (socketId : string) (data : option string)
    (request : string * string) (s s1 : Sockets.State) :
  Sockets.onQueryStart sanitizeHtml socketId data s = (inr (Some request), s1) ->
  exists session query,
    Sockets.sessions s !! socketId = Some session /\
    Sockets.requestInProgress session = false /\
    data = Some query /\
    request = (Sockets.userSessionId session, sanitizeHtml query) /\
    s1 = {| Sockets.sessions := <[socketId := busy session]> (Sockets.sessions s);
            Sockets.emitted := Sockets.emitted s;
            Sockets.app := Sockets.app s |}.
Proof.
  unfold Sockets.onQueryStart, bind, gets.
  destruct (Sockets.sessions s !! socketId) as [session|] eqn:Hentry; [|discriminate].
  destruct (Sockets.requestInProgress session) eqn:Hflag; [discriminate|].
  destruct data as [query|]; [|discriminate].
  intros [= <- <-]. exists session, query. repeat split; auto.
Qed.

Lemma sent_app (socketId : string) (ms ms' : list Sockets.Emitted) (s : Sockets.State) :
  sent socketId ms' (sent socketId ms s) = sent socketId (ms ++ ms') s.
Proof. unfold sent; simpl. now rewrite map_app, app_assoc. Qed.

Lemma sent_nil (socketId : string) (s : Sockets.State) : sent socketId [] s = s.
Proof. destruct s. unfold sent; simpl. now rewrite app_nil_r. Qed.

(** Every ['query'] event on a socket whose request is in progress is
    refused. *)
Lemma queryEvents_busy (socketId : string) (payloads : list (option string))
    (session : Sockets.Session) (s : Sockets.State) :
  Sockets.sessions s !! socketId = Some session ->
  Sockets.requestInProgress session = true ->
  queryEvents sanitizeHtml socketId payloads s =
    (map (fun _ => inr None) payloads,
     sent socketId (map (fun _ => Sockets.ErrorSent Sockets.please_wait) payloads) s).
Proof.
  intros Hentry Hbusy. revert s Hentry.
  induction payloads as [|data rest IH]; intros s Hentry; simpl.
  - now rewrite sent_nil.
  - rewrite (onQueryStart_busy socketId data session s Hentry Hbusy).
    rewrite (IH (sent socketId [Sockets.ErrorSent Sockets.please_wait] s) Hentry).
    now rewrite sent_app.
Qed.

End SocketFacts.

(** X23. A socket has one request at a time: from the moment a ['query']
    event is accepted until its handler has finished, every further
    ['query'] event on the socket is answered 'Please wait for the current
    response.', starts no request and changes nothing else. *)
Theorem one_request_per_socket (sanitizeHtml : string -> string) (socketId : string)
    (data : option string) (request : string * string) (later : list (option string))
    (s s1 : Sockets.State) :
  Sockets.onQueryStart sanitizeHtml socketId data s = (inr (Some request), s1) ->
  queryEvents sanitizeHtml socketId later s1 =
    (map (fun _ => inr None) later,
     sent socketId (map (fun _ => Sockets.ErrorSent Sockets.please_wait) later) s1).
Proof.
  intros Haccepted.
  destruct (onQueryStart_accepted sanitizeHtml socketId data request s s1 Haccepted)
    as (session & query & Hentry & Hidle & -> & -> & ->).
  apply (queryEvents_busy sanitizeHtml socketId later (busy session)); [|reflexivity].
  cbn [Sockets.sessions]. apply lookup_insert_eq.
Qed.

(** X23 at work: two more questions while the first is being answered. *)
Lemma one_request_per_socket_witness :
  queryEvents Examples.plain "socket-1" [Some Scenario.weather_question; None]
    (snd (Sockets.onQueryStart Examples.plain "socket-1" (Some Scenario.widget_question)
            Examples.connected)) =
    (map (fun _ => inr None) [Some Scenario.weather_question; None],
     sent "socket-1"
       (map (fun _ => Sockets.ErrorSent Sockets.please_wait)
          [Some Scenario.weather_question; None])
       (snd (Sockets.onQueryStart Examples.plain "socket-1" (Some Scenario.widget_question)
               Examples.connected))).
Proof.
  apply (one_request_per_socket Examples.plain "socket-1" (Some Scenario.widget_question)
           ("s", Scenario.widget_question) [Some Scenario.weather_question; None]
           Examples.connected).
  reflexivity.
Defined.

(** X24. The [finally] block releases the socket: when the handler of an
    accepted request finishes, whether [getResponse] returned or threw,
    it does not throw, the socket's entry is as it was before the request,
    the rest of the state is what the [try] and [catch] blocks made of it,
    and the next ['query'] event on the socket is accepted. *)
Theorem request_releases_socket (svc : Services) (sanitizeHtml : string -> string)
    (socketId : string) (data : option string) (request : string * string)
    (next : string) (s s1 : Sockets.State) :
  Sockets.onQueryStart sanitizeHtml socketId data s = (inr (Some request), s1) ->
  let outcome := Sockets.onQueryFinish svc socketId request s1 in
  fst outcome = inr tt /\
  Sockets.sessions (snd outcome) = Sockets.sessions s /\
  Sockets.emitted (snd outcome) = Sockets.emitted s /\
  Sockets.app (snd outcome)
    = snd (App.onQuery svc (fst request) (snd request) (Sockets.app s)) /\
  fst (Sockets.onQueryStart sanitizeHtml socketId (Some next) (snd outcome))
    = inr (Some (fst request, sanitizeHtml next)).
Proof.
  intros Haccepted outcome. subst outcome.
  destruct (onQueryStart_accepted sanitizeHtml socketId data request s s1 Haccepted)
    as (session & query & Hentry & Hidle & -> & -> & ->).
  unfold Sockets.onQueryFinish, bind, Sockets.inApp, gets, Sockets.setRequestInProgress, modify.
  cbn [fst snd Sockets.app Sockets.sessions Sockets.emitted].
  destruct (App.onQuery svc (Sockets.userSessionId session) (sanitizeHtml query)
              (Sockets.app s)) as [[e|[]] a] eqn:Hrun.
  { exfalso. revert Hrun. unfold App.onQuery, try_catch, bind, gets, App.inLlm,
      getCurrentModel, App.output, modify; simpl.
    destruct (getResponse svc _ _ _ _) as [[e'|text] w']; discriminate. }
  cbn [fst snd Sockets.app Sockets.sessions Sockets.emitted].
  rewrite lookup_insert_eq.
  cbn [fst snd Sockets.app Sockets.sessions Sockets.emitted busy Sockets.userSessionId].
  assert (<[socketId := {| Sockets.userSessionId := Sockets.userSessionId session;
                           Sockets.requestInProgress := false |}]>
            (<[socketId := busy session]> (Sockets.sessions s)) = Sockets.sessions s)
    as Hrestored.
  { rewrite insert_insert_eq. apply insert_id. rewrite Hentry.
    destruct session as [uid flag]. simpl in *. now subst flag. }
  rewrite Hrestored. repeat split.
  rewrite (onQueryStart_idle sanitizeHtml socketId next session); auto.
Qed.

(** X24 at work: the widget question on the connected socket. *)
Lemma request_releases_socket_witness :
  let s1 :=
    snd (Sockets.onQueryStart Examples.plain "socket-1" (Some Scenario.widget_question)
           Examples.connected) in
  let outcome :=
    Sockets.onQueryFinish Scenario.svc "socket-1" ("s", Scenario.widget_question) s1 in
  fst outcome = inr tt /\
  Sockets.sessions (snd outcome) = Sockets.sessions Examples.connected /\
  Sockets.emitted (snd outcome) = Sockets.emitted Examples.connected /\
  Sockets.app (snd outcome)
    = snd (App.onQuery Scenario.svc "s" Scenario.widget_question Examples.started) /\
  fst (Sockets.onQueryStart Examples.plain "socket-1" (Some Scenario.weather_question)
         (snd outcome))
    = inr (Some ("s", Scenario.weather_question)).
Proof.
  apply (request_releases_socket Scenario.svc Examples.plain "socket-1"
           (Some Scenario.widget_question) ("s", Scenario.widget_question)
           Scenario.weather_question Examples.connected).
  reflexivity.
Defined.

(** X25. A ['query'] event without payload ends the serving of events: on
    a socket with no request in progress the handler marks the request as
    in progress, then throws on reading [data.query], outside the [try]
    block.  Nothing is sent to the socket and nothing resets the mark; the
    rejection is not handled, and the events that follow are not handled
    either. *)
Theorem missing_payload_ends_run (sanitizeHtml : string -> string) (socketId : string)
    (session : Sockets.Session) (later : list (option string)) (s : Sockets.State) :
  Sockets.sessions s !! socketId = Some session ->
  Sockets.requestInProgress session = false ->
  let outcome := Sockets.onQueryStart sanitizeHtml socketId None s in
  fst outcome = inl Sockets.undefined_data /\
  Sockets.sessions (snd outcome) !! socketId = Some (busy session) /\
  Sockets.emitted (snd outcome) = Sockets.emitted s /\
  Sockets.app (snd outcome) = Sockets.app s /\
  queryEvents sanitizeHtml socketId (None :: later) s
    = ([inl Sockets.undefined_data], snd outcome).
Proof.
  intros Hentry Hidle outcome. subst outcome. cbn [queryEvents].
  rewrite (onQueryStart_no_payload sanitizeHtml socketId session s Hentry Hidle).
  cbn [fst snd Sockets.sessions Sockets.emitted Sockets.app].
  split; [reflexivity|]. split; [apply lookup_insert_eq|]. repeat split.
Qed.

(** X25 at work: an empty ['query'] event, then a question. *)
Lemma missing_payload_witness :
  let outcome := Sockets.onQueryStart Examples.plain "socket-1" None Examples.connected in
  fst outcome = inl Sockets.undefined_data /\
  Sockets.sessions (snd outcome) !! "socket-1"
    = Some (busy {| Sockets.userSessionId := "s"; Sockets.requestInProgress := false |}) /\
  Sockets.emitted (snd outcome) = Sockets.emitted Examples.connected /\
  Sockets.app (snd outcome) = Sockets.app Examples.connected /\
  queryEvents Examples.plain "socket-1" [None; Some Scenario.widget_question]
    Examples.connected
    = ([inl Sockets.undefined_data], snd outcome).
Proof.
  apply (missing_payload_ends_run Examples.plain "socket-1"
           {| Sockets.userSessionId := "s"; Sockets.requestInProgress := false |}
           [Some Scenario.widget_question] Examples.connected).
  - reflexivity.
  - reflexivity.
Defined.

(** X26. When the socket disconnects, or its session is cleared, while its
    request is in progress, the [try] and [catch] blocks of the handler
    still run to their end, and the handler then throws in its [finally]
    block, where the entry of the socket is no longer there. *)
Theorem disconnect_during_request (svc : Services) (sanitizeHtml : string -> string)
    (socketId : string) (data : option string) (request : string * string)
    (cleared : bool) (s s1 : Sockets.State) :
  Sockets.onQueryStart sanitizeHtml socketId data s = (inr (Some request), s1) ->
  let s2 :=
    snd ((if cleared then Sockets.onClearSession socketId
          else Sockets.onDisconnect socketId) s1) in
  let outcome := Sockets.onQueryFinish svc socketId request s2 in
  fst outcome = inl Sockets.undefined_session_write /\
  Sockets.app (snd outcome)
    = snd (App.onQuery svc (fst request) (snd request) (Sockets.app s)) /\
  Sockets.sessions (snd outcome) = delete socketId (Sockets.sessions s).
Proof.
  intros Haccepted s2 outcome. subst outcome s2.
  destruct (onQueryStart_accepted sanitizeHtml socketId data request s s1 Haccepted)
    as (session & query & Hentry & Hidle & -> & -> & ->).
  assert (forall st, Sockets.sessions st = delete socketId (Sockets.sessions s) ->
            Sockets.app st = Sockets.app s ->
            let outcome :=
              Sockets.onQueryFinish svc socketId
                (Sockets.userSessionId session, sanitizeHtml query) st in
            fst outcome = inl Sockets.undefined_session_write /\
            Sockets.app (snd outcome)
              = snd (App.onQuery svc (Sockets.userSessionId session) (sanitizeHtml query)
                       (Sockets.app s)) /\
            Sockets.sessions (snd outcome) = delete socketId (Sockets.sessions s))
    as Hfinish.
  { intros st Hsessions Happ.
    unfold Sockets.onQueryFinish, bind, Sockets.inApp, gets, throw.
    cbn [fst snd]. rewrite Happ.
    destruct (App.onQuery svc (Sockets.userSessionId session) (sanitizeHtml query)
                (Sockets.app s)) as [[e|[]] a] eqn:Hrun.
    { exfalso. revert Hrun. unfold App.onQuery, try_catch, bind, gets, App.inLlm,
        getCurrentModel, App.output, modify; simpl.
      destruct (getResponse svc _ _ _ _) as [[e'|text] w']; discriminate. }
    cbn [fst snd Sockets.sessions Sockets.app]. rewrite Hsessions, lookup_delete_eq.
    cbn [fst snd Sockets.sessions Sockets.app]. repeat split. }
  destruct cleared.
  - apply Hfinish; [|reflexivity].
    unfold Sockets.onClearSession, Sockets.onDisconnect, Sockets.deleteSession,
      Sockets.emit, bind, modify. cbn [fst snd Sockets.sessions].
    rewrite delete_delete_eq. apply delete_insert_eq.
  - apply Hfinish; [|reflexivity].
    unfold Sockets.onDisconnect, Sockets.deleteSession, modify. cbn [fst snd Sockets.sessions].
    apply delete_insert_eq.
Qed.

(** X26 at work: the socket disconnects while the widget question is being
    answered. *)
Lemma disconnect_during_request_witness :
  let s1 :=
    snd (Sockets.onQueryStart Examples.plain "socket-1" (Some Scenario.widget_question)
           Examples.connected) in
  let s2 := snd (Sockets.onDisconnect "socket-1" s1) in
  let outcome :=
    Sockets.onQueryFinish Scenario.svc "socket-1" ("s", Scenario.widget_question) s2 in
  fst outcome = inl Sockets.undefined_session_write /\
  Sockets.app (snd outcome)
    = snd (App.onQuery Scenario.svc "s" Scenario.widget_question Examples.started) /\
  Sockets.sessions (snd outcome) = delete "socket-1" (Sockets.sessions Examples.connected).
Proof.
  apply (disconnect_during_request Scenario.svc Examples.plain "socket-1"
           (Some Scenario.widget_question) ("s", Scenario.widget_question) false
           Examples.connected).
  reflexivity.
Defined.

(** X27. The mark of a request in progress belongs to the socket, not to
    the session: two sockets that connect with the same session id both
    have their ['query'] event accepted, for that same session, while the
    request of the other is in progress. *)
Theorem in_progress_is_per_socket (sanitizeHtml : string -> string)
    (socketA socketB id uuidA uuidB queryA queryB : string) (s : Sockets.State) :
  socketA <> socketB -> JsString.truthy id = true ->
  let s1 := snd (Sockets.onConnection socketA (Some id) uuidA s) in
  let s2 := snd (Sockets.onConnection socketB (Some id) uuidB s1) in
  let first := Sockets.onQueryStart sanitizeHtml socketA (Some queryA) s2 in
  let second := Sockets.onQueryStart sanitizeHtml socketB (Some queryB) (snd first) in
  fst first = inr (Some (id, sanitizeHtml queryA)) /\
  fst second = inr (Some (id, sanitizeHtml queryB)) /\
  (forall socketId, socketId = socketA \/ socketId = socketB ->
     Sockets.sessions (snd second) !! socketId
       = Some {| Sockets.userSessionId := id; Sockets.requestInProgress := true |}).
Proof.
  intros Hne Hid s1 s2 first second. subst second first s2 s1.
  unfold Sockets.onConnection, Sockets.emit, bind, modify. rewrite Hid.
  cbn [fst snd Sockets.sessions Sockets.emitted Sockets.app].
  set (idle := {| Sockets.userSessionId := id; Sockets.requestInProgress := false |}).
  rewrite (onQueryStart_idle sanitizeHtml socketA queryA idle).
  2:{ cbn [Sockets.sessions]. rewrite lookup_insert_ne by auto. apply lookup_insert_eq. }
  2:{ reflexivity. }
  cbn [fst snd].
  rewrite (onQueryStart_idle sanitizeHtml socketB queryB idle).
  2:{ cbn [Sockets.sessions]. rewrite lookup_insert_ne by auto. apply lookup_insert_eq. }
  2:{ reflexivity. }
  cbn [fst snd Sockets.sessions]. split; [reflexivity|]. split; [reflexivity|].
  intros socketId [-> | ->].
  - rewrite lookup_insert_ne by auto. apply lookup_insert_eq.
  - apply lookup_insert_eq.
Qed.

(** X27 at work: two browser tabs of the session ["s"]. *)
Lemma in_progress_is_per_socket_witness :
  let s1 :=
    snd (Sockets.onConnection "socket-1" (Some "s") "uuid-1" (Sockets.initial Examples.started)) in
  let s2 := snd (Sockets.onConnection "socket-2" (Some "s") "uuid-2" s1) in
  let first :=
    Sockets.onQueryStart Examples.plain "socket-1" (Some Scenario.widget_question) s2 in
  let second :=
    Sockets.onQueryStart Examples.plain "socket-2" (Some Scenario.widget_question_again)
      (snd first) in
  fst first = inr (Some ("s", Scenario.widget_question)) /\
  fst second = inr (Some ("s", Scenario.widget_question_again)) /\
  (forall socketId, socketId = "socket-1" \/ socketId = "socket-2" ->
     Sockets.sessions (snd second) !! socketId
       = Some {| Sockets.userSessionId := "s"; Sockets.requestInProgress := true |}).
Proof.
  apply (in_progress_is_per_socket Examples.plain "socket-1" "socket-2" "s" "uuid-1" "uuid-2"
           Scenario.widget_question Scenario.widget_question_again
           (Sockets.initial Examples.started)).
  - discriminate.
  - reflexivity.
Defined.

(** X28. Clearing a session does not clear the conversation: after
    ['clear_session'], a socket that connects with the same session id has
    its question handled on the same histories, current model and
    retriever as if the session had not been cleared. *)
Theorem clear_session_keeps_history (svc : Services) (sanitizeHtml : string -> string)
    (socketA socketB id uuid query : string) (s : Sockets.State) :
  JsString.truthy id = true ->
  let s1 := snd (Sockets.onClearSession socketA s) in
  let s2 := snd (Sockets.onConnection socketB (Some id) uuid s1) in
  let accepted := Sockets.onQueryStart sanitizeHtml socketB (Some query) s2 in
  Sockets.sessions s1 !! socketA = None /\
  fst accepted = inr (Some (id, sanitizeHtml query)) /\
  Sockets.app (snd (Sockets.onQueryFinish svc socketB (id, sanitizeHtml query) (snd accepted)))
    = snd (App.onQuery svc id (sanitizeHtml query) (Sockets.app s)).
Proof.
  intros Hid s1 s2 accepted. subst accepted s2 s1.
  unfold Sockets.onClearSession, Sockets.onDisconnect, Sockets.deleteSession,
    Sockets.onConnection, Sockets.emit, bind, modify. rewrite Hid.
  cbn [fst snd Sockets.sessions Sockets.emitted Sockets.app].
  split; [apply lookup_delete_eq|].
  set (idle := {| Sockets.userSessionId := id; Sockets.requestInProgress := false |}).
  rewrite (onQueryStart_idle sanitizeHtml socketB query idle);
    [| cbn [Sockets.sessions]; apply lookup_insert_eq | reflexivity].
  cbn [fst snd]. split; [reflexivity|].
  unfold Sockets.onQueryFinish, bind, Sockets.inApp, gets.
  cbn [fst snd Sockets.app Sockets.sessions].
  destruct (App.onQuery svc id (sanitizeHtml query) (Sockets.app s)) as [[e|[]] a];
    cbn [fst snd Sockets.app Sockets.sessions].
  - reflexivity.
  - rewrite lookup_insert_eq. reflexivity.
Qed.

(** X28 at work: the session in which the widget question has been asked is
    cleared; on a new socket with the same session id the question, asked
    again in other words, is handled as it would have been before: the
    history of the session is still there, and the handler sends the error
    notification. *)
Lemma clear_session_witness :
  let s :=
    {| Sockets.sessions :=
         {[ "socket-1" := {| Sockets.userSessionId := "s";
                             Sockets.requestInProgress := false |} ]};
       Sockets.emitted := [];
       Sockets.app :=
         {| App.chroma := DbSingleton.initial; App.llm := Scenario.asked;
            App.chromaInstance := None; App.retriever := Some Scenario.retriever;
            App.listening := true; App.outputs := [] |} |} in
  let s1 := snd (Sockets.onClearSession "socket-1" s) in
  let s2 := snd (Sockets.onConnection "socket-2" (Some "s") "uuid-2" s1) in
  let accepted :=
    Sockets.onQueryStart Examples.plain "socket-2" (Some Scenario.widget_question_again) s2 in
  (Sockets.sessions s1 !! "socket-1" = None /\
   fst accepted = inr (Some ("s", Scenario.widget_question_again)) /\
   Sockets.app (snd (Sockets.onQueryFinish Scenario.svc "socket-2"
                       ("s", Scenario.widget_question_again) (snd accepted)))
     = snd (App.onQuery Scenario.svc "s" Scenario.widget_question_again (Sockets.app s))) /\
  messagesOf "s"
    (App.llm (snd (App.onQuery Scenario.svc "s" Scenario.widget_question_again (Sockets.app s))))
    = messagesOf "s" Scenario.asked /\
  App.outputs (snd (App.onQuery Scenario.svc "s" Scenario.widget_question_again (Sockets.app s)))
    = [App.EmitError "An error occurred while processing your query."].
Proof.
  split.
  - apply (clear_session_keeps_history Scenario.svc Examples.plain "socket-1" "socket-2" "s"
             "uuid-2" Scenario.widget_question_again).
    reflexivity.
  - split; evaluated.
Defined.
